(** * The chain-state / UTXO database wrapper ([server/db.py])

    A shallow embedding of the [DB] class: the recovery pass run on opening
    ([clean_db]), the chain state record ([read_state], [write_state]), the
    flat files ([fs_update], [read_headers], [fs_tx_hash]) and the read
    queries ([get_history], [db_hash168], [db_utxo_lookup],
    [get_utxo_hash168]).

    Python integers are [Z], byte strings are lists of [byte], exceptions
    are an error monad, and every [self.x = ...] is a record update on an
    explicit object state. *)

From Stdlib Require Import ZArith List Lia Bool String Ascii Sorted.
From Stdlib Require Import Strings.Byte.
From Stdlib Require Import DecimalString DecimalN.
From stdpp Require Import base gmap strings list.
From Equations Require Import Equations.
Import ListNotations.

Local Open Scope Z_scope.

(* ===================================================================== *)
(** ** Byte strings *)
(* ===================================================================== *)

Abbreviation bytes := (list byte).

Definition byte_Z (b : byte) : Z := Z.of_N (Byte.to_N b).

Definition byte_of_Z (z : Z) : byte :=
  match Byte.of_N (Z.to_N (z mod 256)) with
  | Some b => b
  | None => x00
  end.

(** [bs[-n:]] for [n > 0]: the last [n] bytes, or all of [bs] when it is
    shorter. *)
Definition lastn {A} (n : nat) (l : list A) : list A :=
  skipn (length l - n)%nat l.

(** [prefix] is an initial segment of [bs] ([bytes.startswith]). *)
Fixpoint starts_with (prefix bs : bytes) : bool :=
  match prefix, bs with
  | [], _ => true
  | _ :: _, [] => false
  | p :: ps, b :: bs' => Byte.eqb p b && starts_with ps bs'
  end.

(** Ascending byte order, the order of Python's [bytes] comparison and of
    the keys of the store. *)
Fixpoint bytes_compare (a b : bytes) : comparison :=
  match a, b with
  | [], [] => Eq
  | [], _ :: _ => Lt
  | _ :: _, [] => Gt
  | x :: a', y :: b' =>
      match Z.compare (byte_Z x) (byte_Z y) with
      | Eq => bytes_compare a' b'
      | c => c
      end
  end.

Definition bytes_lt (a b : bytes) : Prop := bytes_compare a b = Lt.

Definition bytes_eqb (a b : bytes) : bool :=
  match bytes_compare a b with Eq => true | _ => false end.

(** Big-endian and little-endian readings of a byte string
    ([int.from_bytes]). *)
Fixpoint be_decode (bs : bytes) : Z :=
  match bs with
  | [] => 0
  | b :: r => byte_Z b * 256 ^ Z.of_nat (length r) + be_decode r
  end.

Fixpoint le_decode (bs : bytes) : Z :=
  match bs with
  | [] => 0
  | b :: r => byte_Z b + 256 * le_decode r
  end.

Fixpoint le_encode (n : nat) (z : Z) : bytes :=
  match n with
  | O => []
  | S n' => byte_of_Z z :: le_encode n' (z / 256)
  end.

Definition be_encode (n : nat) (z : Z) : bytes := rev (le_encode n z).

(* ===================================================================== *)
(** ** Exceptions *)
(* ===================================================================== *)

(** The exceptions the code can raise: the two of the [DB] class and the
    built-in ones ([struct.error] is [StructError]). [LiteralError] stands
    for whatever [bytes.decode] and [ast.literal_eval] raise on a record
    they cannot read. *)
Inductive exn : Set :=
| DBError
| MissingUTXOError
| KeyError
| TypeError
| ValueError
| IndexError
| AssertionError
| StructError
| FileNotFoundError
| OSError
| LiteralError.

Inductive result (A : Type) : Type :=
| Ok (a : A)
| Raise (e : exn).
Arguments Ok {A} a.
Arguments Raise {A} e.

#[global] Instance result_ret : MRet result := fun _ a => Ok a.

#[global] Instance result_bind : MBind result := fun _ _ k r =>
  match r with
  | Ok a => k a
  | Raise e => Raise e
  end.

(** One step of a computation that is known to return. *)
Ltac step_ok :=
  match goal with
  | |- match ?r with Ok _ => _ | Raise _ => _ end = Ok _ -> _ =>
      let E := fresh "E" in destruct r eqn:E; [|discriminate]
  end.

(** [assert c]. *)
Definition py_assert (c : bool) : result unit :=
  if c then Ok tt else Raise AssertionError.

(** [struct.pack] and [struct.unpack] for the formats the class uses. *)
Definition pack_le (n : nat) (z : Z) : result bytes :=
  if (0 <=? z) && (z <? 256 ^ Z.of_nat n)
  then Ok (le_encode n z) else Raise StructError.

Definition pack_be (n : nat) (z : Z) : result bytes :=
  if (0 <=? z) && (z <? 256 ^ Z.of_nat n)
  then Ok (be_encode n z) else Raise StructError.

Definition unpack_le (n : nat) (bs : bytes) : result Z :=
  if Nat.eqb (length bs) n then Ok (le_decode bs) else Raise StructError.

Definition unpack_be (n : nat) (bs : bytes) : result Z :=
  if Nat.eqb (length bs) n then Ok (be_decode bs) else Raise StructError.

(* ===================================================================== *)
(** ** The key-value store *)
(* ===================================================================== *)

(** Modelled from the spec: the storage backend ([server/storage.py],
    [open_db]) is an external collaborator. Its contract is [get],
    [put], [iterator(prefix)] in ascending byte order of the keys, and a
    write batch of puts and deletes committed when its scope exits
    normally. The store is the list of its (key, value) pairs, which [put]
    keeps in ascending key order. *)
Definition store := list (bytes * bytes).

Definition db_keys (s : store) : list bytes := map fst s.

Fixpoint db_get (s : store) (k : bytes) : option bytes :=
  match s with
  | [] => None
  | (k', v) :: s' => if bytes_eqb k' k then Some v else db_get s' k
  end.

Fixpoint db_put (s : store) (k v : bytes) : store :=
  match s with
  | [] => [(k, v)]
  | (k', v') :: s' =>
      match bytes_compare k k' with
      | Lt => (k, v) :: (k', v') :: s'
      | Eq => (k, v) :: s'
      | Gt => (k', v') :: db_put s' k v
      end
  end.

Fixpoint db_delete (s : store) (k : bytes) : store :=
  match s with
  | [] => []
  | (k', v) :: s' =>
      if bytes_eqb k' k then db_delete s' k else (k', v) :: db_delete s' k
  end.

Fixpoint iterator (s : store) (prefix : bytes) : list (bytes * bytes) :=
  match s with
  | [] => []
  | (k, v) :: s' =>
      if starts_with prefix k then (k, v) :: iterator s' prefix
      else iterator s' prefix
  end.

(** The store lists its keys in strictly ascending byte order. *)
Definition store_sorted (s : store) : Prop :=
  StronglySorted bytes_lt (db_keys s).

(* ===================================================================== *)
(** ** Python values of the chain state record *)
(* ===================================================================== *)

(** The scalar values a state record holds, and what [ast.literal_eval]
    can return for it: a scalar or a [dict] from strings to scalars.
    Floats and nested containers are left out of the model. *)
Inductive pyval : Type :=
| PyNone
| PyBool (b : bool)
| PyInt (z : Z)
| PyStr (s : string)
| PyBytes (b : bytes).

Inductive pyobj : Type :=
| PyScalar (v : pyval)
| PyDict (d : gmap string pyval).

(** [bool] is a subclass of [int]: both compare as numbers. *)
Definition py_num (v : pyval) : option Z :=
  match v with
  | PyBool b => Some (if b then 1 else 0)
  | PyInt z => Some z
  | _ => None
  end.

(** [a == b]. *)
Definition py_eq (a b : pyval) : bool :=
  match a, b with
  | PyNone, PyNone => true
  | PyStr s, PyStr t => String.eqb s t
  | PyBytes s, PyBytes t => bytes_eqb s t
  | _, _ =>
      match py_num a, py_num b with
      | Some x, Some y => x =? y
      | _, _ => false
      end
  end.

(** [a < b]: defined on two numbers, two strings or two byte strings, a
    [TypeError] otherwise. *)
Definition py_lt (a b : pyval) : result bool :=
  match a, b with
  | PyStr s, PyStr t => Ok (String.ltb s t)
  | PyBytes s, PyBytes t =>
      Ok (match bytes_compare s t with Lt => true | _ => false end)
  | _, _ =>
      match py_num a, py_num b with
      | Some x, Some y => Ok (x <? y)
      | _, _ => Raise TypeError
      end
  end.

(** [state[key]] on a dict. *)
Definition getitem (d : gmap string pyval) (key : string) : result pyval :=
  match d !! key with
  | Some v => Ok v
  | None => Raise KeyError
  end.

(** [x in xs] on a list of integers. *)
Definition py_in (v : pyval) (xs : list Z) : bool :=
  existsb (fun x => py_eq v (PyInt x)) xs.

(* ===================================================================== *)
(** ** The object state *)
(* ===================================================================== *)

(** The coin parameters and the environment the class reads
    ([lib/coins.py], [server/env.py]). *)
Record Coin : Type := {
  GENESIS_HASH : pyval;
  HEADER_LEN : Z;
}.

Record Env : Type := {
  coin : Coin;
  reorg_limit : Z;
}.

Definition DB_VERSIONS : list Z := [3].

(** The attributes of a [DB] object, with the two flat files it keeps
    open and the [hashesNNNN] files of its directory. [headers] and
    [tx_hashes] are the pending blocks the block processor keeps on the
    same object. *)
Record DB : Type := mkDB {
  env : Env;
  db : store;
  db_height : Z;
  db_tx_count : Z;
  db_tip : bytes;
  db_version : Z;
  flush_count : Z;
  utxo_flush_count : Z;
  wall_time : Z;
  first_sync : bool;
  tx_counts : list Z;
  headers_file : bytes;
  txcount_file : bytes;
  hash_files : gmap string bytes;
  headers : list bytes;
  tx_hashes : list (list bytes);
}.

Definition set_db (st : DB) (s : store) : DB :=
  mkDB (env st) s (db_height st) (db_tx_count st) (db_tip st)
    (db_version st) (flush_count st) (utxo_flush_count st) (wall_time st)
    (first_sync st) (tx_counts st) (headers_file st) (txcount_file st)
    (hash_files st) (headers st) (tx_hashes st).

Definition set_utxo_flush_count (st : DB) (n : Z) : DB :=
  mkDB (env st) (db st) (db_height st) (db_tx_count st) (db_tip st)
    (db_version st) (flush_count st) n (wall_time st)
    (first_sync st) (tx_counts st) (headers_file st) (txcount_file st)
    (hash_files st) (headers st) (tx_hashes st).

Definition set_files (st : DB) (hf tf : bytes) (hs : gmap string bytes)
  : DB :=
  mkDB (env st) (db st) (db_height st) (db_tx_count st) (db_tip st)
    (db_version st) (flush_count st) (utxo_flush_count st) (wall_time st)
    (first_sync st) (tx_counts st) hf tf hs (headers st) (tx_hashes st).

(** What [read_state] leaves in the attributes: Python values, of
    whatever type the stored record gave them. *)
Record StateAttrs : Type := mkAttrs {
  a_db_height : pyval;
  a_db_tx_count : pyval;
  a_db_tip : pyval;
  a_db_version : pyval;
  a_flush_count : pyval;
  a_utxo_flush_count : pyval;
  a_wall_time : pyval;
  a_first_sync : pyval;
}.

Definition state_key : bytes :=
  Eval cbv in list_byte_of_string "state".

Section ChainState.

(** [ast.literal_eval(state.decode())] and [repr(state).encode()] are
    the Python runtime's. *)
Variable literal_eval : bytes -> result pyobj.
Variable repr_encode : pyobj -> bytes.

Definition read_state (c : Coin) (is_new : bool) (s : store)
  : result StateAttrs :=
  attrs ←
    (if is_new then
       Ok (mkAttrs (PyInt (-1)) (PyInt 0) (PyBytes (repeat x00 32))
             (PyInt (fold_right Z.max (hd 0 DB_VERSIONS) DB_VERSIONS))
             (PyInt 0) (PyInt 0) (PyInt 0) (PyBool true))
     else
       state ←
         match db_get s state_key with
         | Some (b :: bs) => literal_eval (b :: bs)
         | Some [] => Ok (PyScalar (PyBytes []))
         | None => Ok (PyScalar PyNone)
         end;
       match state with
       | PyScalar _ => Raise DBError
       | PyDict state =>
           version ← getitem state "db_version";
           if negb (py_in version DB_VERSIONS) then Raise DBError
           else
             genesis ← getitem state "genesis";
             if negb (py_eq genesis (GENESIS_HASH c)) then
               _ ← getitem state "genesis_hash"; Raise DBError
             else
               height ← getitem state "height";
               tx_count ← getitem state "tx_count";
               tip ← getitem state "tip";
               fc ← getitem state "flush_count";
               ufc ← getitem state "utxo_flush_count";
               wt ← getitem state "wall_time";
               fs ← getitem state "first_sync";
               Ok (mkAttrs height tx_count tip version fc ufc wt fs)
       end);
  corrupt ← py_lt (a_flush_count attrs) (a_utxo_flush_count attrs);
  if (corrupt : bool) then Raise DBError else Ok attrs.

(** The record [write_state] serialises. *)
Definition state_dict (st : DB) : gmap string pyval :=
  list_to_map
    [ ("genesis"%string, GENESIS_HASH (coin (env st)));
      ("height"%string, PyInt (db_height st));
      ("tx_count"%string, PyInt (db_tx_count st));
      ("tip"%string, PyBytes (db_tip st));
      ("flush_count"%string, PyInt (flush_count st));
      ("utxo_flush_count"%string, PyInt (utxo_flush_count st));
      ("wall_time"%string, PyInt (wall_time st));
      ("first_sync"%string, PyBool (first_sync st));
      ("db_version"%string, PyInt (db_version st)) ].

(** [write_state(batch)]: one [put] into the batch. *)
Definition write_state (st : DB) (batch : store) : store :=
  db_put batch state_key (repr_encode (PyDict (state_dict st))).

End ChainState.

(* ===================================================================== *)
(** ** Recovery: [clean_db] *)
(* ===================================================================== *)

Definition history_prefix : bytes := [x48].   (* b'H' *)
Definition undo_prefix : bytes := [x55].      (* b'U' *)
Definition hashX_prefix : bytes := [x68].     (* b'h' *)
Definition utxo_prefix : bytes := [x75].      (* b'u' *)

(** The loop of [excess_history_keys] over the iterator's items; [keys]
    is the list collected so far. *)
Fixpoint excess_history_loop (ufc : Z) (items : list (bytes * bytes))
    (keys : list bytes) : result (list bytes) :=
  match items with
  | [] => Ok keys
  | (key, _) :: rest =>
      flush_id ← unpack_be 2 (lastn 2 key);
      excess_history_loop ufc rest
        (if flush_id >? ufc then keys ++ [key] else keys)
  end.

(** [excess_history_keys()]: the flush ids are compared with the
    [utxo_flush_count] of the object at the time of the call. *)
Definition excess_history_keys (st : DB) : result (list bytes) :=
  excess_history_loop (utxo_flush_count st)
    (iterator (db st) history_prefix) [].

(** The loop of [stale_undo_keys], which stops at the first key above the
    cutoff. *)
Fixpoint stale_undo_loop (cutoff : Z) (items : list (bytes * bytes))
    (keys : list bytes) : result (list bytes) :=
  match items with
  | [] => Ok keys
  | (key, _) :: rest =>
      height ← unpack_be 4 (lastn 4 key);
      if height >? cutoff then Ok keys
      else stale_undo_loop cutoff rest (keys ++ [key])
  end.

Definition stale_undo_keys (st : DB) : result (list bytes) :=
  let cutoff := db_height st - reorg_limit (env st) in
  stale_undo_loop cutoff (iterator (db st) undo_prefix) [].

(** [b'U' + pack('>I', height)]. *)
Definition undo_key (height : Z) : result bytes :=
  h ← pack_be 4 height; Ok (undo_prefix ++ h).

(** The deletes of a write batch, in order. *)
Definition batch_delete (batch : store) (keys : list bytes) : store :=
  fold_left db_delete keys batch.

Section Recovery.

Variable repr_encode : pyobj -> bytes.

(** [clean_db()]: the keys to delete are collected, then deleted in one
    write batch together with the write of the state. *)
Definition clean_db (st : DB) : result DB :=
  '(st, history_keys) ←
    (if flush_count st >? utxo_flush_count st then
       let st := set_utxo_flush_count st (flush_count st) in
       history_keys ← excess_history_keys st;
       Ok (st, history_keys)
     else Ok (st, []));
  undo_keys ← stale_undo_keys st;
  let batch := batch_delete (db st) history_keys in
  let batch := batch_delete batch undo_keys in
  Ok (set_db st (write_state repr_encode st batch)).

End Recovery.

(* ===================================================================== *)
(** ** The flat files *)
(* ===================================================================== *)

Definition len {A} (l : list A) : Z := Z.of_nat (length l).

(** [f.seek(pos)]: a negative position is refused. *)
Definition file_seek (pos : Z) : result nat :=
  if pos <? 0 then Raise OSError else Ok (Z.to_nat pos).

(** [f.read(n)] at position [pos]: at most [n] bytes, fewer at the end of
    the file, all the rest when [n] is negative. *)
Definition file_read (f : bytes) (pos : nat) (n : Z) : bytes :=
  if n <? 0 then skipn pos f else firstn (Z.to_nat n) (skipn pos f).

(** [f.write(data)] at position [pos]: the file is overwritten from [pos]
    on and grows as needed, a gap after its end reading as zeros. Nothing
    is written for empty [data]: the file is then as it was, also when
    [pos] is past its end. *)
Definition file_write (f : bytes) (pos : nat) (data : bytes) : bytes :=
  match data with
  | [] => f
  | _ :: _ =>
      firstn pos (f ++ repeat x00 (pos - length f)) ++ data
        ++ skipn (pos + length data) f
  end.

(** [open_file(filename, create)] on the [hashesNNNN] files: the file's
    content, and the directory with the file created empty when it was
    missing and [create] is set. *)
Definition open_file (files : gmap string bytes) (filename : string)
    (create : bool) : result (bytes * gmap string bytes) :=
  match files !! filename with
  | Some f => Ok (f, files)
  | None =>
      if create then Ok ([], <[filename := []]> files)
      else Raise FileNotFoundError
  end.

Definition tx_hash_file_size : Z := 16 * 1024 * 1024.

Fixpoint zeros (n : nat) (s : string) : string :=
  match n with
  | O => s
  | S n' => String "0" (zeros n' s)
  end.

(** Left padding with zeros up to [width] characters. *)
Definition zfill (width : nat) (s : string) : string :=
  zeros (width - String.length s) s.

(** ['{:04d}'.format(z)]: the sign counts in the width. *)
Definition format_04d (z : Z) : string :=
  let digits := NilZero.string_of_uint (N.to_uint (Z.to_N (Z.abs z))) in
  if z <? 0 then String "-" (zfill 3 digits) else zfill 4 digits.

Definition hashes_filename (file_num : Z) : string :=
  String.append "hashes" (format_04d file_num).

(** [bisect.bisect_right(a, x)]: the binary search of the standard
    library, on the whole of [a]. *)
Equations? bisect_loop (a : list Z) (x : Z) (lo hi : nat) : nat
    by wf (hi - lo)%nat lt :=
  bisect_loop a x lo hi with (lt_dec lo hi) := {
    | left _ =>
        let mid := ((lo + hi) / 2)%nat in
        if x <? nth mid a 0 then bisect_loop a x lo mid
        else bisect_loop a x (S mid) hi
    | right _ => lo
  }.
Proof.
  all: clear bisect_loop; change (fst (Nat.divmod (lo + hi) 1 0 1))
         with ((lo + hi) / 2)%nat in mid; subst mid;
    pose proof (Nat.div_mod_eq (lo + hi) 2) as Hd;
    pose proof (Nat.mod_upper_bound (lo + hi) 2 ltac:(lia)); lia.
Defined.

Definition bisect_right (a : list Z) (x : Z) : Z :=
  Z.of_nat (bisect_loop a x 0 (length a)).

(** [a[i]] for [i >= 0]. *)
Definition py_index (a : list Z) (i : Z) : result Z :=
  match nth_error a (Z.to_nat i) with
  | Some v => Ok v
  | None => Raise IndexError
  end.

(** [a[i:]]. *)
Definition py_slice_from {A} (a : list A) (i : Z) : list A :=
  if 0 <=? i then skipn (Z.to_nat i) a else lastn (Z.to_nat (- i)) a.

(** [a[i:j]] for [0 <= i <= j]. *)
Definition py_slice {A} (a : list A) (i j : Z) : list A :=
  firstn (Z.to_nat j - Z.to_nat i) (skipn (Z.to_nat i) a).

(** The bytes of an [array.array('I')]: four bytes per item, in the
    host's byte order (little-endian here). *)
Definition array_tobytes (a : list Z) : bytes :=
  concat (map (le_encode 4) a).

(** The [while cursor < len(hashes)] loop of [fs_update]: each round
    writes what fits in the current [hashesNNNN] file. *)
Equations? write_hashes (files : gmap string bytes) (hashes : bytes)
    (cursor file_pos : Z) : result (gmap string bytes)
    by wf (Z.to_nat (len hashes - cursor)) lt :=
  write_hashes files hashes cursor file_pos
    with (Z_lt_dec cursor (len hashes)) := {
    | left _ =>
        let file_num := file_pos / tx_hash_file_size in
        let offset := file_pos mod tx_hash_file_size in
        let size :=
          Z.min (len hashes - cursor) (tx_hash_file_size - offset) in
        let filename := hashes_filename file_num in
        match open_file files filename true with
        | Raise e => Raise e
        | Ok (f, files) =>
            match file_seek offset with
            | Raise e => Raise e
            | Ok pos =>
                let f :=
                  file_write f pos (py_slice hashes cursor (cursor + size)) in
                write_hashes (<[filename := f]> files) hashes
                  (cursor + size) (file_pos + size)
            end
        end
    | right _ => Ok files
  }.
Proof.
  clear write_hashes.
  assert (0 <= offset < tx_hash_file_size)
    by (apply Z.mod_pos_bound; reflexivity).
  lia.
Defined.

(** [fs_update(fs_height, headers, block_tx_hashes)]. The files are
    written in the order of the code; an exception loses the object. *)
Definition fs_update (st : DB) (fs_height : Z) (headers_arg : list bytes)
    (block_tx_hashes : list (list bytes)) : result DB :=
  let blocks_done := len (headers st) in
  let new_height := fs_height + blocks_done in
  prior_tx_count ←
    (if 0 <=? fs_height then py_index (tx_counts st) fs_height else Ok 0);
  let cur_tx_count := List.last (tx_counts st) 0 in
  let txs_done := cur_tx_count - prior_tx_count in
  _ ← py_assert (len (tx_hashes st) =? blocks_done);
  _ ← py_assert (len (tx_counts st) =? new_height + 1);
  (* First the headers *)
  pos ← file_seek ((fs_height + 1) * HEADER_LEN (coin (env st)));
  let hf := file_write (headers_file st) pos (concat headers_arg) in
  (* Then the tx counts *)
  pos ← file_seek ((fs_height + 1) * 4);
  let tf :=
    file_write (txcount_file st) pos
      (array_tobytes (py_slice_from (tx_counts st) (fs_height + 1))) in
  (* Finally the hashes *)
  let hashes := concat (concat block_tx_hashes) in
  _ ← py_assert (len hashes mod 32 =? 0);
  _ ← py_assert (len hashes / 32 =? txs_done);
  files ← write_hashes (hash_files st) hashes 0 (prior_tx_count * 32);
  Ok (set_files st hf tf files).

(** [read_headers(start, count)]: [count] headers from the height
    [start], read from the headers file, or the [DBError] of a range that
    is not on disk. *)
Definition read_headers (st : DB) (start count : Z) : result bytes :=
  let disk_count := Z.min count (db_height st + 1 - start) in
  if (start <? 0) || (count <? 0) || negb (disk_count =? count) then
    Raise DBError
  else if negb (disk_count =? 0) then
    let header_len := HEADER_LEN (coin (env st)) in
    pos ← file_seek (start * header_len);
    Ok (file_read (headers_file st) pos (disk_count * header_len))
  else Ok [].

(** [fs_tx_hash(tx_num)]: the pair (tx_hash, tx_height), the hash [None]
    when the height is not on disk. *)
Definition fs_tx_hash (st : DB) (tx_num : Z) : result (option bytes * Z) :=
  let tx_height := bisect_right (tx_counts st) tx_num in
  if tx_height >? db_height st then Ok (None, tx_height)
  else
    let file_pos := tx_num * 32 in
    let file_num := file_pos / tx_hash_file_size in
    let offset := file_pos mod tx_hash_file_size in
    let filename := hashes_filename file_num in
    '(f, _) ← open_file (hash_files st) filename false;
    pos ← file_seek offset;
    Ok (Some (file_read f pos 32), tx_height).

(* ===================================================================== *)
(** ** Queries *)
(* ===================================================================== *)

(** A generator run to its end: what it yielded, and how it stopped. *)
Inductive gen_end : Set :=
| GenDone
| GenRaise (e : exn).

Definition gen (A : Type) : Type := (list A * gen_end)%type.

(** [_resolve_limit(limit)]. *)
Definition resolve_limit (limit : option Z) : result Z :=
  match limit with
  | None => Ok (-1)
  | Some l => _ ← py_assert (0 <=? l); Ok l
  end.

(** [array.array('I').frombytes(hist)]: four bytes per item, a
    [ValueError] when the length is not a multiple of four. *)
Fixpoint array_frombytes (bs : bytes) : result (list Z) :=
  match bs with
  | [] => Ok []
  | b0 :: b1 :: b2 :: b3 :: rest =>
      a ← array_frombytes rest; Ok (le_decode [b0; b1; b2; b3] :: a)
  | _ => Raise ValueError
  end.

(** The inner loop of [get_history] over the tx numbers of one key;
    [next] continues with the following key. *)
Fixpoint history_txs (st : DB) (tx_nums : list Z) (limit : Z)
    (next : Z -> gen (option bytes * Z)) : gen (option bytes * Z) :=
  match tx_nums with
  | [] => next limit
  | tx_num :: rest =>
      if limit =? 0 then ([], GenDone)
      else
        match fs_tx_hash st tx_num with
        | Raise e => ([], GenRaise e)
        | Ok item =>
            let '(items, e) := history_txs st rest (limit - 1) next in
            (item :: items, e)
        end
  end.

Fixpoint history_loop (st : DB) (entries : list (bytes * bytes))
    (limit : Z) : gen (option bytes * Z) :=
  match entries with
  | [] => ([], GenDone)
  | (_, hist) :: rest =>
      match array_frombytes hist with
      | Raise e => ([], GenRaise e)
      | Ok a => history_txs st a limit (fun limit => history_loop st rest limit)
      end
  end.

(** [get_history(hash168, limit)], run to its end. *)
Definition get_history (st : DB) (hash168 : bytes) (limit : option Z)
    : gen (option bytes * Z) :=
  match resolve_limit limit with
  | Raise e => ([], GenRaise e)
  | Ok limit =>
      history_loop st (iterator (db st) (history_prefix ++ hash168)) limit
  end.

(** [hash == tx_hash], where [hash] may be [None]. *)
Definition hash_eq (hash : option bytes) (tx_hash : bytes) : bool :=
  match hash with
  | Some h => bytes_eqb h tx_hash
  | None => false
  end.

(** The loop of [db_hash168]. The pair it returns has both components
    [None] or neither: [None] here is [(None, None)]. *)
Fixpoint db_hash168_loop (st : DB) (tx_hash : bytes)
    (items : list (bytes * bytes)) : result (option (bytes * bytes)) :=
  match items with
  | [] => Ok None
  | (db_key, hash168) :: rest =>
      _ ← py_assert (length hash168 =? 21)%nat;
      let tx_num_packed := lastn 4 db_key in
      tx_num ← unpack_le 4 tx_num_packed;
      '(hash, _) ← fs_tx_hash st tx_num;
      if hash_eq hash tx_hash then Ok (Some (hash168, tx_num_packed))
      else db_hash168_loop st tx_hash rest
  end.

(** The prefix [db_hash168] scans:
    [b'h' + tx_hash[:4] + idx_packed]. *)
Definition hashX_scan (tx_hash idx_packed : bytes) : bytes :=
  hashX_prefix ++ firstn 4 tx_hash ++ idx_packed.

Definition db_hash168 (st : DB) (tx_hash idx_packed : bytes)
    : result (option (bytes * bytes)) :=
  db_hash168_loop st tx_hash
    (iterator (db st) (hashX_scan tx_hash idx_packed)).

(** [get_utxo_hash168], with the prefixes it has the store scan. *)
Definition get_utxo_hash168_io (st : DB) (tx_hash : bytes) (index : Z)
    : result (option bytes) * list bytes :=
  if (0 <=? index) && (index <=? 65535) then
    match pack_le 2 index with
    | Raise e => (Raise e, [])
    | Ok idx_packed =>
        let r := db_hash168 st tx_hash idx_packed in
        (match r with
         | Ok r => Ok (option_map fst r)
         | Raise e => Raise e
         end,
         [hashX_scan tx_hash idx_packed])
    end
  else (Ok None, []).

Definition get_utxo_hash168 (st : DB) (tx_hash : bytes) (index : Z)
    : result (option bytes) :=
  fst (get_utxo_hash168_io st tx_hash index).

(** [db_utxo_lookup(tx_hash, tx_idx)]. [not hash168] holds of [None] and
    of the empty byte string, [not db_value] likewise. *)
Definition db_utxo_lookup (st : DB) (tx_hash : bytes) (tx_idx : Z)
    : result (bytes * Z) :=
  idx_packed ← pack_le 2 tx_idx;
  r ← db_hash168 st tx_hash idx_packed;
  match r with
  | None | Some ([], _) => Raise MissingUTXOError
  | Some (hash168, tx_num_packed) =>
      let key := utxo_prefix ++ hash168 ++ idx_packed ++ tx_num_packed in
      match db_get (db st) key with
      | None | Some [] => Raise DBError
      | Some db_value =>
          value ← unpack_le 8 db_value; Ok (hash168, value)
      end
  end.

(* ===================================================================== *)
(** ** The key layout *)
(* ===================================================================== *)

(** An undo key is [b'U'] and four bytes of big-endian height; a history
    key is [b'H'], the 21 bytes of a hash168 and two bytes of big-endian
    flush id. *)
Definition is_undo_key (k : bytes) : Prop :=
  starts_with undo_prefix k = true /\ length k = 5%nat.

Definition undo_height (k : bytes) : Z := be_decode (lastn 4 k).

Definition is_history_key (k : bytes) : Prop :=
  starts_with history_prefix k = true /\ length k = 24%nat.

Definition flush_id (k : bytes) : Z := be_decode (lastn 2 k).

(** Every key of the undo and history tables has the length of its
    layout. *)
Definition key_layout (s : store) : Prop :=
  forall k, In k (db_keys s) ->
    (starts_with undo_prefix k = true -> length k = 5%nat) /\
    (starts_with history_prefix k = true -> length k = 24%nat).

(** The object as [clean_db] leaves it, but for the store. *)
Definition recovered (st : DB) : DB :=
  if flush_count st >? utxo_flush_count st
  then set_utxo_flush_count st (flush_count st) else st.

(* ===================================================================== *)
(** ** The headers on disk *)
(* ===================================================================== *)

Definition set_db_height (st : DB) (h : Z) : DB :=
  mkDB (env st) (db st) h (db_tx_count st) (db_tip st)
    (db_version st) (flush_count st) (utxo_flush_count st) (wall_time st)
    (first_sync st) (tx_counts st) (headers_file st) (txcount_file st)
    (hash_files st) (headers st) (tx_hashes st).

(** The record of height [h] in the headers file: the [HEADER_LEN] bytes
    at offset [h * HEADER_LEN]. *)
Definition header_at (st : DB) (h : Z) : bytes :=
  let header_len := HEADER_LEN (coin (env st)) in
  firstn (Z.to_nat header_len)
    (skipn (Z.to_nat (h * header_len)) (headers_file st)).

(** [count] consecutive heights from [start]. *)
Definition heights (start count : Z) : list Z :=
  map (fun i => start + Z.of_nat i) (seq 0 (Z.to_nat count)).

(** [db_height] is the height on disk: the headers file holds a record
    for each height up to it. *)
Definition headers_on_disk (st : DB) : Prop :=
  (db_height st + 1) * HEADER_LEN (coin (env st)) <= len (headers_file st).

(** The runs of the writer that build the headers file: from an empty
    file, each [fs_update] is called with the height already on disk and
    appends the headers of the next heights; [hs] lists the headers
    appended so far, the header of height [h] at position [h]. Between
    the calls the block processor sets attributes of the object and
    leaves the files alone. *)
Inductive appended : DB -> list bytes -> Prop :=
| appended_empty (st : DB) :
    headers_file st = [] -> appended st []
| appended_update (st st' : DB) (hs new_headers : list bytes)
    (block_tx_hashes : list (list bytes)) :
    appended st hs ->
    fs_update st (len hs - 1) new_headers block_tx_hashes = Ok st' ->
    appended st' (hs ++ new_headers)
| appended_attrs (st st' : DB) (hs : list bytes) :
    appended st hs ->
    env st' = env st -> headers_file st' = headers_file st ->
    appended st' hs.

(* ===================================================================== *)
(** ** Transaction numbers and heights *)
(* ===================================================================== *)

Definition nondecreasing (a : list Z) : Prop :=
  forall i, (S i < length a)%nat -> nth i a 0 <= nth (S i) a 0.

(** [tx_counts[h]], with [tx_counts[-1]] taken as 0. *)
Definition tx_count_at (st : DB) (h : Z) : Z :=
  if h <? 0 then 0 else nth (Z.to_nat h) (tx_counts st) 0.

(** The [hashesNNNN] file that holds the hash of [tx_num]. *)
Definition shard_of (tx_num : Z) : string :=
  hashes_filename (tx_num * 32 / tx_hash_file_size).

(** What [fs_tx_hash] returns for a transaction that is not on disk. *)
Definition placeholder (st : DB) (tx_num : Z) : option bytes * Z :=
  (None, bisect_right (tx_counts st) tx_num).

(** The tx numbers of the history entries, in the order of the keys. *)
Fixpoint history_tx_nums (entries : list (bytes * bytes))
    : result (list Z) :=
  match entries with
  | [] => Ok []
  | (_, hist) :: rest =>
      a ← array_frombytes hist;
      r ← history_tx_nums rest;
      Ok (a ++ r)
  end.

(** [fs_tx_hash] returns on [tx_num]; it returns [item]. *)
Definition resolves (st : DB) (tx_num : Z) : Prop :=
  exists item, fs_tx_hash st tx_num = Ok item.

Definition resolved (st : DB) (tx_num : Z) (item : option bytes * Z)
    : Prop :=
  fs_tx_hash st tx_num = Ok item.

(** The first [limit] items, all of them when [limit] is negative. *)
Definition take_limit {A} (limit : Z) (l : list A) : list A :=
  if limit <? 0 then l else firstn (Z.to_nat limit) l.

(* ===================================================================== *)
(** ** Owner-lookup candidates *)
(* ===================================================================== *)

(** The keys of the owner-lookup table for one output, as the layout of
    the table has them: [b'h'], the first four bytes of the transaction
    hash, the packed output index, then the packed tx number. *)
Definition is_owner_key (tx_hash idx_packed k : bytes) : Prop :=
  exists tx_num_packed,
    k = x68 :: firstn 4 tx_hash ++ idx_packed ++ tx_num_packed.

(** The full transaction hash a candidate key resolves to: that of the
    tx number in its last four bytes, [None] when it is not on disk. *)
Definition candidate_hash (st : DB) (db_key : bytes)
    : result (option bytes) :=
  tx_num ← unpack_le 4 (lastn 4 db_key);
  '(hash, _) ← fs_tx_hash st tx_num;
  Ok hash.

(** A candidate as the writer stores it: a hash168 of 21 bytes under a
    key whose transaction resolves. *)
Definition candidate_ok (st : DB) (kv : bytes * bytes) : Prop :=
  length (snd kv) = 21%nat /\ exists h, candidate_hash st (fst kv) = Ok h.

(* ===================================================================== *)
(** ** Stored state records *)
(* ===================================================================== *)

(** The store holds a non-empty state record. *)
Definition stored_record (s : store) (record : bytes) : Prop :=
  db_get s state_key = Some record /\ record <> [].

(** The seven fields read after the version and the genesis hash. *)
Definition loaded_fields : list string :=
  ["height"; "tx_count"; "tip"; "flush_count"; "utxo_flush_count";
   "wall_time"; "first_sync"]%string.

(* ===================================================================== *)
(** ** Sample databases *)
(* ===================================================================== *)

Definition sample_env : Env :=
  {| coin := {| GENESIS_HASH := PyStr "genesis"; HEADER_LEN := 2 |};
     reorg_limit := 2 |}.

Definition sample_addr : bytes := repeat x01 21.

(** History keys of one address for the flush batches 1 and 2. *)
Definition history_key_1 : bytes := x48 :: sample_addr ++ [x00; x01].
Definition history_key_2 : bytes := x48 :: sample_addr ++ [x00; x02].

(** Two flush batches of history were written and only the first UTXO
    flush completed; undo information is kept for the heights 3 and 5 of
    a chain at height 6. *)
Definition unclean_db : DB :=
  {| env := sample_env;
     db := [ (history_key_1, [x00; x00; x00; x00]);
             (history_key_2, [x01; x00; x00; x00]);
             ([x55; x00; x00; x00; x03], [xaa]);
             ([x55; x00; x00; x00; x05], [xbb]) ];
     db_height := 6; db_tx_count := 2; db_tip := repeat x00 32;
     db_version := 3; flush_count := 2; utxo_flush_count := 1;
     wall_time := 0; first_sync := true;
     tx_counts := [1; 1; 1; 1; 1; 1; 2];
     headers_file := []; txcount_file := []; hash_files := ∅;
     headers := []; tx_hashes := [] |}.

(** A new database, and the same with two blocks pending: their
    headers, the cumulative tx counts and one transaction hash each. *)
Definition header_0 : bytes := [x0a; x0b].
Definition header_1 : bytes := [x1a; x1b].
Definition tx_hash_0 : bytes := repeat x11 32.
Definition tx_hash_1 : bytes := repeat x22 32.

Definition new_db : DB :=
  {| env := sample_env; db := [];
     db_height := -1; db_tx_count := 0; db_tip := repeat x00 32;
     db_version := 3; flush_count := 0; utxo_flush_count := 0;
     wall_time := 0; first_sync := true;
     tx_counts := [];
     headers_file := []; txcount_file := []; hash_files := ∅;
     headers := []; tx_hashes := [] |}.

Definition pending_db : DB :=
  {| env := sample_env; db := [];
     db_height := -1; db_tx_count := 0; db_tip := repeat x00 32;
     db_version := 3; flush_count := 0; utxo_flush_count := 0;
     wall_time := 0; first_sync := true;
     tx_counts := [1; 2];
     headers_file := []; txcount_file := []; hash_files := ∅;
     headers := [header_0; header_1];
     tx_hashes := [[tx_hash_0]; [tx_hash_1]] |}.

(** The object after the two pending blocks were written out. *)
Definition written_db : DB :=
  Eval vm_compute in
    match fs_update pending_db (-1) [header_0; header_1]
            [[tx_hash_0]; [tx_hash_1]] with
    | Ok st' => st'
    | Raise _ => pending_db
    end.

(** The two blocks on disk and recorded in the state. *)
Definition flushed_db : DB :=
  {| env := sample_env; db := [];
     db_height := 1; db_tx_count := 2; db_tip := repeat x00 32;
     db_version := 3; flush_count := 1; utxo_flush_count := 1;
     wall_time := 0; first_sync := true;
     tx_counts := [1; 2];
     headers_file := headers_file written_db;
     txcount_file := txcount_file written_db;
     hash_files := hash_files written_db;
     headers := []; tx_hashes := [] |}.

(** The same state with the [hashes0000] file lost. *)
Definition lost_shard_db : DB :=
  {| env := sample_env; db := [];
     db_height := 1; db_tx_count := 2; db_tip := repeat x00 32;
     db_version := 3; flush_count := 1; utxo_flush_count := 1;
     wall_time := 0; first_sync := true;
     tx_counts := [1; 2];
     headers_file := headers_file written_db;
     txcount_file := txcount_file written_db;
     hash_files := ∅;
     headers := []; tx_hashes := [] |}.

(** A history ahead of the files: two blocks with two transactions are
    on disk, and the address has the transaction 1 and the transactions
    2 and 3 of a third block, which [tx_counts] already counts. *)
Definition ahead_db : DB :=
  {| env := sample_env;
     db := [ (history_key_1, [x01; x00; x00; x00; x02; x00; x00; x00;
                              x03; x00; x00; x00]) ];
     db_height := 1; db_tx_count := 2; db_tip := repeat x00 32;
     db_version := 3; flush_count := 1; utxo_flush_count := 1;
     wall_time := 0; first_sync := true;
     tx_counts := [1; 2; 4];
     headers_file := headers_file written_db;
     txcount_file := txcount_file written_db;
     hash_files := hash_files written_db;
     headers := []; tx_hashes := [] |}.

(** Two transactions whose hashes share their first four bytes, each
    with its output 0 unspent: the two owner-lookup keys differ in the tx
    number only. The second output has its value record, the first has
    lost it. *)
Definition tx_hash_a : bytes := repeat x33 4 ++ repeat x0a 28.
Definition tx_hash_b : bytes := repeat x33 4 ++ repeat x0b 28.
Definition addr_a : bytes := repeat x01 21.
Definition addr_b : bytes := repeat x02 21.
Definition owner_key_a : bytes :=
  x68 :: repeat x33 4 ++ [x00; x00] ++ [x00; x00; x00; x00].
Definition owner_key_b : bytes :=
  x68 :: repeat x33 4 ++ [x00; x00] ++ [x01; x00; x00; x00].
Definition value_key_b : bytes :=
  x75 :: addr_b ++ [x00; x00] ++ [x01; x00; x00; x00].

Definition owner_db : DB :=
  {| env := sample_env;
     db := [ (owner_key_a, addr_a);
             (owner_key_b, addr_b);
             (value_key_b, [x10; x27; x00; x00; x00; x00; x00; x00]) ];
     db_height := 1; db_tx_count := 2; db_tip := repeat x00 32;
     db_version := 3; flush_count := 1; utxo_flush_count := 1;
     wall_time := 0; first_sync := true;
     tx_counts := [1; 2];
     headers_file := []; txcount_file := [];
     hash_files := {[ hashes_filename 0 := tx_hash_a ++ tx_hash_b ]};
     headers := []; tx_hashes := [] |}.

(** A store with a state record, and readers of it that give the record
    of [flushed_db], the same without its wall time, the same with the
    flush count as a string, and the same with the genesis hash of
    another chain. *)
Definition state_store : store := [(state_key, [x7b; x7d])].

Definition reads_as (o : pyobj) : bytes -> result pyobj := fun _ => Ok o.

Definition good_record : gmap string pyval := state_dict flushed_db.

Definition short_record : gmap string pyval :=
  delete "wall_time"%string good_record.

Definition mistyped_record : gmap string pyval :=
  <["flush_count"%string := PyStr "1"]> good_record.

Definition foreign_record : gmap string pyval :=
  <["genesis"%string := PyStr "another chain"]> good_record.

(** The two blocks on disk and a third one pending, with the
    transactions 2 and 3. *)
Definition header_2 : bytes := [x2a; x2b].

Definition next_block_db : DB :=
  {| env := sample_env; db := [];
     db_height := 1; db_tx_count := 2; db_tip := repeat x00 32;
     db_version := 3; flush_count := 1; utxo_flush_count := 1;
     wall_time := 0; first_sync := true;
     tx_counts := [1; 2; 4];
     headers_file := headers_file written_db;
     txcount_file := txcount_file written_db;
     hash_files := hash_files written_db;
     headers := [header_2];
     tx_hashes := [[tx_hash_a; tx_hash_b]] |}.

(** The same after the third block is written to the files, and an
    object on these files at the height 2. *)
Definition third_block_written : DB :=
  Eval vm_compute in
    match fs_update next_block_db 1 [header_2] [[tx_hash_a; tx_hash_b]] with
    | Ok st' => st'
    | Raise _ => next_block_db
    end.

Definition third_block_db : DB := set_db_height third_block_written 2.

(** An address with two unspent outputs, of 5000 and of 10000. *)
Definition wallet_db : DB :=
  {| env := sample_env;
     db := [ (x75 :: addr_a ++ [x00; x00] ++ [x00; x00; x00; x00],
              [x88; x13; x00; x00; x00; x00; x00; x00]);
             (x75 :: addr_a ++ [x01; x00] ++ [x01; x00; x00; x00],
              [x10; x27; x00; x00; x00; x00; x00; x00]) ];
     db_height := 1; db_tx_count := 2; db_tip := repeat x00 32;
     db_version := 3; flush_count := 1; utxo_flush_count := 1;
     wall_time := 0; first_sync := true;
     tx_counts := [1; 2];
     headers_file := []; txcount_file := [];
     hash_files := {[ hashes_filename 0 := tx_hash_a ++ tx_hash_b ]};
     headers := []; tx_hashes := [] |}.

(* ===================================================================== *)
(** ** Undo information, UTXOs and block hashes *)
(* ===================================================================== *)

Definition set_tx_counts (st : DB) (a : list Z) : DB :=
  mkDB (env st) (db st) (db_height st) (db_tx_count st) (db_tip st)
    (db_version st) (flush_count st) (utxo_flush_count st) (wall_time st)
    (first_sync st) a (headers_file st) (txcount_file st)
    (hash_files st) (headers st) (tx_hashes st).

(** [write_undo_info(height, undo_info)]: a [put] outside any batch. *)
Definition write_undo_info (st : DB) (height : Z) (undo_info : bytes)
    : result DB :=
  key ← undo_key height;
  Ok (set_db st (db_put (db st) key undo_info)).

(** [read_undo_info(height)]. *)
Definition read_undo_info (st : DB) (height : Z) : result (option bytes) :=
  key ← undo_key height;
  Ok (db_get (db st) key).

(** The [UTXO] named tuple. *)
Record UTXO : Type := mkUTXO {
  utxo_tx_num : Z;
  utxo_tx_pos : Z;
  utxo_tx_hash : option bytes;
  utxo_height : Z;
  utxo_value : Z;
}.

(** [unpack('<HI', bs)]: two and four bytes, no padding. *)
Definition unpack_HI (bs : bytes) : result (Z * Z) :=
  if Nat.eqb (length bs) 6
  then Ok (le_decode (firstn 2 bs), le_decode (skipn 2 bs))
  else Raise StructError.

(** The loop of [get_utxos] over the entries of the address. *)
Fixpoint utxos_loop (st : DB) (items : list (bytes * bytes)) (limit : Z)
    : gen UTXO :=
  match items with
  | [] => ([], GenDone)
  | (db_key, db_value) :: rest =>
      if limit =? 0 then ([], GenDone)
      else
        match unpack_HI (lastn 6 db_key) with
        | Raise e => ([], GenRaise e)
        | Ok (tx_pos, tx_num) =>
            match unpack_le 8 db_value with
            | Raise e => ([], GenRaise e)
            | Ok value =>
                match fs_tx_hash st tx_num with
                | Raise e => ([], GenRaise e)
                | Ok (tx_hash, height) =>
                    let '(utxos, e) := utxos_loop st rest (limit - 1) in
                    (mkUTXO tx_num tx_pos tx_hash height value :: utxos, e)
                end
            end
        end
  end.

(** [get_utxos(hash168, limit)], run to its end. *)
Definition get_utxos (st : DB) (hash168 : bytes) (limit : option Z)
    : gen UTXO :=
  match resolve_limit limit with
  | Raise e => ([], GenRaise e)
  | Ok limit =>
      utxos_loop st (iterator (db st) (utxo_prefix ++ hash168)) limit
  end.

(** What the loop of [get_utxos] makes of one entry. *)
Definition utxo_of (st : DB) (u : UTXO) (kv : bytes * bytes) : Prop :=
  utxo_tx_num u = le_decode (lastn 4 (fst kv)) /\
  utxo_tx_pos u = le_decode (firstn 2 (lastn 6 (fst kv))) /\
  utxo_value u = le_decode (snd kv) /\
  fs_tx_hash st (utxo_tx_num u) = Ok (utxo_tx_hash u, utxo_height u).

(** [get_balance(hash168)]: the sum over the generator, or the exception
    that ends it. *)
Definition get_balance (st : DB) (hash168 : bytes) : result Z :=
  match get_utxos st hash168 None with
  | (utxos, GenDone) => Ok (fold_left Z.add (map utxo_value utxos) 0)
  | (_, GenRaise e) => Raise e
  end.

(** The start indices [range(0, n, size)] of [chunks] for [n >= 0] and
    [size > 0]. *)
Definition chunk_starts (n size : Z) : list Z :=
  map (fun k => Z.of_nat k * size)
    (seq 0 (Z.to_nat ((n + size - 1) / size))).

(** [chunks(items, size)] of [lib/util.py], run to its end: [range]
    refuses a step of zero. *)
Definition chunks {A} (items : list A) (size : Z) : result (list (list A)) :=
  if size =? 0 then Raise ValueError
  else if size <? 0 then Ok []
  else
    Ok (map (fun i => py_slice items i (i + size))
          (chunk_starts (len items) size)).

(** [fs_block_hashes(height, count)]; [header_hash] is the coin's. *)
Definition fs_block_hashes (header_hash : bytes -> bytes) (st : DB)
    (height count : Z) : result (list bytes) :=
  hs ← read_headers st height count;
  let hlen := HEADER_LEN (coin (env st)) in
  cs ← chunks hs hlen;
  Ok (map header_hash cs).

(** [array.array('I').fromfile(f, n)] on a file at position 0: the items
    read, and how the call ended. A file that ends early still gives the
    items it holds, with an [EOFError]. *)
Inductive fromfile_end : Set :=
| FromfileDone
| FromfileEOF
| FromfileRaise (e : exn).

Definition array_fromfile (f : bytes) (n : Z) : list Z * fromfile_end :=
  if n <? 0 then ([], FromfileRaise ValueError)
  else
    let b := file_read f 0 (n * 4) in
    match array_frombytes b with
    | Raise e => ([], FromfileRaise e)
    | Ok a =>
        if len b =? n * 4 then (a, FromfileDone) else (a, FromfileEOF)
    end.

(** The lines of [__init__] that load [tx_counts] from the [txcount]
    file: the object with its counts, or [None] for the exception that
    ends the constructor ([EOFError], [ValueError] or the failed
    assertion on the tx count). *)
Definition load_tx_counts (st : DB) : option DB :=
  match array_fromfile (txcount_file st) (db_height st + 1) with
  | (a, FromfileDone) =>
      if db_tx_count st =? List.last a 0 then Some (set_tx_counts st a)
      else None
  | _ => None
  end.

(* ===================================================================== *)
(** ** [lib/util.py] *)
(* ===================================================================== *)

Definition decimal (n : Z) : string :=
  NilZero.string_of_uint (N.to_uint (Z.to_N n)).

(** ['{:d}'.format(z)] and ['{:02d}'.format(z)]. *)
Definition format_d (z : Z) : string :=
  if z <? 0 then String "-" (decimal (Z.abs z)) else decimal z.

Definition format_02d (z : Z) : string :=
  if z <? 0 then String "-" (zfill 1 (decimal (Z.abs z)))
  else zfill 2 (decimal z).

(** The four numbers [formatted_time] prints. *)
Definition time_fields (t : Z) : Z * Z * Z * Z :=
  (t / 86400, t mod 86400 / 3600, t mod 3600 / 60, t mod 60).

(** [formatted_time(t)] on an integer number of seconds. *)
Definition formatted_time (t : Z) : string :=
  let '(d, h, m, s) := time_fields t in
  String.append (format_d d)
    (String.append "d "
       (String.append (format_02d h)
          (String.append "h "
             (String.append (format_02d m)
                (String.append "m "
                   (String.append (format_02d s) "s")))))).

(** [bytes_to_int(be_bytes)]. *)
Definition bytes_to_int (be_bytes : bytes) : Z := be_decode be_bytes.

(** [value.bit_length()]. *)
Definition bit_length (value : Z) : Z :=
  if value =? 0 then 0 else Z.log2 (Z.abs value) + 1.

(** [int_to_bytes(value)]: [to_bytes] refuses a negative number with an
    [OverflowError], which is [None] here. *)
Definition int_to_bytes (value : Z) : option bytes :=
  if value <? 0 then None
  else Some (be_encode (Z.to_nat ((bit_length value + 7) / 8)) value).

(** The loop of [increment_byte_string] from the index [i - 1] down: the
    bytes, and whether one was incremented. *)
Fixpoint increment_loop (i : nat) (bs : bytes) : bytes * bool :=
  match i with
  | O => (bs, false)
  | S j =>
      match bs !! j with
      | Some b =>
          if byte_Z b <? 255
          then (<[j := byte_of_Z (byte_Z b + 1)]> bs, true)
          else increment_loop j (<[j := x00]> bs)
      | None => (bs, false)
      end
  end.

Definition increment_byte_string (bs : bytes) : bytes :=
  let '(bs', incremented) := increment_loop (length bs) bs in
  if incremented then bs' else x01 :: bs'.

(* ===================================================================== *)
(** ** The hashes files as one sequence of bytes *)
(* ===================================================================== *)

(** The byte at position [p] of the transaction hashes: the [hashesNNNN]
    file and the offset in it are those [fs_update] and [fs_tx_hash]
    compute. *)
Definition hash_byte (files : gmap string bytes) (p : Z) : option byte :=
  match files !! hashes_filename (p / tx_hash_file_size) with
  | Some f => f !! Z.to_nat (p mod tx_hash_file_size)
  | None => None
  end.

(** The number a string of digits stands for. *)
Definition parse_decimal (s : string) : option N :=
  option_map N.of_uint (NilEmpty.uint_of_string s).

(* ===================================================================== *)
(** * Properties *)
(* ===================================================================== *)

(** ** Bytes and their order *)

Lemma byte_Z_range (b : byte) : 0 <= byte_Z b < 256.
Proof.
  unfold byte_Z. pose proof (Byte.to_N_bounded b). lia.
Qed.

Lemma byte_Z_inj (a b : byte) : byte_Z a = byte_Z b -> a = b.
Proof.
  unfold byte_Z. intros H. apply N2Z.inj in H.
  pose proof (Byte.of_to_N a) as Ha. rewrite H, Byte.of_to_N in Ha.
  congruence.
Qed.

Lemma byte_Z_of_Z (z : Z) : byte_Z (byte_of_Z z) = z mod 256.
Proof.
  unfold byte_Z, byte_of_Z.
  pose proof (Z.mod_pos_bound z 256 ltac:(lia)) as Hr.
  destruct (Byte.of_N (Z.to_N (z mod 256))) as [b|] eqn:E.
  - apply Byte.to_of_N in E. rewrite E. lia.
  - apply Byte.of_N_None_iff in E. lia.
Qed.

Lemma bytes_compare_eq (a b : bytes) : bytes_compare a b = Eq <-> a = b.
Proof.
  revert b. induction a as [|x a IH]; intros [|y b]; simpl;
    try (split; [discriminate | discriminate]); try tauto.
  destruct (Z.compare_spec (byte_Z x) (byte_Z y)) as [E|L|L].
  - apply byte_Z_inj in E. subst y. rewrite IH.
    split; [intros ->; reflexivity | intros [= ->]; reflexivity].
  - split; [discriminate | intros [= -> _]; lia].
  - split; [discriminate | intros [= -> _]; lia].
Qed.

Lemma bytes_eqb_eq (a b : bytes) : bytes_eqb a b = true <-> a = b.
Proof.
  unfold bytes_eqb. rewrite <- bytes_compare_eq.
  destruct (bytes_compare a b); split; congruence.
Qed.

Lemma bytes_eqb_refl (a : bytes) : bytes_eqb a a = true.
Proof. apply bytes_eqb_eq. reflexivity. Qed.

Lemma bytes_eqb_neq (a b : bytes) : bytes_eqb a b = false <-> a <> b.
Proof.
  rewrite <- bytes_eqb_eq. destruct (bytes_eqb a b); split; congruence.
Qed.

Lemma bytes_lt_irrefl (a : bytes) : ~ bytes_lt a a.
Proof.
  unfold bytes_lt. intros H.
  assert (bytes_compare a a = Eq) by (apply bytes_compare_eq; reflexivity).
  congruence.
Qed.

Lemma be_decode_range (bs : bytes) :
  0 <= be_decode bs < 256 ^ Z.of_nat (length bs).
Proof.
  induction bs as [|b r IH]; simpl be_decode; simpl length.
  - simpl. lia.
  - rewrite Nat2Z.inj_succ, Z.pow_succ_r by lia.
    pose proof (byte_Z_range b). nia.
Qed.

Lemma le_decode_range (bs : bytes) :
  0 <= le_decode bs < 256 ^ Z.of_nat (length bs).
Proof.
  induction bs as [|b r IH]; simpl le_decode; simpl length.
  - simpl. lia.
  - rewrite Nat2Z.inj_succ, Z.pow_succ_r by lia.
    pose proof (byte_Z_range b). nia.
Qed.

Lemma length_le_encode (n : nat) (z : Z) : length (le_encode n z) = n.
Proof. revert z. induction n; intros z; simpl; [|rewrite IHn]; reflexivity. Qed.

Lemma le_decode_encode (n : nat) (z : Z) :
  le_decode (le_encode n z) = z mod 256 ^ Z.of_nat n.
Proof.
  revert z. induction n as [|n IH]; intros z.
  - simpl. rewrite Z.mod_1_r. reflexivity.
  - cbn [le_encode le_decode]. rewrite IH, byte_Z_of_Z.
    rewrite Nat2Z.inj_succ, Z.pow_succ_r by lia.
    rewrite Z.rem_mul_r by lia. reflexivity.
Qed.

(** On byte strings of one length the byte order is the order of the
    big-endian numbers. *)
Lemma bytes_lt_be_decode (a b : bytes) :
  length a = length b -> bytes_lt a b -> be_decode a < be_decode b.
Proof.
  unfold bytes_lt. revert b.
  induction a as [|x a IH]; intros [|y b] Hlen; simpl in *; try discriminate.
  injection Hlen as Hlen.
  destruct (Z.compare_spec (byte_Z x) (byte_Z y)) as [E|L|L];
    try discriminate; intros Hc.
  - rewrite E, Hlen. specialize (IH b Hlen Hc). lia.
  - rewrite Hlen.
    pose proof (be_decode_range a) as Ha. pose proof (be_decode_range b) as Hb.
    rewrite Hlen in Ha. nia.
Qed.

Lemma starts_with_cons (p : byte) (k : bytes) :
  starts_with [p] k = true <-> exists r, k = p :: r.
Proof.
  destruct k as [|b r]; simpl.
  - split; [discriminate | intros [r Hr]; discriminate].
  - rewrite andb_true_r. split.
    + intros H. apply Byte.byte_dec_bl in H. subst. eauto.
    + intros [r' [= -> _]]. apply Byte.byte_dec_lb. reflexivity.
Qed.

Lemma starts_with_app (p r : bytes) : starts_with p (p ++ r) = true.
Proof.
  induction p as [|b p IH]; [reflexivity|].
  simpl. rewrite IH, andb_true_r. apply Byte.byte_dec_lb. reflexivity.
Qed.

Lemma starts_with_split (p k : bytes) :
  starts_with p k = true -> exists r, k = p ++ r.
Proof.
  revert k. induction p as [|b p IH]; intros k H.
  - exists k. reflexivity.
  - destruct k as [|c k]; [discriminate|]. simpl in H.
    apply andb_true_iff in H. destruct H as [Hb Hp].
    apply Byte.byte_dec_bl in Hb. subst c.
    destruct (IH k Hp) as [r ->]. exists r. reflexivity.
Qed.

Lemma length_lastn {A} (n : nat) (l : list A) :
  (n <= length l)%nat -> length (lastn n l) = n.
Proof. intros H. unfold lastn. rewrite length_skipn. lia. Qed.

Lemma lastn_cons {A} (n : nat) (x : A) (l : list A) :
  (n <= length l)%nat -> lastn n (x :: l) = lastn n l.
Proof.
  intros H. unfold lastn. simpl length.
  replace (S (length l) - n)%nat with (S (length l - n)) by lia.
  reflexivity.
Qed.

Lemma lastn_all {A} (l : list A) : lastn (length l) l = l.
Proof. unfold lastn. rewrite Nat.sub_diag. reflexivity. Qed.

Lemma be_decode_app (a b : bytes) :
  be_decode (a ++ b)
  = be_decode a * 256 ^ Z.of_nat (length b) + be_decode b.
Proof.
  induction a as [|x a IH]; [simpl; lia|].
  cbn [app be_decode]. rewrite IH, length_app, Nat2Z.inj_add.
  rewrite Z.pow_add_r by lia. ring.
Qed.

Lemma be_decode_rev (bs : bytes) : be_decode (rev bs) = le_decode bs.
Proof.
  induction bs as [|b bs IH]; [reflexivity|].
  cbn [rev le_decode]. rewrite be_decode_app, IH. simpl. lia.
Qed.

(** The key [undo_key] builds for a height of four bytes follows the
    layout and carries the height. *)
Lemma undo_key_layout (height : Z) :
  0 <= height < 2 ^ 32 ->
  exists k, undo_key height = Ok k /\ is_undo_key k /\
            undo_height k = height.
Proof.
  intros Hh. unfold undo_key, pack_be.
  replace (0 <=? height) with true by (symmetry; apply Z.leb_le; lia).
  replace (height <? 256 ^ Z.of_nat 4) with true
    by (symmetry; apply Z.ltb_lt; simpl; lia).
  eexists. split; [reflexivity|].
  assert (Hlen : length (be_encode 4 height) = 4%nat)
    by (unfold be_encode; rewrite length_rev; apply length_le_encode).
  split; [split; [reflexivity | rewrite length_app, Hlen; reflexivity]|].
  unfold undo_height, undo_prefix. cbn [app].
  rewrite lastn_cons by lia. rewrite <- Hlen at 1. rewrite lastn_all.
  unfold be_encode. rewrite be_decode_rev, le_decode_encode.
  apply Z.mod_small. simpl. lia.
Qed.

(** ** The store *)

Lemma db_get_delete (s : store) (k' k : bytes) :
  db_get (db_delete s k') k = if bytes_eqb k' k then None else db_get s k.
Proof.
  induction s as [|[k0 v0] s IH]; simpl.
  - destruct (bytes_eqb k' k); reflexivity.
  - destruct (bytes_eqb k0 k') eqn:E0.
    + apply bytes_eqb_eq in E0. subst k0. rewrite IH.
      destruct (bytes_eqb k' k); reflexivity.
    + simpl. destruct (bytes_eqb k0 k) eqn:E1; [|exact IH].
      apply bytes_eqb_eq in E1. subst k0. rewrite bytes_eqb_neq in E0.
      destruct (bytes_eqb k' k) eqn:E2; [|reflexivity].
      apply bytes_eqb_eq in E2. congruence.
Qed.

Lemma db_get_batch_delete_none (ks : list bytes) (s : store) (k : bytes) :
  db_get s k = None -> db_get (batch_delete s ks) k = None.
Proof.
  unfold batch_delete. revert s.
  induction ks as [|k0 ks IH]; intros s H; [exact H|].
  simpl. apply IH. rewrite db_get_delete, H.
  destruct (bytes_eqb k0 k); reflexivity.
Qed.

Lemma db_get_batch_delete_in (ks : list bytes) (s : store) (k : bytes) :
  In k ks -> db_get (batch_delete s ks) k = None.
Proof.
  revert s. induction ks as [|k0 ks IH]; intros s Hin; [destruct Hin|].
  destruct Hin as [->|Hin].
  - apply (db_get_batch_delete_none ks (db_delete s k) k).
    rewrite db_get_delete, bytes_eqb_refl. reflexivity.
  - apply (IH (db_delete s k0) Hin).
Qed.

Lemma db_get_batch_delete_notin (ks : list bytes) (s : store) (k : bytes) :
  ~ In k ks -> db_get (batch_delete s ks) k = db_get s k.
Proof.
  unfold batch_delete. revert s.
  induction ks as [|k0 ks IH]; intros s Hin; [reflexivity|].
  simpl. rewrite IH by (intros H; apply Hin; right; exact H).
  rewrite db_get_delete.
  destruct (bytes_eqb k0 k) eqn:E; [|reflexivity].
  apply bytes_eqb_eq in E. subst. exfalso. apply Hin. left. reflexivity.
Qed.

Lemma db_get_put_eq (s : store) (k v : bytes) :
  db_get (db_put s k v) k = Some v.
Proof.
  induction s as [|[k0 v0] s IH]; simpl.
  - rewrite bytes_eqb_refl. reflexivity.
  - destruct (bytes_compare k k0) eqn:E; simpl;
      rewrite ?bytes_eqb_refl; try reflexivity.
    destruct (bytes_eqb k0 k) eqn:E1; [|exact IH].
    apply bytes_eqb_eq in E1. subst k0.
    exfalso. apply (bytes_lt_irrefl k).
    assert (bytes_compare k k = Eq) by (apply bytes_compare_eq; reflexivity).
    congruence.
Qed.

Lemma db_get_put_ne (s : store) (k' v k : bytes) :
  k <> k' -> db_get (db_put s k' v) k = db_get s k.
Proof.
  intros Hne. assert (Hf : bytes_eqb k' k = false)
    by (apply bytes_eqb_neq; congruence).
  induction s as [|[k0 v0] s IH]; simpl.
  - rewrite Hf. reflexivity.
  - destruct (bytes_compare k' k0) eqn:E; simpl; rewrite ?Hf.
    + apply bytes_compare_eq in E. subst k0. rewrite Hf. reflexivity.
    + reflexivity.
    + rewrite IH. reflexivity.
Qed.

Lemma db_get_Some_In (s : store) (k v : bytes) :
  db_get s k = Some v -> In (k, v) s.
Proof.
  induction s as [|[k0 v0] s IH]; simpl; [discriminate|].
  destruct (bytes_eqb k0 k) eqn:E.
  - apply bytes_eqb_eq in E. intros [= ->]. subst. left. reflexivity.
  - intros H. right. apply IH, H.
Qed.

Lemma db_get_In_keys (s : store) (k v : bytes) :
  db_get s k = Some v -> In k (db_keys s).
Proof.
  intros H. apply db_get_Some_In in H. unfold db_keys.
  apply in_map_iff. exists (k, v). split; [reflexivity | exact H].
Qed.

Lemma iterator_In (s : store) (p : bytes) (kv : bytes * bytes) :
  In kv (iterator s p) <-> In kv s /\ starts_with p (fst kv) = true.
Proof.
  induction s as [|[k0 v0] s IH]; simpl; [tauto|].
  destruct (starts_with p k0) eqn:E; simpl; rewrite IH.
  - split.
    + intros [<-|[H1 H2]]; [split; [left; reflexivity | exact E] | tauto].
    + intros [[<-|H1] H2]; [left; reflexivity | right; tauto].
  - split; [tauto|].
    intros [[<-|H1] H2]; [simpl in H2; congruence | tauto].
Qed.

Lemma iterator_keys_incl (s : store) (p k : bytes) :
  In k (map fst (iterator s p)) ->
  In k (db_keys s) /\ starts_with p k = true.
Proof.
  intros H. apply in_map_iff in H. destruct H as [[k' v] [<- H]].
  apply iterator_In in H. destruct H as [H1 H2]. split; [|exact H2].
  apply in_map_iff. exists (k', v). split; [reflexivity | exact H1].
Qed.

Lemma iterator_sorted (s : store) (p : bytes) :
  store_sorted s -> StronglySorted bytes_lt (map fst (iterator s p)).
Proof.
  unfold store_sorted, db_keys.
  induction s as [|[k0 v0] s IH]; simpl; intros Hs; [constructor|].
  apply StronglySorted_inv in Hs. destruct Hs as [Hs Hall].
  destruct (starts_with p k0); [|apply IH, Hs].
  simpl. constructor; [apply IH, Hs|].
  rewrite List.Forall_forall in *. intros k Hk.
  apply Hall. apply iterator_keys_incl in Hk. apply Hk.
Qed.

(** [put] and [delete] keep the keys in ascending order. *)
Lemma bytes_compare_antisym (a b : bytes) :
  bytes_compare b a = CompOpp (bytes_compare a b).
Proof.
  revert b. induction a as [|x a IH]; intros [|y b]; simpl; try reflexivity.
  rewrite (Z.compare_antisym (byte_Z x) (byte_Z y)).
  destruct (byte_Z x ?= byte_Z y); simpl; [apply IH | reflexivity..].
Qed.

Lemma bytes_lt_trans (a b c : bytes) :
  bytes_lt a b -> bytes_lt b c -> bytes_lt a c.
Proof.
  unfold bytes_lt. revert b c.
  induction a as [|x a IH]; intros [|y b] [|z c]; simpl;
    try discriminate; try reflexivity.
  destruct (Z.compare_spec (byte_Z x) (byte_Z y)) as [E1|L1|L1];
    destruct (Z.compare_spec (byte_Z y) (byte_Z z)) as [E2|L2|L2];
    try discriminate; intros H1 H2.
  - replace (byte_Z x ?= byte_Z z) with Eq
      by (symmetry; apply Z.compare_eq_iff; lia).
    exact (IH b c H1 H2).
  - replace (byte_Z x ?= byte_Z z) with Lt
      by (symmetry; apply Z.compare_lt_iff; lia).
    reflexivity.
  - replace (byte_Z x ?= byte_Z z) with Lt
      by (symmetry; apply Z.compare_lt_iff; lia).
    reflexivity.
  - replace (byte_Z x ?= byte_Z z) with Lt
      by (symmetry; apply Z.compare_lt_iff; lia).
    reflexivity.
Qed.

Lemma db_put_keys (s : store) (k v x : bytes) :
  In x (db_keys (db_put s k v)) -> x = k \/ In x (db_keys s).
Proof.
  unfold db_keys. induction s as [|[k0 v0] s IH]; simpl.
  - intros [<-|[]]. left. reflexivity.
  - destruct (bytes_compare k k0) eqn:E; simpl.
    + apply bytes_compare_eq in E. subst k0. tauto.
    + intros [<-|H]; [left; reflexivity | right; exact H].
    + intros [<-|H]; [right; left; reflexivity|].
      destruct (IH H) as [->|Hin]; [left; reflexivity | right; right; exact Hin].
Qed.

Lemma db_put_sorted (s : store) (k v : bytes) :
  store_sorted s -> store_sorted (db_put s k v).
Proof.
  unfold store_sorted.
  induction s as [|[k0 v0] s IH]; simpl; intros Hs.
  - repeat constructor.
  - apply StronglySorted_inv in Hs. destruct Hs as [Hs Hall].
    destruct (bytes_compare k k0) eqn:E; simpl.
    + apply bytes_compare_eq in E. subst k0. constructor; assumption.
    + constructor; [constructor; assumption|].
      constructor; [exact E|].
      eapply List.Forall_impl; [|exact Hall].
      intros x Hx. exact (bytes_lt_trans k k0 x E Hx).
    + constructor; [apply IH, Hs|].
      rewrite List.Forall_forall in *. intros x Hx.
      apply db_put_keys in Hx. destruct Hx as [->|Hx]; [|apply Hall, Hx].
      unfold bytes_lt. rewrite bytes_compare_antisym, E. reflexivity.
Qed.

Lemma db_delete_keys (s : store) (k x : bytes) :
  In x (db_keys (db_delete s k)) -> In x (db_keys s).
Proof.
  unfold db_keys. induction s as [|[k0 v0] s IH]; simpl; [tauto|].
  destruct (bytes_eqb k0 k); simpl; [tauto|].
  intros [<-|H]; [left; reflexivity | right; apply IH, H].
Qed.

Lemma db_delete_sorted (s : store) (k : bytes) :
  store_sorted s -> store_sorted (db_delete s k).
Proof.
  unfold store_sorted.
  induction s as [|[k0 v0] s IH]; simpl; intros Hs; [constructor|].
  apply StronglySorted_inv in Hs. destruct Hs as [Hs Hall].
  destruct (bytes_eqb k0 k); [apply IH, Hs|].
  simpl. constructor; [apply IH, Hs|].
  rewrite List.Forall_forall in *. intros x Hx.
  apply Hall. apply (db_delete_keys s k x Hx).
Qed.

Lemma batch_delete_sorted (keys : list bytes) (s : store) :
  store_sorted s -> store_sorted (batch_delete s keys).
Proof.
  unfold batch_delete. revert s.
  induction keys as [|k keys IH]; intros s Hs; [exact Hs|].
  simpl. apply IH, db_delete_sorted, Hs.
Qed.

(** ** Recovery *)

Lemma undo_key_lt_height (k k' : bytes) :
  is_undo_key k -> is_undo_key k' -> bytes_lt k k' ->
  undo_height k < undo_height k'.
Proof.
  intros [Hp Hl] [Hp' Hl'] Hlt.
  apply starts_with_cons in Hp. destruct Hp as [r ->].
  apply starts_with_cons in Hp'. destruct Hp' as [r' ->].
  simpl in Hl, Hl'. injection Hl as Hl. injection Hl' as Hl'.
  unfold undo_height.
  rewrite !lastn_cons by lia. rewrite <- Hl at 1. rewrite <- Hl' at 1.
  rewrite !lastn_all.
  apply bytes_lt_be_decode; [congruence|].
  unfold bytes_lt in *. simpl in Hlt. rewrite ?Z.compare_refl in Hlt.
  exact Hlt.
Qed.

Lemma stale_undo_loop_spec (cutoff : Z) (items : list (bytes * bytes)) :
  (forall k, In k (map fst items) -> is_undo_key k) ->
  StronglySorted bytes_lt (map fst items) ->
  forall acc, exists ks,
    stale_undo_loop cutoff items acc = Ok (acc ++ ks) /\
    (forall k, In k ks <->
               In k (map fst items) /\ undo_height k <= cutoff).
Proof.
  induction items as [|[k0 v0] items IH]; intros Hwf Hs acc.
  - exists []. rewrite app_nil_r. split; [reflexivity|].
    intros k. simpl. tauto.
  - simpl in Hs. apply StronglySorted_inv in Hs. destruct Hs as [Hs Hall].
    rewrite List.Forall_forall in Hall.
    assert (Hk0 : is_undo_key k0) by (apply Hwf; left; reflexivity).
    assert (Hwf' : forall k, In k (map fst items) -> is_undo_key k)
      by (intros k Hk; apply Hwf; right; exact Hk).
    cbn [stale_undo_loop]. unfold unpack_be.
    rewrite length_lastn by (destruct Hk0 as [_ Hq]; lia).
    cbn [Nat.eqb mbind result_bind]. fold (undo_height k0).
    destruct (Z.gtb_spec (undo_height k0) cutoff) as [E|E].
    + exists []. rewrite app_nil_r. split; [reflexivity|].
      intros k. cbn [map fst In]. split; [intros []|].
      intros [[<-|Hin] Hle]; exfalso; [lia|].
      pose proof (undo_key_lt_height k0 k Hk0 (Hwf' k Hin) (Hall k Hin)).
      lia.
    + destruct (IH Hwf' Hs (acc ++ [k0])) as [ks [Hr Hks]].
      exists (k0 :: ks). rewrite Hr, <- app_assoc. split; [reflexivity|].
      intros k. cbn [map fst In]. rewrite Hks. split.
      * intros [<-|[H1 H2]]; [split; [left; reflexivity | lia] | tauto].
      * intros [[<-|H1] H2]; [left; reflexivity | right; tauto].
Qed.

Lemma excess_history_loop_spec (ufc : Z) (items : list (bytes * bytes)) :
  (forall k, In k (map fst items) -> (2 <= length k)%nat) ->
  forall acc, exists ks,
    excess_history_loop ufc items acc = Ok (acc ++ ks) /\
    (forall k, In k ks <-> In k (map fst items) /\ flush_id k > ufc).
Proof.
  induction items as [|[k0 v0] items IH]; intros Hwf acc.
  - exists []. rewrite app_nil_r. split; [reflexivity|].
    intros k. simpl. tauto.
  - assert (Hwf' : forall k, In k (map fst items) -> (2 <= length k)%nat)
      by (intros k Hk; apply Hwf; right; exact Hk).
    cbn [excess_history_loop]. unfold unpack_be.
    rewrite length_lastn by (apply Hwf; left; reflexivity).
    cbn [Nat.eqb mbind result_bind]. fold (flush_id k0).
    destruct (Z.gtb_spec (flush_id k0) ufc) as [E|E].
    + destruct (IH Hwf' (acc ++ [k0])) as [ks [Hr Hks]].
      exists (k0 :: ks). rewrite Hr, <- app_assoc. split; [reflexivity|].
      intros k. cbn [map fst In]. rewrite Hks. split.
      * intros [<-|[H1 H2]]; [split; [left; reflexivity | lia] | tauto].
      * intros [[<-|H1] H2]; [left; reflexivity | right; tauto].
    + destruct (IH Hwf' acc) as [ks [Hr Hks]].
      exists ks. rewrite Hr. split; [reflexivity|].
      intros k. cbn [map fst In]. rewrite Hks. split; [tauto|].
      intros [[<-|H1] H2]; [lia | tauto].
Qed.

(** What recovery computes on a sorted store that follows the key layout:
    the two lists of keys it deletes. *)
Lemma clean_db_result (repr_encode : pyobj -> bytes) (st : DB) :
  store_sorted (db st) -> key_layout (db st) ->
  exists hks uks,
    clean_db repr_encode st
    = Ok (set_db (recovered st)
            (write_state repr_encode (recovered st)
               (batch_delete (batch_delete (db st) hks) uks))) /\
    (forall k, In k hks <->
       flush_count st > utxo_flush_count st /\
       In k (map fst (iterator (db st) history_prefix)) /\
       flush_id k > flush_count st) /\
    (forall k, In k uks <->
       In k (map fst (iterator (db st) undo_prefix)) /\
       undo_height k <= db_height st - reorg_limit (env st)).
Proof.
  intros Hs Hl.
  assert (Hu : forall k, In k (map fst (iterator (db st) undo_prefix)) ->
                         is_undo_key k).
  { intros k Hk. apply iterator_keys_incl in Hk. destruct Hk as [Hk Hp].
    split; [exact Hp | apply (Hl k Hk), Hp]. }
  assert (Hh : forall k, In k (map fst (iterator (db st) history_prefix)) ->
                         (2 <= length k)%nat).
  { intros k Hk. apply iterator_keys_incl in Hk. destruct Hk as [Hk Hp].
    destruct (Hl k Hk) as [_ H24]. rewrite (H24 Hp). lia. }
  destruct (stale_undo_loop_spec (db_height st - reorg_limit (env st))
              _ Hu (iterator_sorted _ _ Hs) []) as [uks [Hur Huks]].
  unfold clean_db, recovered.
  destruct (Z.gtb_spec (flush_count st) (utxo_flush_count st)) as [E|E].
  - destruct (excess_history_loop_spec (flush_count st) _ Hh [])
      as [hks [Hhr Hhks]].
    exists hks, uks. unfold excess_history_keys, stale_undo_keys.
    cbn. rewrite Hhr. cbn. rewrite Hur. cbn.
    split; [reflexivity|]. split; [|exact Huks].
    intros k. rewrite Hhks. split; [intros []; split; [lia | tauto] | tauto].
  - exists [], uks. unfold stale_undo_keys. cbn. rewrite Hur. cbn.
    split; [reflexivity|]. split; [|exact Huks].
    intros k. split; [intros [] | lia].
Qed.

Lemma db_set_db (st : DB) (s : store) : db (set_db st s) = s.
Proof. reflexivity. Qed.

Lemma db_height_recovered (st : DB) : db_height (recovered st) = db_height st.
Proof. unfold recovered. destruct (_ >? _); reflexivity. Qed.

Lemma utxo_flush_count_recovered (st : DB) :
  utxo_flush_count (recovered st)
  = Z.max (flush_count st) (utxo_flush_count st).
Proof.
  unfold recovered.
  destruct (Z.gtb_spec (flush_count st) (utxo_flush_count st));
    simpl; lia.
Qed.

(** The store after recovery, read at a key other than [b'state']. *)
Lemma clean_db_get (repr_encode : pyobj -> bytes) (st : DB)
    (hks uks : list bytes) (k : bytes) :
  k <> state_key ->
  db_get (db (set_db (recovered st)
                (write_state repr_encode (recovered st)
                   (batch_delete (batch_delete (db st) hks) uks)))) k
  = db_get (batch_delete (batch_delete (db st) hks) uks) k.
Proof.
  intros Hk. rewrite db_set_db. unfold write_state.
  apply db_get_put_ne. exact Hk.
Qed.

(** C3. After recovery no undo key whose height is at most
    [db_height - reorg_limit] is left in the store, and every undo key
    above that cutoff is still there with its value. The store iterates
    in ascending byte order and its undo and history keys follow the key
    layout; recovery then completes. *)
Theorem clean_db_prunes_stale_undo (repr_encode : pyobj -> bytes) (st : DB) :
  store_sorted (db st) -> key_layout (db st) ->
  exists st',
    clean_db repr_encode st = Ok st' /\
    db_height st' = db_height st /\
    forall k, is_undo_key k ->
      (undo_height k <= db_height st - reorg_limit (env st) ->
       db_get (db st') k = None) /\
      (undo_height k > db_height st - reorg_limit (env st) ->
       db_get (db st') k = db_get (db st) k).
Proof.
  intros Hs Hl.
  destruct (clean_db_result repr_encode st Hs Hl)
    as [hks [uks [Hr [Hhks Huks]]]].
  eexists. split; [exact Hr|]. split; [apply db_height_recovered|].
  intros k [Hp Hlen].
  assert (Hstate : k <> state_key).
  { apply starts_with_cons in Hp. destruct Hp as [r ->]. discriminate. }
  assert (Hnh : ~ In k hks).
  { intros Hin. apply Hhks in Hin. destruct Hin as [_ [Hin _]].
    apply iterator_keys_incl in Hin. destruct Hin as [_ Hh].
    apply starts_with_cons in Hp. destruct Hp as [r ->]. discriminate. }
  rewrite clean_db_get by exact Hstate. split; intros Hcut.
  - destruct (db_get (db st) k) as [v|] eqn:Hget.
    + apply db_get_batch_delete_in. apply Huks. split; [|exact Hcut].
      apply in_map_iff. exists (k, v). split; [reflexivity|].
      apply iterator_In. split; [apply db_get_Some_In, Hget | exact Hp].
    + apply db_get_batch_delete_none, db_get_batch_delete_none, Hget.
  - rewrite db_get_batch_delete_notin.
    + apply db_get_batch_delete_notin, Hnh.
    + intros Hin. apply Huks in Hin. lia.
Qed.

Lemma unclean_db_sorted : store_sorted (db unclean_db).
Proof. repeat constructor. Qed.

Lemma unclean_db_layout : key_layout (db unclean_db).
Proof.
  intros k Hk. simpl in Hk.
  repeat (destruct Hk as [<-|Hk]; [split; intros H; (reflexivity || discriminate)|]).
  destruct Hk.
Qed.

Lemma clean_db_prunes_stale_undo_witness :
  exists st',
    clean_db (fun _ => []) unclean_db = Ok st' /\
    db_get (db st') [x55; x00; x00; x00; x03] = None /\
    db_get (db st') [x55; x00; x00; x00; x05] = Some [xbb].
Proof.
  destruct (clean_db_prunes_stale_undo (fun _ => []) unclean_db
              unclean_db_sorted unclean_db_layout)
    as [st' [Hr [_ Hkeys]]].
  exists st'. split; [exact Hr|]. split.
  - apply (Hkeys [x55; x00; x00; x00; x03]);
      [split; reflexivity | vm_compute; discriminate].
  - rewrite (proj2 (Hkeys [x55; x00; x00; x00; x05]
                      (conj eq_refl eq_refl)));
      [reflexivity | vm_compute; reflexivity].
Defined.

(** C1. On the database with [flush_count = 2] and [utxo_flush_count = 1]
    recovery raises [utxo_flush_count] to 2 before it scans the history,
    so the scan compares the flush ids with 2: the key of batch 2 is
    still in the store afterwards, as is the key of batch 1. *)
Theorem clean_db_keeps_excess_history (repr_encode : pyobj -> bytes) :
  exists st',
    clean_db repr_encode unclean_db = Ok st' /\
    utxo_flush_count st' = 2 /\
    flush_id history_key_2 = 2 /\
    db_get (db st') history_key_2 = Some [x01; x00; x00; x00] /\
    db_get (db st') history_key_1 = Some [x00; x00; x00; x00].
Proof.
  eexists. split; [reflexivity|]. repeat split.
Qed.

(** What the scan of [clean_db] deletes in general: the history keys whose
    flush id exceeds [flush_count], never the ones between the last UTXO
    flush and [flush_count]. *)
Lemma clean_db_history_kept (repr_encode : pyobj -> bytes) (st : DB) :
  store_sorted (db st) -> key_layout (db st) ->
  exists st',
    clean_db repr_encode st = Ok st' /\
    utxo_flush_count st' = Z.max (flush_count st) (utxo_flush_count st) /\
    forall k, is_history_key k -> flush_id k <= flush_count st ->
      db_get (db st') k = db_get (db st) k.
Proof.
  intros Hs Hl.
  destruct (clean_db_result repr_encode st Hs Hl)
    as [hks [uks [Hr [Hhks Huks]]]].
  eexists. split; [exact Hr|].
  split; [apply utxo_flush_count_recovered|].
  intros k [Hp Hlen] Hid.
  assert (Hstate : k <> state_key).
  { apply starts_with_cons in Hp. destruct Hp as [r ->]. discriminate. }
  rewrite clean_db_get by exact Hstate.
  rewrite db_get_batch_delete_notin.
  - apply db_get_batch_delete_notin. intros Hin. apply Hhks in Hin. lia.
  - intros Hin. apply Huks in Hin. destruct Hin as [Hin _].
    apply iterator_keys_incl in Hin. destruct Hin as [_ Hu].
    apply starts_with_cons in Hp. destruct Hp as [r ->]. discriminate.
Qed.

(** Recovery leaves the store in ascending key order. *)
Lemma clean_db_sorted (repr_encode : pyobj -> bytes) (st st' : DB) :
  store_sorted (db st) -> clean_db repr_encode st = Ok st' ->
  store_sorted (db st').
Proof.
  intros Hs. unfold clean_db, mbind, result_bind.
  destruct (flush_count st >? utxo_flush_count st).
  - destruct (excess_history_keys _) as [hks|e]; [|discriminate].
    destruct (stale_undo_keys _) as [uks|e]; [|discriminate].
    intros [= <-]. rewrite db_set_db.
    apply db_put_sorted, batch_delete_sorted, batch_delete_sorted, Hs.
  - destruct (stale_undo_keys _) as [uks|e]; [|discriminate].
    intros [= <-]. rewrite db_set_db.
    apply db_put_sorted, batch_delete_sorted.
    exact (batch_delete_sorted [] (db st) Hs).
Qed.

(** ** The headers file *)

Lemma firstn_add {A} (a b : nat) (l : list A) :
  firstn (a + b) l = firstn a l ++ firstn b (skipn a l).
Proof.
  revert l. induction a as [|a IH]; intros l; [reflexivity|].
  destruct l as [|x l]; simpl.
  - rewrite firstn_nil. reflexivity.
  - rewrite IH. reflexivity.
Qed.

(** Reading [c] records from record [s] on gives the records one after
    the other. *)
Lemma read_records {A} (n c s : nat) (f : list A) :
  firstn (c * n) (skipn (s * n) f)
  = concat (map (fun i => firstn n (skipn (i * n) f)) (seq s c)).
Proof.
  revert s. induction c as [|c IH]; intros s; [reflexivity|].
  cbn [seq map concat Nat.mul]. rewrite firstn_add. f_equal.
  rewrite skipn_skipn, <- IH. reflexivity.
Qed.

Lemma length_concat_uniform {A} (n : nat) (hs : list (list A)) :
  List.Forall (fun h => length h = n) hs ->
  length (concat hs) = (length hs * n)%nat.
Proof.
  induction 1 as [|h hs Hh _ IH]; [reflexivity|].
  simpl. rewrite length_app, IH, Hh. reflexivity.
Qed.

Lemma record_of_concat {A} (n : nat) (hs : list (list A)) (i : nat) :
  List.Forall (fun h => length h = n) hs -> (i < length hs)%nat ->
  firstn n (skipn (i * n) (concat hs)) = nth i hs [].
Proof.
  intros Hall. revert i. induction Hall as [|h hs Hh _ IH]; intros i Hi.
  - simpl in Hi. lia.
  - destruct i as [|i]; simpl.
    + rewrite skipn_O, firstn_app, Hh, Nat.sub_diag, firstn_O, app_nil_r.
      rewrite <- Hh. apply firstn_all.
    + rewrite skipn_app, Hh.
      replace (n + i * n - n)%nat with (i * n)%nat by lia.
      rewrite (skipn_all2 h) by lia. simpl.
      apply IH. simpl in Hi. lia.
Qed.

(** A write within the file, or at its end. *)
Lemma file_write_within (f data : bytes) (pos : nat) :
  (pos <= length f)%nat ->
  file_write f pos data
  = firstn pos f ++ data ++ skipn (pos + length data) f.
Proof.
  intros Hpos. unfold file_write. destruct data as [|b data].
  - rewrite Nat.add_0_r. cbn [app]. symmetry. apply firstn_skipn.
  - replace (pos - length f)%nat with 0%nat by lia.
    cbn [repeat]. rewrite app_nil_r. reflexivity.
Qed.

Lemma file_write_append (f data : bytes) :
  file_write f (length f) data = f ++ data.
Proof.
  rewrite file_write_within by lia.
  rewrite firstn_all, skipn_all2 by lia. rewrite app_nil_r. reflexivity.
Qed.

(** What a successful [fs_update] did to the headers file. *)
Lemma fs_update_headers_file (st st' : DB) (fs_height : Z)
    (new_headers : list bytes) (block_tx_hashes : list (list bytes)) :
  fs_update st fs_height new_headers block_tx_hashes = Ok st' ->
  env st' = env st /\
  0 <= (fs_height + 1) * HEADER_LEN (coin (env st)) /\
  headers_file st'
  = file_write (headers_file st)
      (Z.to_nat ((fs_height + 1) * HEADER_LEN (coin (env st))))
      (concat new_headers).
Proof.
  unfold fs_update, file_seek, mbind, result_bind.
  do 3 step_ok.
  destruct (Z.ltb_spec ((fs_height + 1) * HEADER_LEN (coin (env st))) 0);
    [discriminate|].
  repeat step_ok.
  intros [= <-]. simpl. repeat split. assumption.
Qed.

(** The loop over the hashes ends, and [fs_update] returns whenever its
    assertions hold and the height passed is one the counts cover. *)
Lemma write_hashes_ok (files : gmap string bytes) (hashes : bytes)
    (cursor file_pos : Z) :
  exists files', write_hashes files hashes cursor file_pos = Ok files'.
Proof.
  funelim (write_hashes files hashes cursor file_pos);
    [|eexists; reflexivity].
  clear Heq Heqcall. unfold open_file, file_seek.
  pose proof (Z.mod_pos_bound file_pos tx_hash_file_size
                ltac:(reflexivity)) as Hm.
  replace (file_pos mod tx_hash_file_size <? 0) with false
    by (symmetry; apply Z.ltb_ge; lia).
  destruct (files !! _) as [f|]; apply H; exact ([], files).
Qed.

Lemma fs_update_ok (st : DB) (fs_height : Z) (new_headers : list bytes)
    (block_tx_hashes : list (list bytes)) :
  -1 <= fs_height < len (tx_counts st) ->
  0 <= HEADER_LEN (coin (env st)) ->
  len (tx_hashes st) = len (headers st) ->
  len (tx_counts st) = fs_height + len (headers st) + 1 ->
  len (concat (concat block_tx_hashes)) mod 32 = 0 ->
  len (concat (concat block_tx_hashes)) / 32
  = List.last (tx_counts st) 0 - tx_count_at st fs_height ->
  exists st', fs_update st fs_height new_headers block_tx_hashes = Ok st'.
Proof.
  intros Hh Hpos Hth Htc Hmod Hdiv.
  unfold fs_update, py_index, py_assert, file_seek, tx_count_at in *.
  assert (Hprior :
    (if 0 <=? fs_height
     then match nth_error (tx_counts st) (Z.to_nat fs_height) with
          | Some v => Ok v
          | None => Raise IndexError
          end
     else Ok 0)
    = Ok (if fs_height <? 0 then 0
          else nth (Z.to_nat fs_height) (tx_counts st) 0)).
  { destruct (Z.leb_spec 0 fs_height), (Z.ltb_spec fs_height 0);
      try lia; [|reflexivity].
    rewrite (nth_error_nth' (tx_counts st) 0)
      by (unfold len in Hh; lia).
    reflexivity. }
  rewrite Hprior. unfold mbind, result_bind. cbv beta iota.
  rewrite Hth, Htc, !Z.eqb_refl.
  replace ((fs_height + 1) * HEADER_LEN (coin (env st)) <? 0) with false
    by (symmetry; apply Z.ltb_ge; nia).
  replace ((fs_height + 1) * 4 <? 0) with false
    by (symmetry; apply Z.ltb_ge; lia).
  rewrite Hmod, Hdiv, !Z.eqb_refl. cbv beta iota.
  destruct (write_hashes_ok (hash_files st)
              (concat (concat block_tx_hashes)) 0
              ((if fs_height <? 0 then 0
                else nth (Z.to_nat fs_height) (tx_counts st) 0) * 32))
    as [files' ->].
  eexists. reflexivity.
Qed.

(** The headers file of a run is the headers appended, one after the
    other. *)
Lemma appended_headers_file (st : DB) (hs : list bytes) :
  appended st hs ->
  List.Forall (fun h => len h = HEADER_LEN (coin (env st))) hs ->
  headers_file st = concat hs.
Proof.
  induction 1 as [st H0 | st st' hs new bth _ IH Hup | st st' hs _ IH He Hf];
    intros Hall.
  - exact H0.
  - apply fs_update_headers_file in Hup. destruct Hup as [He [Hpos Hw]].
    rewrite He in Hall. apply List.Forall_app in Hall.
    destruct Hall as [Hhs Hnew]. specialize (IH Hhs).
    rewrite Hw, IH, concat_app.
    assert (Hlen : Z.to_nat ((len hs - 1 + 1) * HEADER_LEN (coin (env st)))
                   = length (concat hs)).
    { destruct hs as [|h0 hs']; [reflexivity|].
      assert (Hn : List.Forall
                (fun h => length h
                          = Z.to_nat (HEADER_LEN (coin (env st))))
                (h0 :: hs')).
      { eapply List.Forall_impl; [|exact Hhs].
        intros h Hh. unfold len in Hh. simpl in Hh. lia. }
      rewrite (length_concat_uniform _ _ Hn).
      apply List.Forall_inv in Hhs. unfold len in *. nia. }
    rewrite Hlen. apply file_write_append.
  - rewrite Hf. apply IH. rewrite <- He. exact Hall.
Qed.

(** C2. After the headers of the heights 0 to [db_height] have been
    appended by [fs_update], [read_headers h 1] returns, for each height
    [h] of that range, the very header appended for [h]; it is the record
    of the file at offset [h * HEADER_LEN]. *)
Theorem read_headers_after_fs_update (st : DB) (hs : list bytes) (h : Z) :
  appended st hs ->
  List.Forall (fun hd => len hd = HEADER_LEN (coin (env st))) hs ->
  db_height st = len hs - 1 ->
  0 <= h <= db_height st ->
  read_headers st h 1 = Ok (nth (Z.to_nat h) hs []) /\
  header_at st h = nth (Z.to_nat h) hs [].
Proof.
  intros Hrun Hall Hheight Hh.
  pose proof (appended_headers_file st hs Hrun Hall) as Hfile.
  assert (Hlt : (Z.to_nat h < length hs)%nat) by (unfold len in *; lia).
  assert (Hpos : 0 <= HEADER_LEN (coin (env st))).
  { destruct hs as [|h0 hs']; [simpl in Hlt; lia|].
    apply List.Forall_inv in Hall. unfold len in Hall. lia. }
  assert (Hn : List.Forall
            (fun hd => length hd = Z.to_nat (HEADER_LEN (coin (env st))))
            hs).
  { eapply List.Forall_impl; [|exact Hall].
    intros hd Hhd. unfold len in Hhd. simpl in Hhd. lia. }
  assert (Hrec : header_at st h = nth (Z.to_nat h) hs []).
  { unfold header_at. rewrite Hfile, Z2Nat.inj_mul by lia.
    apply record_of_concat; assumption. }
  split; [|exact Hrec].
  unfold read_headers, file_seek, file_read.
  replace (Z.min 1 (db_height st + 1 - h)) with 1 by lia.
  replace (h <? 0) with false by (symmetry; apply Z.ltb_ge; lia).
  cbn [Z.ltb Z.compare orb negb Z.eqb].
  replace (h * HEADER_LEN (coin (env st)) <? 0) with false
    by (symmetry; apply Z.ltb_ge; nia).
  cbn [mbind result_bind].
  replace (1 * HEADER_LEN (coin (env st)) <? 0) with false
    by (symmetry; apply Z.ltb_ge; lia).
  rewrite Z.mul_1_l. f_equal. exact Hrec.
Qed.

Lemma written_db_appended :
  appended (set_db_height written_db 1) [header_0; header_1].
Proof.
  apply (appended_attrs written_db); [|reflexivity|reflexivity].
  apply (appended_update pending_db written_db [] [header_0; header_1]
           [[tx_hash_0]; [tx_hash_1]]).
  - apply appended_empty. reflexivity.
  - vm_compute. reflexivity.
Qed.

Lemma read_headers_after_fs_update_witness :
  read_headers (set_db_height written_db 1) 1 1 = Ok header_1 /\
  header_at (set_db_height written_db 1) 1 = header_1.
Proof.
  refine (read_headers_after_fs_update (set_db_height written_db 1)
            [header_0; header_1] 1 written_db_appended _ _ _).
  - repeat constructor.
  - reflexivity.
  - simpl. lia.
Defined.

Lemma map_seq_shift {B} (f : nat -> B) (s c : nat) :
  map f (seq s c) = map (fun i => f (s + i)%nat) (seq 0 c).
Proof.
  revert s. induction c as [|c IH]; intros s; [reflexivity|].
  simpl. f_equal; [f_equal; lia|].
  rewrite IH, <- seq_shift, map_map. apply map_ext.
  intros i. f_equal. lia.
Qed.

Lemma heights_length (start count : Z) :
  length (heights start count) = Z.to_nat count.
Proof. unfold heights. rewrite length_map, length_seq. reflexivity. Qed.

(** C6. [read_headers start count] raises the range error exactly when
    [start < 0], [count < 0] or [start + count > db_height + 1]. Otherwise
    it returns the records of the heights [start], [start + 1], ... of
    the headers file, [count] of them in that order; [db_height] being
    the height on disk, these are [count] times [HEADER_LEN] bytes. *)
Theorem read_headers_range (st : DB) (start count : Z) :
  (read_headers st start count = Raise DBError <->
   start < 0 \/ count < 0 \/ start + count > db_height st + 1) /\
  (0 <= HEADER_LEN (coin (env st)) ->
   ~ (start < 0 \/ count < 0 \/ start + count > db_height st + 1) ->
   exists bs,
     read_headers st start count = Ok bs /\
     bs = concat (map (header_at st) (heights start count)) /\
     length (heights start count) = Z.to_nat count /\
     (headers_on_disk st -> len bs = count * HEADER_LEN (coin (env st)))).
Proof.
  unfold read_headers, file_seek, mbind, result_bind.
  destruct (Z.ltb_spec start 0) as [Hs|Hs];
    [split; [split; [lia | reflexivity] | lia]|].
  destruct (Z.ltb_spec count 0) as [Hc|Hc];
    [split; [split; [lia | reflexivity] | lia]|].
  destruct (Z.eqb_spec (Z.min count (db_height st + 1 - start)) count)
    as [Hd|Hd]; cbn [orb negb];
    [|split; [split; [lia | reflexivity] | lia]].
  rewrite Hd. split.
  - split; [|lia].
    destruct (count =? 0); cbn [negb]; [discriminate|].
    destruct (_ <? 0); discriminate.
  - intros Hpos _. unfold headers_on_disk.
    set (n := HEADER_LEN (coin (env st))) in *.
    assert (Hrec : firstn (Z.to_nat (count * n))
                     (skipn (Z.to_nat (start * n)) (headers_file st))
                   = concat (map (header_at st) (heights start count))).
    { rewrite !Z2Nat.inj_mul by lia.
      rewrite read_records, map_seq_shift. unfold heights.
      rewrite map_map. f_equal. apply map_ext. intros i.
      unfold header_at. fold n.
      rewrite Z2Nat.inj_mul, Z2Nat.inj_add, Nat2Z.id by lia.
      reflexivity. }
    assert (Hlen : (db_height st + 1) * n <= len (headers_file st) ->
                   len (firstn (Z.to_nat (count * n))
                          (skipn (Z.to_nat (start * n)) (headers_file st)))
                   = count * n).
    { unfold len in *. rewrite length_firstn, length_skipn. nia. }
    destruct (Z.eqb_spec count 0) as [H0|H0]; cbn [negb].
    + exists []. subst count. split; [reflexivity|].
      split; [reflexivity|]. split; [reflexivity|]. reflexivity.
    + replace (start * n <? 0) with false
        by (symmetry; apply Z.ltb_ge; nia).
      unfold file_read.
      replace (count * n <? 0) with false
        by (symmetry; apply Z.ltb_ge; nia).
      eexists. split; [reflexivity|]. split; [exact Hrec|].
      split; [apply heights_length | exact Hlen].
Qed.

Lemma flushed_db_on_disk : headers_on_disk flushed_db.
Proof. apply Z.leb_le. vm_compute. reflexivity. Qed.

Lemma read_headers_range_witness :
  (read_headers flushed_db 0 2 = Raise DBError <->
   0 < 0 \/ 2 < 0 \/ 0 + 2 > db_height flushed_db + 1) /\
  exists bs,
    read_headers flushed_db 0 2 = Ok bs /\
    bs = concat (map (header_at flushed_db) (heights 0 2)) /\
    length (heights 0 2) = Z.to_nat 2 /\
    len bs = 2 * HEADER_LEN (coin (env flushed_db)).
Proof.
  destruct (read_headers_range flushed_db 0 2) as [Hraise Hread].
  split; [exact Hraise|].
  destruct Hread as [bs [Hr [Hbs [Hn Hlen]]]]; [simpl; lia | simpl; lia |].
  exists bs. split; [exact Hr|]. split; [exact Hbs|].
  split; [exact Hn|]. apply Hlen. exact flushed_db_on_disk.
Defined.

(** ** Bisection *)

Lemma nondecreasing_le (a : list Z) (i j : nat) :
  nondecreasing a -> (i <= j < length a)%nat -> nth i a 0 <= nth j a 0.
Proof.
  intros Ha [Hij Hj]. induction Hij as [|j Hij IH]; [lia|].
  specialize (IH ltac:(lia)). specialize (Ha j Hj). lia.
Qed.

Lemma bisect_loop_spec (a : list Z) (x : Z) (lo hi : nat) :
  nondecreasing a -> (lo <= hi <= length a)%nat ->
  (forall i, (i < lo)%nat -> nth i a 0 <= x) ->
  (forall i, (hi <= i < length a)%nat -> x < nth i a 0) ->
  let r := bisect_loop a x lo hi in
  (lo <= r <= hi)%nat /\
  (forall i, (i < r)%nat -> nth i a 0 <= x) /\
  (forall i, (r <= i < length a)%nat -> x < nth i a 0).
Proof.
  intros Ha. funelim (bisect_loop a x lo hi); intros Hb Hlo Hhi.
  - clear Heq Heqcall.
    pose proof (Nat.div_mod_eq (lo + hi) 2) as Hd.
    pose proof (Nat.mod_upper_bound (lo + hi) 2 ltac:(lia)) as Hm.
    set (mid := ((lo + hi) / 2)%nat) in *.
    destruct (Z.ltb_spec x (nth mid a 0)) as [Hx|Hx].
    + destruct (H Ha) as [Hr [H1 H2]]; [lia | exact Hlo | |].
      * intros i Hi.
        pose proof (nondecreasing_le a mid i Ha ltac:(lia)). lia.
      * split; [lia|]. split; assumption.
    + destruct (H0 Ha) as [Hr [H1 H2]]; [lia | | exact Hhi |].
      * intros i Hi.
        pose proof (nondecreasing_le a i mid Ha ltac:(lia)). lia.
      * split; [lia|]. split; assumption.
  - split; [lia|]. split; [exact Hlo|].
    intros i Hi. apply Hhi. lia.
Qed.

(** [bisect_right a x] is the first index whose entry exceeds [x]. *)
Lemma bisect_right_spec (a : list Z) (x : Z) :
  nondecreasing a ->
  0 <= bisect_right a x <= len a /\
  (forall i, 0 <= i < bisect_right a x -> nth (Z.to_nat i) a 0 <= x) /\
  (forall i, bisect_right a x <= i < len a -> x < nth (Z.to_nat i) a 0).
Proof.
  intros Ha. unfold bisect_right, len.
  destruct (bisect_loop_spec a x 0 (length a) Ha) as [Hr [H1 H2]];
    [lia | intros i Hi; lia | intros i Hi; lia |].
  split; [lia|]. split; intros i Hi; [apply H1 | apply H2]; lia.
Qed.

(** ** Transaction numbers *)

Lemma last_nth {A} (l : list A) (d : A) :
  List.last l d = nth (length l - 1) l d.
Proof.
  induction l as [|x l IH]; [reflexivity|].
  destruct l as [|y l]; [reflexivity|].
  change (List.last (x :: y :: l) d) with (List.last (y :: l) d).
  rewrite IH. simpl. rewrite Nat.sub_0_r. reflexivity.
Qed.

Lemma fs_tx_hash_on_disk (st : DB) (tx_num : Z) (f : bytes) :
  bisect_right (tx_counts st) tx_num <= db_height st ->
  hash_files st !! shard_of tx_num = Some f ->
  fs_tx_hash st tx_num
  = Ok (Some (file_read f
                (Z.to_nat (tx_num * 32 mod tx_hash_file_size)) 32),
        bisect_right (tx_counts st) tx_num).
Proof.
  intros Hh Hf. unfold fs_tx_hash, open_file, file_seek.
  replace (bisect_right (tx_counts st) tx_num >? db_height st) with false
    by (symmetry; rewrite Z.gtb_ltb; apply Z.ltb_ge; lia).
  unfold shard_of in Hf. rewrite Hf. cbn [mbind result_bind].
  pose proof (Z.mod_pos_bound (tx_num * 32) tx_hash_file_size
                ltac:(reflexivity)) as Hm.
  replace (tx_num * 32 mod tx_hash_file_size <? 0) with false
    by (symmetry; apply Z.ltb_ge; lia).
  reflexivity.
Qed.

(** C5, amended. With [tx_counts] non-decreasing, of length
    [db_height + 1] and ending in the tx count, and with the [hashesNNNN]
    file of [tx_num] in place, [fs_tx_hash tx_num] returns a hash and the
    height found by right bisection, for every [tx_num] below the tx
    count; that height [h] is the only one with
    [tx_counts[h-1] <= tx_num < tx_counts[h]]. *)
Theorem fs_tx_hash_height (st : DB) (tx_num : Z) :
  nondecreasing (tx_counts st) ->
  len (tx_counts st) = db_height st + 1 ->
  List.last (tx_counts st) 0 = db_tx_count st ->
  0 <= tx_num < db_tx_count st ->
  is_Some (hash_files st !! shard_of tx_num) ->
  exists hash h,
    fs_tx_hash st tx_num = Ok (Some hash, h) /\
    h = bisect_right (tx_counts st) tx_num /\
    0 <= h <= db_height st /\
    tx_count_at st (h - 1) <= tx_num < tx_count_at st h /\
    forall h', 0 <= h' <= db_height st ->
      tx_count_at st (h' - 1) <= tx_num < tx_count_at st h' -> h' = h.
Proof.
  intros Hnd Hlen Hlast Hnum [f Hf].
  destruct (bisect_right_spec (tx_counts st) tx_num Hnd) as [Hr [Hlo Hhi]].
  set (h := bisect_right (tx_counts st) tx_num) in *.
  assert (Hne : tx_counts st <> []).
  { intros E. rewrite E in Hlast. simpl in Hlast. lia. }
  assert (Hlastn : nth (Z.to_nat (db_height st)) (tx_counts st) 0
                   = db_tx_count st).
  { rewrite <- Hlast, last_nth.
    f_equal. unfold len in Hlen. lia. }
  assert (Hh : h <= db_height st).
  { destruct (Z_le_gt_dec h (db_height st)) as [Hle|Hgt]; [exact Hle|].
    assert (0 <= db_height st)
      by (unfold len in Hlen; destruct (tx_counts st); [congruence|];
          simpl in Hlen; lia).
    specialize (Hlo (db_height st) ltac:(lia)). lia. }
  assert (Hat : tx_count_at st (h - 1) <= tx_num < tx_count_at st h).
  { unfold tx_count_at. split.
    - destruct (Z.ltb_spec (h - 1) 0); [lia | apply Hlo; lia].
    - destruct (Z.ltb_spec h 0); [lia | apply Hhi; lia]. }
  exists (file_read f (Z.to_nat (tx_num * 32 mod tx_hash_file_size)) 32), h.
  split; [apply fs_tx_hash_on_disk; assumption|].
  split; [reflexivity|]. split; [lia|]. split; [exact Hat|].
  intros h' Hh' [Hl' Hu']. unfold tx_count_at in Hl', Hu'.
  destruct (Z.ltb_spec h' 0) as [?|_]; [lia|].
  destruct (Z_lt_le_dec h' h) as [Hlt|Hge].
  - specialize (Hlo h' ltac:(lia)). lia.
  - destruct (Z.eq_dec h' h) as [->|Hneq]; [reflexivity|].
    destruct (Z.ltb_spec (h' - 1) 0) as [?|_]; [lia|].
    specialize (Hhi (h' - 1) ltac:(lia)). lia.
Qed.

Lemma flushed_db_nondecreasing : nondecreasing (tx_counts flushed_db).
Proof.
  intros i Hi. simpl in Hi.
  destruct i as [|[|i]]; simpl in *; lia.
Qed.

Lemma fs_tx_hash_height_witness :
  exists hash h,
    fs_tx_hash flushed_db 1 = Ok (Some hash, h) /\
    h = bisect_right (tx_counts flushed_db) 1 /\
    0 <= h <= db_height flushed_db /\
    tx_count_at flushed_db (h - 1) <= 1 < tx_count_at flushed_db h /\
    forall h', 0 <= h' <= db_height flushed_db ->
      tx_count_at flushed_db (h' - 1) <= 1 < tx_count_at flushed_db h' ->
      h' = h.
Proof.
  apply (fs_tx_hash_height flushed_db 1 flushed_db_nondecreasing).
  - reflexivity.
  - reflexivity.
  - simpl. lia.
  - vm_compute. eexists. reflexivity.
Defined.

(** C5 as stated fails: the counts of [lost_shard_db] are
    non-decreasing, as many as [db_height + 1] and end in the tx count,
    and [fs_tx_hash 0] raises [FileNotFoundError], the [hashes0000] file
    being absent. *)
Lemma fs_tx_hash_missing_shard :
  nondecreasing (tx_counts lost_shard_db) /\
  len (tx_counts lost_shard_db) = db_height lost_shard_db + 1 /\
  List.last (tx_counts lost_shard_db) 0 = db_tx_count lost_shard_db /\
  0 <= 0 < db_tx_count lost_shard_db /\
  fs_tx_hash lost_shard_db 0 = Raise FileNotFoundError.
Proof.
  split; [exact flushed_db_nondecreasing|].
  repeat split; simpl; lia.
Qed.

(** ** History *)

Lemma fs_tx_hash_placeholder (st : DB) (tx_num : Z) :
  bisect_right (tx_counts st) tx_num > db_height st ->
  fs_tx_hash st tx_num = Ok (placeholder st tx_num).
Proof.
  intros H. unfold fs_tx_hash, placeholder.
  replace (bisect_right (tx_counts st) tx_num >? db_height st) with true
    by (symmetry; rewrite Z.gtb_ltb; apply Z.ltb_lt; lia).
  reflexivity.
Qed.

Lemma take_limit_cons {A} (limit : Z) (x : A) (l : list A) :
  limit <> 0 ->
  take_limit limit (x :: l) = x :: take_limit (limit - 1) l.
Proof.
  intros Hl. unfold take_limit.
  destruct (Z.ltb_spec limit 0), (Z.ltb_spec (limit - 1) 0);
    try lia; [reflexivity|].
  replace (Z.to_nat limit) with (S (Z.to_nat (limit - 1))) by lia.
  reflexivity.
Qed.

(** The inner loop on tx numbers that [fs_tx_hash] resolves; [rest] is
    what the following keys hold. *)
Lemma history_txs_resolved (st : DB) (next : Z -> gen (option bytes * Z))
    (rest : list Z) (tx_nums : list Z) :
  List.Forall (resolves st) tx_nums ->
  (forall limit, exists items,
     next limit = (items, GenDone) /\
     Forall2 (resolved st) (take_limit limit rest) items) ->
  forall limit, exists items,
    history_txs st tx_nums limit next = (items, GenDone) /\
    Forall2 (resolved st) (take_limit limit (tx_nums ++ rest)) items.
Proof.
  intros Hall Hnext.
  induction Hall as [|n tx_nums [item Hn] _ IH]; intros limit; [apply Hnext|].
  cbn [history_txs app].
  destruct (Z.eqb_spec limit 0) as [->|Hl].
  - exists []. split; [reflexivity | constructor].
  - destruct (IH (limit - 1)) as [items [Hr Hitems]].
    exists (item :: items). rewrite Hn, Hr, take_limit_cons by exact Hl.
    split; [reflexivity|]. constructor; [exact Hn | exact Hitems].
Qed.

Lemma history_loop_resolved (st : DB) (entries : list (bytes * bytes)) :
  forall tx_nums,
  history_tx_nums entries = Ok tx_nums ->
  List.Forall (resolves st) tx_nums ->
  forall limit, exists items,
    history_loop st entries limit = (items, GenDone) /\
    Forall2 (resolved st) (take_limit limit tx_nums) items.
Proof.
  induction entries as [|[key hist] entries IH]; intros tx_nums Hnums Hall limit.
  - injection Hnums as <-. exists []. split; [reflexivity|].
    unfold take_limit. destruct (limit <? 0); [constructor|].
    rewrite firstn_nil. constructor.
  - cbn [history_tx_nums history_loop] in *.
    unfold mbind, result_bind in Hnums.
    destruct (array_frombytes hist) as [a|e]; [|discriminate].
    destruct (history_tx_nums entries) as [r|e]; [|discriminate].
    injection Hnums as <-. apply List.Forall_app in Hall.
    destruct Hall as [Ha Hr].
    apply history_txs_resolved; [exact Ha|].
    intros limit'. apply IH; [reflexivity | exact Hr].
Qed.

(** C9. A tx number whose bisected height exceeds [db_height] makes
    [fs_tx_hash] return [(None, height)], no exception. So [get_history]
    does not fail on such numbers: when the entries of the address decode
    and [fs_tx_hash] resolves their other numbers, the generator yields
    what [fs_tx_hash] returns for each number, as many as the limit
    allows, the placeholder for a number past the disk, and ends
    normally. *)
Theorem fs_tx_hash_past_disk (st : DB) :
  (forall tx_num,
     bisect_right (tx_counts st) tx_num > db_height st ->
     fs_tx_hash st tx_num
     = Ok (None, bisect_right (tx_counts st) tx_num)) /\
  (forall hash168 limit l tx_nums,
     resolve_limit limit = Ok l ->
     history_tx_nums (iterator (db st) (history_prefix ++ hash168))
     = Ok tx_nums ->
     List.Forall
       (fun n => bisect_right (tx_counts st) n > db_height st \/
                 is_Some (hash_files st !! shard_of n)) tx_nums ->
     exists items,
       get_history st hash168 limit = (items, GenDone) /\
       Forall2
         (fun n item =>
            fs_tx_hash st n = Ok item /\
            (bisect_right (tx_counts st) n > db_height st ->
             item = (None, bisect_right (tx_counts st) n)))
         (take_limit l tx_nums) items).
Proof.
  split.
  - intros tx_num H. apply fs_tx_hash_placeholder. exact H.
  - intros hash168 limit l tx_nums Hl Hnums Hall.
    unfold get_history. rewrite Hl.
    assert (Hres : List.Forall (resolves st) tx_nums).
    { eapply List.Forall_impl; [|exact Hall].
      intros n [Hpast|[f Hf]].
      - eexists. apply fs_tx_hash_placeholder. exact Hpast.
      - destruct (Z_le_gt_dec (bisect_right (tx_counts st) n)
                    (db_height st)) as [Hle|Hgt].
        + eexists. apply fs_tx_hash_on_disk; eassumption.
        + eexists. apply fs_tx_hash_placeholder. exact Hgt. }
    destruct (history_loop_resolved st _ tx_nums Hnums Hres l)
      as [items [Hr Hitems]].
    exists items. split; [exact Hr|].
    eapply Forall2_impl; [exact Hitems|].
    intros n item Hn. split; [exact Hn|].
    intros Hpast. unfold resolved in Hn.
    rewrite (fs_tx_hash_placeholder st n Hpast) in Hn.
    injection Hn as <-. reflexivity.
Qed.

Lemma fs_tx_hash_past_disk_witness :
  fs_tx_hash ahead_db 3 = Ok (None, 2) /\
  exists items,
    get_history ahead_db sample_addr (Some 1000) = (items, GenDone) /\
    Forall2
      (fun n item =>
         fs_tx_hash ahead_db n = Ok item /\
         (bisect_right (tx_counts ahead_db) n > db_height ahead_db ->
          item = (None, bisect_right (tx_counts ahead_db) n)))
      (take_limit 1000 [1; 2; 3]) items.
Proof.
  destruct (fs_tx_hash_past_disk ahead_db) as [Hone Hall].
  split.
  - apply (Hone 3). vm_compute. reflexivity.
  - apply (Hall sample_addr (Some 1000) 1000 [1; 2; 3]).
    + reflexivity.
    + reflexivity.
    + constructor; [right; vm_compute; eexists; reflexivity|].
      constructor; [left; vm_compute; reflexivity|].
      constructor; [left; vm_compute; reflexivity|].
      constructor.
Defined.

(** ** Owner lookup *)

Lemma hash_eq_true (h : option bytes) (tx_hash : bytes) :
  hash_eq h tx_hash = true <-> h = Some tx_hash.
Proof.
  destruct h as [h|]; simpl.
  - rewrite bytes_eqb_eq. split; congruence.
  - split; discriminate.
Qed.

Lemma db_hash168_loop_cons (st : DB) (tx_hash k v : bytes)
    (rest : list (bytes * bytes)) (h : option bytes) :
  length v = 21%nat -> candidate_hash st k = Ok h ->
  db_hash168_loop st tx_hash ((k, v) :: rest)
  = if hash_eq h tx_hash then Ok (Some (v, lastn 4 k))
    else db_hash168_loop st tx_hash rest.
Proof.
  intros Hv Hk. cbn [db_hash168_loop]. rewrite Hv. simpl py_assert.
  unfold candidate_hash, mbind, result_bind in *.
  destruct (unpack_le 4 (lastn 4 k)) as [n|e]; [|discriminate].
  destruct (fs_tx_hash st n) as [[h' ht]|e]; [|discriminate].
  injection Hk as ->. reflexivity.
Qed.

Lemma db_hash168_loop_inv (st : DB) (tx_hash k v : bytes)
    (rest : list (bytes * bytes)) (r : option (bytes * bytes)) :
  db_hash168_loop st tx_hash ((k, v) :: rest) = Ok r ->
  length v = 21%nat /\
  ((candidate_hash st k = Ok (Some tx_hash) /\ r = Some (v, lastn 4 k)) \/
   db_hash168_loop st tx_hash rest = Ok r).
Proof.
  cbn [db_hash168_loop]. unfold candidate_hash, py_assert, mbind, result_bind.
  destruct (Nat.eqb_spec (length v) 21) as [Hv|Hv]; [|discriminate].
  destruct (unpack_le 4 (lastn 4 k)) as [n|e]; [|discriminate].
  destruct (fs_tx_hash st n) as [[h ht]|e]; [|discriminate].
  destruct (hash_eq h tx_hash) eqn:E.
  - apply hash_eq_true in E. subst h. intros [= <-]. split; [exact Hv|].
    left. split; reflexivity.
  - intros H. split; [exact Hv|]. right. exact H.
Qed.

Lemma db_hash168_loop_found (st : DB) (tx_hash : bytes)
    (pre post : list (bytes * bytes)) (k v : bytes) :
  List.Forall (candidate_ok st) pre -> length v = 21%nat ->
  candidate_hash st k = Ok (Some tx_hash) ->
  (forall kv, In kv pre -> candidate_hash st (fst kv) <> Ok (Some tx_hash)) ->
  db_hash168_loop st tx_hash (pre ++ (k, v) :: post)
  = Ok (Some (v, lastn 4 k)).
Proof.
  intros Hpre Hv Hk. induction Hpre as [|[k0 v0] pre [Hv0 [h0 Hh0]] _ IH];
    intros Hno.
  - simpl app. rewrite (db_hash168_loop_cons _ _ _ _ _ _ Hv Hk).
    simpl. rewrite bytes_eqb_refl. reflexivity.
  - simpl app. simpl in Hv0, Hh0.
    rewrite (db_hash168_loop_cons _ _ _ _ _ _ Hv0 Hh0).
    destruct (hash_eq h0 tx_hash) eqn:E.
    + apply hash_eq_true in E. subst h0. exfalso.
      apply (Hno (k0, v0)); [left; reflexivity | exact Hh0].
    + apply IH. intros kv Hin. apply Hno. right. exact Hin.
Qed.

Lemma db_hash168_loop_none (st : DB) (tx_hash : bytes)
    (items : list (bytes * bytes)) :
  List.Forall (candidate_ok st) items ->
  (forall kv, In kv items ->
              candidate_hash st (fst kv) <> Ok (Some tx_hash)) ->
  db_hash168_loop st tx_hash items = Ok None.
Proof.
  induction 1 as [|[k0 v0] items [Hv0 [h0 Hh0]] _ IH]; intros Hno;
    [reflexivity|].
  simpl in Hv0, Hh0. rewrite (db_hash168_loop_cons _ _ _ _ _ _ Hv0 Hh0).
  destruct (hash_eq h0 tx_hash) eqn:E.
  - apply hash_eq_true in E. subst h0. exfalso.
    apply (Hno (k0, v0)); [left; reflexivity | exact Hh0].
  - apply IH. intros kv Hin. apply Hno. right. exact Hin.
Qed.

Lemma db_hash168_loop_sound (st : DB) (tx_hash : bytes)
    (items : list (bytes * bytes)) (v n : bytes) :
  db_hash168_loop st tx_hash items = Ok (Some (v, n)) ->
  length v = 21%nat /\
  exists k, In (k, v) items /\ n = lastn 4 k /\
            candidate_hash st k = Ok (Some tx_hash).
Proof.
  induction items as [|[k0 v0] items IH]; [discriminate|].
  intros H. apply db_hash168_loop_inv in H.
  destruct H as [Hv0 [[Hk [= -> ->]]|H]].
  - split; [exact Hv0|]. exists k0. split; [left; reflexivity|].
    split; [reflexivity | exact Hk].
  - destruct (IH H) as [Hv [k [Hin Hk]]]. split; [exact Hv|].
    exists k. split; [right; exact Hin | exact Hk].
Qed.

(** The entries the scan of [db_hash168] goes through are those of the
    store whose key follows the layout for the output. *)
Lemma owner_scan (tx_hash idx_packed k : bytes) :
  starts_with (hashX_scan tx_hash idx_packed) k = true
  <-> is_owner_key tx_hash idx_packed k.
Proof.
  unfold hashX_scan, hashX_prefix, is_owner_key. split.
  - intros H. apply starts_with_split in H. destruct H as [r ->].
    exists r. cbn [app]. rewrite <- app_assoc. reflexivity.
  - intros [r ->].
    replace (x68 :: firstn 4 tx_hash ++ idx_packed ++ r)
      with (([x68] ++ firstn 4 tx_hash ++ idx_packed) ++ r)
      by (cbn [app]; rewrite <- app_assoc; reflexivity).
    apply starts_with_app.
Qed.

Lemma sorted_before {A} (R : A -> A -> Prop) (pre post : list A) (x : A) :
  StronglySorted R (pre ++ x :: post) -> forall y, In y pre -> R y x.
Proof.
  induction pre as [|a pre IH]; intros Hs y Hy; [destruct Hy|].
  cbn [app] in Hs. apply StronglySorted_inv in Hs. destruct Hs as [Hs Hall].
  destruct Hy as [<-|Hy]; [|apply IH; assumption].
  rewrite List.Forall_forall in Hall. apply Hall.
  apply in_or_app. right. left. reflexivity.
Qed.

(** C8. Among the entries of the store whose key is [b'h'], the first
    four bytes of [tx_hash], the packed output index and a packed tx
    number, [db_hash168] returns the hash168 (and the packed tx number)
    of the one with the lowest key whose transaction resolves to
    [tx_hash] in full; it returns [(None, None)] when none of them does;
    and whatever it returns is such an entry, of this truncated hash and
    output index, that resolves to [tx_hash]: an entry that only shares
    the truncated hash, or one of another output, is never returned. The
    store lists its keys in ascending order and the entries are as the
    writer stores them, [candidate_ok]. *)
Theorem db_hash168_first_match (st : DB) (tx_hash idx_packed : bytes) :
  store_sorted (db st) ->
  (forall k v, In (k, v) (db st) -> is_owner_key tx_hash idx_packed k ->
               candidate_ok st (k, v)) ->
  (forall k v,
     In (k, v) (db st) -> is_owner_key tx_hash idx_packed k ->
     candidate_hash st k = Ok (Some tx_hash) ->
     (forall k' v', In (k', v') (db st) ->
                    is_owner_key tx_hash idx_packed k' -> bytes_lt k' k ->
                    candidate_hash st k' <> Ok (Some tx_hash)) ->
     db_hash168 st tx_hash idx_packed = Ok (Some (v, lastn 4 k))) /\
  ((forall k v, In (k, v) (db st) -> is_owner_key tx_hash idx_packed k ->
                candidate_hash st k <> Ok (Some tx_hash)) ->
   db_hash168 st tx_hash idx_packed = Ok None) /\
  (forall v n,
     db_hash168 st tx_hash idx_packed = Ok (Some (v, n)) ->
     exists k, In (k, v) (db st) /\ is_owner_key tx_hash idx_packed k /\
               n = lastn 4 k /\
               candidate_hash st k = Ok (Some tx_hash)).
Proof.
  intros Hs Hok. unfold db_hash168.
  set (scan := hashX_scan tx_hash idx_packed).
  assert (Hscan : forall k v, In (k, v) (iterator (db st) scan) <->
                    In (k, v) (db st) /\ is_owner_key tx_hash idx_packed k).
  { intros k v. rewrite iterator_In. cbn [fst]. unfold scan.
    rewrite owner_scan. reflexivity. }
  split; [|split].
  - intros k v Hin Hkey Hk Hless.
    assert (Hit : In (k, v) (iterator (db st) scan))
      by (apply Hscan; split; assumption).
    apply in_split in Hit. destruct Hit as [pre [post Hsplit]].
    assert (Hpre : forall kv, In kv pre ->
              In kv (db st) /\ is_owner_key tx_hash idx_packed (fst kv)).
    { intros [k' v'] Hkv. apply Hscan. rewrite Hsplit.
      apply in_or_app. left. exact Hkv. }
    pose proof (iterator_sorted (db st) scan Hs) as Hsorted.
    rewrite Hsplit, map_app in Hsorted. cbn [map fst] in Hsorted.
    rewrite Hsplit. apply db_hash168_loop_found.
    + apply List.Forall_forall. intros [k' v'] Hkv.
      destruct (Hpre _ Hkv) as [Hdb Hkey']. apply Hok; assumption.
    + apply (Hok k v Hin Hkey).
    + exact Hk.
    + intros [k' v'] Hkv. destruct (Hpre _ Hkv) as [Hdb Hkey'].
      cbn [fst] in *. apply (Hless k' v' Hdb Hkey').
      apply (sorted_before bytes_lt _ _ _ Hsorted).
      apply in_map_iff. exists (k', v'). split; [reflexivity | exact Hkv].
  - intros Hno. apply db_hash168_loop_none.
    + apply List.Forall_forall. intros [k v] Hkv.
      apply Hscan in Hkv. destruct Hkv as [Hdb Hkey]. apply Hok; assumption.
    + intros [k v] Hkv. apply Hscan in Hkv. destruct Hkv as [Hdb Hkey].
      cbn [fst]. apply (Hno k v); assumption.
  - intros v n H. apply db_hash168_loop_sound in H.
    destruct H as [_ [k [Hin [Hn Hk]]]].
    apply Hscan in Hin. destruct Hin as [Hdb Hkey].
    exists k. repeat split; assumption.
Qed.

Lemma owner_db_sorted : store_sorted (db owner_db).
Proof. repeat constructor. Qed.

Lemma owner_db_entries (k v : bytes) :
  In (k, v) (db owner_db) -> is_owner_key tx_hash_b [x00; x00] k ->
  (k, v) = (owner_key_a, addr_a) \/ (k, v) = (owner_key_b, addr_b).
Proof.
  intros Hin [r Hr]. simpl in Hin.
  destruct Hin as [H|[H|[H|[]]]]; [left | right |]; try (symmetry; exact H).
  injection H as <- _. discriminate Hr.
Qed.

Lemma db_hash168_first_match_witness :
  db_hash168 owner_db tx_hash_b [x00; x00]
  = Ok (Some (addr_b, [x01; x00; x00; x00])).
Proof.
  destruct (db_hash168_first_match owner_db tx_hash_b [x00; x00]
              owner_db_sorted) as [Hfound _].
  - intros k v Hin Hkey.
    destruct (owner_db_entries k v Hin Hkey) as [[= -> ->]|[= -> ->]];
      (split; [reflexivity | eexists; vm_compute; reflexivity]).
  - apply (Hfound owner_key_b addr_b).
    + right. left. reflexivity.
    + exists [x01; x00; x00; x00]. reflexivity.
    + vm_compute. reflexivity.
    + intros k' v' Hin Hkey Hlt.
      destruct (owner_db_entries k' v' Hin Hkey) as [[= -> ->]|[= -> ->]].
      * vm_compute. discriminate.
      * vm_compute in Hlt. discriminate Hlt.
Defined.

(** ** Lookups by outpoint *)

Lemma pack_le_2 (z : Z) :
  0 <= z <= 65535 -> pack_le 2 z = Ok (le_encode 2 z).
Proof.
  intros H. unfold pack_le.
  replace (0 <=? z) with true by (symmetry; apply Z.leb_le; lia).
  replace (z <? 256 ^ Z.of_nat 2) with true
    by (symmetry; apply Z.ltb_lt; simpl; lia).
  reflexivity.
Qed.

(** The owner lookup raises neither of the two exceptions of the
    class. *)
Lemma db_hash168_loop_raises (st : DB) (tx_hash : bytes)
    (items : list (bytes * bytes)) (e : exn) :
  db_hash168_loop st tx_hash items = Raise e ->
  e <> MissingUTXOError /\ e <> DBError.
Proof.
  induction items as [|[k v] items IH]; [discriminate|].
  cbn [db_hash168_loop].
  unfold py_assert, unpack_le, fs_tx_hash, open_file, file_seek,
    mbind, result_bind.
  destruct (Nat.eqb (length v) 21); [|intros [= <-]; split; discriminate].
  destruct (Nat.eqb (length (lastn 4 k)) 4);
    [|intros [= <-]; split; discriminate].
  destruct (_ >? _).
  - simpl. exact IH.
  - destruct (hash_files st !! _);
      [|intros [= <-]; split; discriminate].
    destruct (_ <? 0); [intros [= <-]; split; discriminate|].
    destruct (hash_eq _ _); [discriminate | exact IH].
Qed.

(** C7. For an output index that packs into two bytes, [db_utxo_lookup]
    raises [MissingUTXOError] exactly when the owner lookup [db_hash168]
    finds no entry; when the lookup finds the owner and the value record
    is not in the store it raises [DBError]; and when the 8-byte value
    record is there it returns the hash168 with the value read as an
    unsigned 64-bit little-endian number. *)
Theorem db_utxo_lookup_cases (st : DB) (tx_hash : bytes) (tx_idx : Z) :
  0 <= tx_idx <= 65535 ->
  let idx_packed := le_encode 2 tx_idx in
  (db_utxo_lookup st tx_hash tx_idx = Raise MissingUTXOError <->
   db_hash168 st tx_hash idx_packed = Ok None) /\
  (forall hash168 tx_num_packed,
     db_hash168 st tx_hash idx_packed = Ok (Some (hash168, tx_num_packed)) ->
     let key := utxo_prefix ++ hash168 ++ idx_packed ++ tx_num_packed in
     (db_get (db st) key = None ->
      db_utxo_lookup st tx_hash tx_idx = Raise DBError) /\
     (forall db_value,
        db_get (db st) key = Some db_value -> length db_value = 8%nat ->
        db_utxo_lookup st tx_hash tx_idx = Ok (hash168, le_decode db_value) /\
        0 <= le_decode db_value < 2 ^ 64)).
Proof.
  intros Hidx idx_packed. unfold db_utxo_lookup.
  rewrite (pack_le_2 tx_idx Hidx). fold idx_packed.
  unfold mbind, result_bind. cbv beta iota.
  destruct (db_hash168 st tx_hash idx_packed) as [r|e] eqn:Hr.
  - destruct r as [[hash168 n]|].
    + apply db_hash168_loop_sound in Hr. destruct Hr as [H21 _].
      destruct hash168 as [|b hash168]; [discriminate|].
      split.
      * split; [|discriminate].
        destruct (db_get (db st) _) as [[|b0 v]|]; try discriminate.
        unfold unpack_le. destruct (Nat.eqb _ _); discriminate.
      * intros hash168' n' [= <- <-]. cbv zeta. split.
        -- intros ->. reflexivity.
        -- intros v -> Hv.
           destruct v as [|b0 v]; [discriminate|].
           unfold unpack_le. rewrite Hv. simpl Nat.eqb. cbv iota.
           split; [reflexivity|].
           pose proof (le_decode_range (b0 :: v)) as Hrange.
           rewrite Hv in Hrange. exact Hrange.
    + split; [split; reflexivity|]. intros hash168 n. discriminate.
  - split; [|intros hash168 n; discriminate].
    split; [|discriminate]. intros [= ->].
    apply db_hash168_loop_raises in Hr. destruct Hr as [Hr _].
    contradiction.
Qed.

Lemma db_utxo_lookup_cases_witness :
  db_utxo_lookup owner_db tx_hash_b 0 = Ok (addr_b, 10000) /\
  db_utxo_lookup owner_db tx_hash_a 0 = Raise DBError /\
  db_utxo_lookup owner_db tx_hash_0 0 = Raise MissingUTXOError.
Proof.
  assert (Hidx : 0 <= 0 <= 65535) by lia.
  destruct (db_utxo_lookup_cases owner_db tx_hash_b 0 Hidx) as [_ Hb].
  destruct (db_utxo_lookup_cases owner_db tx_hash_a 0 Hidx) as [_ Ha].
  destruct (db_utxo_lookup_cases owner_db tx_hash_0 0 Hidx) as [H0 _].
  destruct (Hb addr_b [x01; x00; x00; x00] eq_refl) as [_ Hvalue].
  destruct (Ha addr_a [x00; x00; x00; x00] eq_refl) as [Hlost _].
  split; [|split].
  - apply (Hvalue [x10; x27; x00; x00; x00; x00; x00; x00]); reflexivity.
  - apply Hlost. reflexivity.
  - apply H0. reflexivity.
Defined.

(** C10. For an index outside 0..65535 [get_utxo_hash168] returns [None]
    and has the store scan nothing, whatever the database; every prefix
    it does scan is that of an index that two bytes represent. *)
Theorem get_utxo_hash168_index_range (st : DB) (tx_hash : bytes)
    (index : Z) :
  (~ (0 <= index <= 65535) ->
   get_utxo_hash168_io st tx_hash index = (Ok None, []) /\
   get_utxo_hash168 st tx_hash index = Ok None) /\
  (forall prefix,
     In prefix (snd (get_utxo_hash168_io st tx_hash index)) ->
     0 <= index <= 65535 /\
     prefix = hashX_scan tx_hash (le_encode 2 index) /\
     le_decode (le_encode 2 index) = index).
Proof.
  unfold get_utxo_hash168, get_utxo_hash168_io.
  destruct (Z.leb_spec 0 index) as [H0|H0];
    [destruct (Z.leb_spec index 65535) as [H1|H1]|]; cbn [andb].
  - split; [lia|]. rewrite (pack_le_2 index) by lia.
    intros prefix [<-|[]]. split; [lia|]. split; [reflexivity|].
    rewrite le_decode_encode. apply Z.mod_small. simpl. lia.
  - split; [split; reflexivity | intros prefix []].
  - split; [split; reflexivity | intros prefix []].
Qed.

Lemma get_utxo_hash168_index_range_witness :
  get_utxo_hash168_io owner_db tx_hash_b 65536 = (Ok None, []) /\
  get_utxo_hash168 owner_db tx_hash_b 65536 = Ok None.
Proof.
  apply (get_utxo_hash168_index_range owner_db tx_hash_b 65536). lia.
Defined.

(** ** The chain state record *)

(** C4, amended. On a database that is not new, [read_state] raises
    [DBError] when the state record is absent, empty or not a dict, when
    its [db_version] is not a recognized version, and when, with the
    genesis hash matching and all fields present, the integer flush counts
    have [utxo_flush_count > flush_count]. A record that cannot be
    evaluated raises what the evaluation raises, a record that lacks a
    field [KeyError], and flush counts that do not compare [TypeError];
    the types of the fields are not examined otherwise. With
    the version recognized, the genesis hash matching, all fields present
    and integer flush counts with [utxo_flush_count <= flush_count] it
    loads the fields and returns. *)
Theorem read_state_checks (literal_eval : bytes -> result pyobj)
    (c : Coin) (s : store) :
  (db_get s state_key = None \/ db_get s state_key = Some [] ->
   read_state literal_eval c false s = Raise DBError) /\
  (forall record, stored_record s record ->
   (forall e, literal_eval record = Raise e ->
      read_state literal_eval c false s = Raise e) /\
   (forall v, literal_eval record = Ok (PyScalar v) ->
      read_state literal_eval c false s = Raise DBError) /\
   (forall d, literal_eval record = Ok (PyDict d) ->
    (d !! "db_version"%string = None ->
       read_state literal_eval c false s = Raise KeyError) /\
    (forall version, d !! "db_version"%string = Some version ->
     (py_in version DB_VERSIONS = false ->
        read_state literal_eval c false s = Raise DBError) /\
     (py_in version DB_VERSIONS = true ->
      (d !! "genesis"%string = None ->
         read_state literal_eval c false s = Raise KeyError) /\
      (forall genesis, d !! "genesis"%string = Some genesis ->
       py_eq genesis (GENESIS_HASH c) = true ->
       ((exists field, In field loaded_fields /\ d !! field = None) ->
          read_state literal_eval c false s = Raise KeyError) /\
       (forall height tx_count tip fc ufc wt fs,
          d !! "height"%string = Some height ->
          d !! "tx_count"%string = Some tx_count ->
          d !! "tip"%string = Some tip ->
          d !! "flush_count"%string = Some fc ->
          d !! "utxo_flush_count"%string = Some ufc ->
          d !! "wall_time"%string = Some wt ->
          d !! "first_sync"%string = Some fs ->
          (py_lt fc ufc = Raise TypeError ->
             read_state literal_eval c false s = Raise TypeError) /\
          (forall f u, fc = PyInt f -> ufc = PyInt u ->
             (f < u ->
                read_state literal_eval c false s = Raise DBError) /\
             (u <= f ->
                read_state literal_eval c false s
                = Ok (mkAttrs height tx_count tip version fc ufc wt fs))))))))).
Proof.
  unfold read_state, getitem, mbind, result_bind. split.
  - intros [-> | ->]; reflexivity.
  - intros record [-> Hne]. destruct record as [|b bs]; [congruence|].
    split; [intros e ->; reflexivity|].
    split; [intros v ->; reflexivity|]. intros d ->. split.
    { intros ->. reflexivity. }
    intros version ->. split; [intros ->; reflexivity|].
    intros ->. cbn [negb]. split; [intros ->; reflexivity|].
    intros genesis -> ->. cbn [negb]. split.
    + intros [field [Hin Hnone]]. unfold loaded_fields in Hin.
      repeat match goal with
             | |- context [d !! ?k] => destruct (d !! k) eqn:?
             end; try reflexivity.
      exfalso. simpl in Hin.
      repeat (destruct Hin as [<-|Hin]; [congruence|]). exact Hin.
    + intros height tx_count tip fc ufc wt fs -> -> -> -> -> -> ->.
      cbn [a_flush_count a_utxo_flush_count]. split.
      * intros ->. reflexivity.
      * intros f u -> ->. simpl py_lt. cbv iota.
        destruct (Z.ltb_spec f u); split; intros; try lia; reflexivity.
Qed.

Lemma read_state_checks_witness :
  read_state (reads_as (PyDict good_record)) (coin sample_env) false
    state_store
  = Ok (mkAttrs (PyInt 1) (PyInt 2) (PyBytes (repeat x00 32)) (PyInt 3)
          (PyInt 1) (PyInt 1) (PyInt 0) (PyBool true)).
Proof.
  destruct (read_state_checks (reads_as (PyDict good_record))
              (coin sample_env) state_store) as [_ Hstored].
  destruct (Hstored [x7b; x7d]) as [_ [_ Hdict]];
    [split; [reflexivity | discriminate]|].
  destruct (Hdict good_record eq_refl) as [_ Hversion].
  destruct (Hversion (PyInt 3) eq_refl) as [_ Hknown].
  destruct (Hknown eq_refl) as [_ Hgenesis].
  destruct (Hgenesis (PyStr "genesis") eq_refl eq_refl) as [_ Hfields].
  destruct (Hfields (PyInt 1) (PyInt 2) (PyBytes (repeat x00 32))
              (PyInt 1) (PyInt 1) (PyInt 0) (PyBool true)
              eq_refl eq_refl eq_refl eq_refl eq_refl eq_refl eq_refl)
    as [_ Hcounts].
  destruct (Hcounts 1 1 eq_refl eq_refl) as [_ Hok].
  apply Hok. lia.
Defined.

(** C4 as stated fails: a record without its [wall_time] makes
    [read_state] raise [KeyError], and one whose [flush_count] is a string
    makes it raise [TypeError]; neither is the corruption error. *)
Lemma read_state_other_exceptions :
  short_record !! "wall_time"%string = None /\
  read_state (reads_as (PyDict short_record)) (coin sample_env) false
    state_store = Raise KeyError /\
  mistyped_record !! "flush_count"%string = Some (PyStr "1") /\
  read_state (reads_as (PyDict mistyped_record)) (coin sample_env) false
    state_store = Raise TypeError.
Proof. repeat split. Qed.

(** A record of another chain, as [write_state] writes it, holds its
    genesis hash under ['genesis'] and nothing under ['genesis_hash']:
    the message of the corruption error cannot be built, and the
    exception is a [KeyError]. *)
Lemma read_state_foreign_genesis :
  foreign_record !! "genesis_hash"%string = None /\
  read_state (reads_as (PyDict foreign_record)) (coin sample_env) false
    state_store = Raise KeyError.
Proof. split; reflexivity. Qed.

(* ===================================================================== *)
(** * Further properties *)
(* ===================================================================== *)

(** ** Undo information *)

Lemma bytes_lt_of_be_decode (a b : bytes) :
  length a = length b -> be_decode a < be_decode b -> bytes_lt a b.
Proof.
  intros Hlen Hlt. unfold bytes_lt.
  destruct (bytes_compare a b) eqn:E; [| reflexivity |].
  - apply bytes_compare_eq in E. subst. lia.
  - assert (Hba : bytes_lt b a).
    { unfold bytes_lt. rewrite bytes_compare_antisym, E. reflexivity. }
    apply bytes_lt_be_decode in Hba; [lia | congruence].
Qed.

Lemma undo_key_raises (height : Z) :
  ~ (0 <= height < 2 ^ 32) -> undo_key height = Raise StructError.
Proof.
  intros H. unfold undo_key, pack_be.
  destruct (Z.leb_spec 0 height); [|reflexivity].
  destruct (Z.ltb_spec height (256 ^ Z.of_nat 4)) as [Hlt|]; [|reflexivity].
  exfalso. apply H. simpl in Hlt. lia.
Qed.

Lemma undo_key_inj (h h' : Z) (k : bytes) :
  0 <= h < 2 ^ 32 -> 0 <= h' < 2 ^ 32 ->
  undo_key h = Ok k -> undo_key h' = Ok k -> h = h'.
Proof.
  intros Hh Hh' Hk Hk'.
  destruct (undo_key_layout h Hh) as [k1 [E1 [_ H1]]].
  destruct (undo_key_layout h' Hh') as [k2 [E2 [_ H2]]].
  congruence.
Qed.

(** X1. Undo information written for a height of four bytes is read back
    at that height, and the write leaves what is read at every other
    height as it was; a height outside four bytes makes both raise
    [struct.error]. *)
Theorem write_read_undo_info (st : DB) (height : Z) (undo_info : bytes) :
  (0 <= height < 2 ^ 32 ->
   exists st',
     write_undo_info st height undo_info = Ok st' /\
     read_undo_info st' height = Ok (Some undo_info) /\
     forall h, 0 <= h < 2 ^ 32 -> h <> height ->
       read_undo_info st' h = read_undo_info st h) /\
  (~ (0 <= height < 2 ^ 32) ->
   write_undo_info st height undo_info = Raise StructError /\
   read_undo_info st height = Raise StructError).
Proof.
  unfold write_undo_info, read_undo_info. split.
  - intros Hh. destruct (undo_key_layout height Hh) as [k [Hk _]].
    rewrite Hk. cbn [mbind result_bind].
    eexists. split; [reflexivity|]. rewrite db_set_db.
    split; [rewrite db_get_put_eq; reflexivity|].
    intros h Hr Hne. destruct (undo_key_layout h Hr) as [k' [Hk' _]].
    rewrite Hk'. cbn [mbind result_bind].
    rewrite db_get_put_ne; [reflexivity|].
    intros ->. apply Hne. exact (undo_key_inj h height k Hr Hh Hk' Hk).
  - intros Hh. rewrite (undo_key_raises height Hh). split; reflexivity.
Qed.

Lemma write_read_undo_info_witness :
  exists st',
    write_undo_info unclean_db 7 [xcc] = Ok st' /\
    read_undo_info st' 7 = Ok (Some [xcc]) /\
    forall h, 0 <= h < 2 ^ 32 -> h <> 7 ->
      read_undo_info st' h = read_undo_info unclean_db h.
Proof.
  apply (write_read_undo_info unclean_db 7 [xcc]). lia.
Defined.

(** X2. The keys of the undo table sort by height: for two heights of
    four bytes, the key of the lower height is the lower key in byte
    order, and conversely. This is what lets [stale_undo_keys] stop at
    the first key above the cutoff. *)
Theorem undo_key_order (h h' : Z) (k k' : bytes) :
  0 <= h < 2 ^ 32 -> 0 <= h' < 2 ^ 32 ->
  undo_key h = Ok k -> undo_key h' = Ok k' ->
  (bytes_lt k k' <-> h < h').
Proof.
  intros Hh Hh' Hk Hk'.
  destruct (undo_key_layout h Hh) as [k1 [E1 [Hu1 H1]]].
  destruct (undo_key_layout h' Hh') as [k2 [E2 [Hu2 H2]]].
  rewrite Hk in E1. injection E1 as <-.
  rewrite Hk' in E2. injection E2 as <-.
  split.
  - intros Hlt. pose proof (undo_key_lt_height k k' Hu1 Hu2 Hlt). lia.
  - intros Hlt. unfold undo_key, pack_be, mbind, result_bind in Hk, Hk'.
    destruct (_ && _) in Hk; [|discriminate].
    destruct (_ && _) in Hk'; [|discriminate].
    injection Hk as <-. injection Hk' as <-.
    unfold bytes_lt, undo_prefix. cbn [app bytes_compare].
    rewrite Z.compare_refl.
    apply bytes_lt_of_be_decode.
    + unfold be_encode. rewrite !length_rev, !length_le_encode. reflexivity.
    + unfold undo_height, undo_prefix in H1, H2. cbn [app] in H1, H2.
      assert (Hl : forall z, length (be_encode 4 z) = 4%nat)
        by (intros z; unfold be_encode;
            rewrite length_rev; apply length_le_encode).
      rewrite lastn_cons in H1, H2 by (rewrite Hl; lia).
      rewrite <- (Hl h) in H1 at 1. rewrite <- (Hl h') in H2 at 1.
      rewrite lastn_all in H1, H2. lia.
Qed.

Lemma undo_key_order_witness :
  bytes_lt [x55; x00; x00; x00; xff] [x55; x00; x00; x01; x00]
  <-> 255 < 256.
Proof.
  apply (undo_key_order 255 256); [lia | lia | reflexivity | reflexivity].
Defined.

(** ** Recovery, again *)

(** The undo table after recovery, key by key. *)
Lemma clean_db_undo_get (repr_encode : pyobj -> bytes) (st : DB) :
  store_sorted (db st) -> key_layout (db st) ->
  exists st',
    clean_db repr_encode st = Ok st' /\
    forall k, is_undo_key k ->
      db_get (db st') k
      = if undo_height k <=? db_height st - reorg_limit (env st)
        then None else db_get (db st) k.
Proof.
  intros Hs Hl.
  destruct (clean_db_result repr_encode st Hs Hl)
    as [hks [uks [Hr [Hhks Huks]]]].
  eexists. split; [exact Hr|].
  intros k [Hp Hlen].
  assert (Hstate : k <> state_key).
  { apply starts_with_cons in Hp. destruct Hp as [r ->]. discriminate. }
  assert (Hnh : ~ In k hks).
  { intros Hin. apply Hhks in Hin. destruct Hin as [_ [Hin _]].
    apply iterator_keys_incl in Hin. destruct Hin as [_ Hh].
    apply starts_with_cons in Hp. destruct Hp as [r ->]. discriminate. }
  rewrite clean_db_get by exact Hstate.
  destruct (Z.leb_spec (undo_height k)
              (db_height st - reorg_limit (env st))) as [Hcut|Hcut].
  - destruct (db_get (db st) k) as [v|] eqn:Hget.
    + apply db_get_batch_delete_in. apply Huks. split; [|exact Hcut].
      apply in_map_iff. exists (k, v). split; [reflexivity|].
      apply iterator_In. split; [apply db_get_Some_In, Hget | exact Hp].
    + apply db_get_batch_delete_none, db_get_batch_delete_none, Hget.
  - rewrite db_get_batch_delete_notin.
    + apply db_get_batch_delete_notin, Hnh.
    + intros Hin. apply Huks in Hin. lia.
Qed.

(** X3. After recovery [read_undo_info] finds nothing at a height at or
    below [db_height - reorg_limit], and at a height above it what was
    there before. *)
Theorem clean_db_read_undo_info (repr_encode : pyobj -> bytes) (st : DB)
    (height : Z) :
  store_sorted (db st) -> key_layout (db st) -> 0 <= height < 2 ^ 32 ->
  exists st',
    clean_db repr_encode st = Ok st' /\
    read_undo_info st' height
    = if height <=? db_height st - reorg_limit (env st)
      then Ok None else read_undo_info st height.
Proof.
  intros Hs Hl Hh.
  destruct (clean_db_undo_get repr_encode st Hs Hl) as [st' [Hr Hget]].
  exists st'. split; [exact Hr|].
  destruct (undo_key_layout height Hh) as [k [Hk [Hu Hheight]]].
  unfold read_undo_info. rewrite Hk. cbn [mbind result_bind].
  rewrite (Hget k Hu), Hheight.
  destruct (_ <=? _); reflexivity.
Qed.

Lemma clean_db_read_undo_info_witness :
  exists st',
    clean_db (fun _ => []) unclean_db = Ok st' /\
    read_undo_info st' 3 = Ok None /\
    read_undo_info st' 5 = Ok (Some [xbb]).
Proof.
  destruct (clean_db_read_undo_info (fun _ => []) unclean_db 3
              unclean_db_sorted unclean_db_layout ltac:(lia))
    as [st3 [Hr3 H3]].
  destruct (clean_db_read_undo_info (fun _ => []) unclean_db 5
              unclean_db_sorted unclean_db_layout ltac:(lia))
    as [st5 [Hr5 H5]].
  exists st3. split; [exact Hr3|]. split; [exact H3|].
  rewrite Hr3 in Hr5. injection Hr5 as <-. exact H5.
Defined.

Lemma In_keys_db_get (s : store) (k : bytes) :
  In k (db_keys s) -> exists v, db_get s k = Some v.
Proof.
  unfold db_keys. induction s as [|[k0 v0] s IH]; simpl; [tauto|].
  intros [<-|H].
  - rewrite bytes_eqb_refl. eauto.
  - destruct (bytes_eqb k0 k); [eauto | apply IH, H].
Qed.

Lemma batch_delete_keys (ks : list bytes) (s : store) (x : bytes) :
  In x (db_keys (batch_delete s ks)) -> In x (db_keys s).
Proof.
  unfold batch_delete. revert s.
  induction ks as [|k ks IH]; intros s H; [exact H|].
  simpl in H. apply IH in H. exact (db_delete_keys s k x H).
Qed.

Lemma db_put_idem (s : store) (k v : bytes) :
  db_put (db_put s k v) k v = db_put s k v.
Proof.
  assert (Hkk : bytes_compare k k = Eq)
    by (apply bytes_compare_eq; reflexivity).
  induction s as [|[k0 v0] s IH]; simpl.
  - rewrite Hkk. reflexivity.
  - destruct (bytes_compare k k0) eqn:E; simpl.
    + rewrite Hkk. reflexivity.
    + rewrite Hkk. reflexivity.
    + rewrite E, IH. reflexivity.
Qed.

Lemma stale_undo_loop_none (cutoff : Z) (items : list (bytes * bytes))
    (acc : list bytes) :
  (forall k, In k (map fst items) ->
             is_undo_key k /\ undo_height k > cutoff) ->
  stale_undo_loop cutoff items acc = Ok acc.
Proof.
  destruct items as [|[k v] items]; [reflexivity|]. intros H.
  destruct (H k) as [[_ Hlen] Hgt]; [left; reflexivity|].
  cbn [stale_undo_loop]. unfold unpack_be.
  rewrite length_lastn by lia. cbn [Nat.eqb mbind result_bind].
  fold (undo_height k).
  destruct (Z.gtb_spec (undo_height k) cutoff); [reflexivity | lia].
Qed.

Lemma state_dict_set_db (st : DB) (s : store) :
  state_dict (set_db st s) = state_dict st.
Proof. reflexivity. Qed.

Lemma set_db_same (st : DB) : set_db st (db st) = st.
Proof. destruct st. reflexivity. Qed.

(** X4. Recovery is idempotent: run on the object it returns, it
    returns that object again. *)
Theorem clean_db_idempotent (repr_encode : pyobj -> bytes) (st st' : DB) :
  store_sorted (db st) -> key_layout (db st) ->
  clean_db repr_encode st = Ok st' ->
  clean_db repr_encode st' = Ok st'.
Proof.
  intros Hs Hl Hr.
  destruct (clean_db_undo_get repr_encode st Hs Hl) as [st1 [Hr1 Hget]].
  rewrite Hr in Hr1. injection Hr1 as <-.
  destruct (clean_db_result repr_encode st Hs Hl)
    as [hks [uks [Hr2 _]]].
  rewrite Hr in Hr2. injection Hr2 as Hst'.
  assert (Hkeys : forall k, In k (db_keys (db st')) ->
                            k = state_key \/ In k (db_keys (db st))).
  { intros k Hk. rewrite Hst', db_set_db in Hk. unfold write_state in Hk.
    apply db_put_keys in Hk. destruct Hk as [->|Hk]; [left; reflexivity|].
    right. apply batch_delete_keys, batch_delete_keys in Hk. exact Hk. }
  assert (Hcount : (flush_count st' >? utxo_flush_count st') = false).
  { rewrite Hst'. unfold recovered.
    destruct (Z.gtb_spec (flush_count st) (utxo_flush_count st)); simpl.
    - rewrite Z.gtb_ltb. apply Z.ltb_irrefl.
    - rewrite Z.gtb_ltb. apply Z.ltb_ge. assumption. }
  assert (Hheight : db_height st' = db_height st)
    by (rewrite Hst'; apply db_height_recovered).
  assert (Henv : env st' = env st).
  { rewrite Hst'. unfold recovered.
    destruct (flush_count st >? utxo_flush_count st); reflexivity. }
  assert (Hundo : stale_undo_keys st' = Ok []).
  { unfold stale_undo_keys. apply stale_undo_loop_none.
    intros k Hk. apply iterator_keys_incl in Hk. destruct Hk as [Hk Hp].
    assert (Hu : is_undo_key k).
    { split; [exact Hp|].
      destruct (Hkeys k Hk) as [->|Hin]; [discriminate|].
      apply (Hl k Hin), Hp. }
    split; [exact Hu|].
    apply In_keys_db_get in Hk. destruct Hk as [v Hv].
    rewrite (Hget k Hu) in Hv.
    rewrite Hheight, Henv.
    destruct (Z.leb_spec (undo_height k)
                (db_height st - reorg_limit (env st)));
      [discriminate | lia]. }
  unfold clean_db. rewrite Hcount. cbn [mbind result_bind].
  rewrite Hundo. cbn [mbind result_bind batch_delete fold_left].
  f_equal.
  assert (Hw : write_state repr_encode st' (db st') = db st').
  { rewrite Hst', db_set_db. unfold write_state.
    rewrite state_dict_set_db. apply db_put_idem. }
  rewrite Hw. apply set_db_same.
Qed.

Lemma clean_db_idempotent_witness :
  exists st',
    clean_db (fun _ => [x7b]) unclean_db = Ok st' /\
    clean_db (fun _ => [x7b]) st' = Ok st'.
Proof.
  eexists. split; [reflexivity|].
  apply (clean_db_idempotent (fun _ => [x7b]) unclean_db);
    [exact unclean_db_sorted | exact unclean_db_layout | reflexivity].
Defined.

(** ** The state record, written and read *)

Lemma py_eq_refl (v : pyval) : py_eq v v = true.
Proof.
  destruct v as [|b|z|s|b]; simpl.
  - reflexivity.
  - destruct b; reflexivity.
  - apply Z.eqb_refl.
  - apply String.eqb_refl.
  - apply bytes_eqb_refl.
Qed.

(** What [read_state] makes of a store whose state record is the one
    [write_state] writes for [st], the runtime reading back what it
    printed. *)
Lemma read_state_written (literal_eval : bytes -> result pyobj)
    (repr_encode : pyobj -> bytes) (st : DB) (s : store) :
  literal_eval (repr_encode (PyDict (state_dict st)))
  = Ok (PyDict (state_dict st)) ->
  repr_encode (PyDict (state_dict st)) <> [] ->
  In (db_version st) DB_VERSIONS ->
  db_get s state_key = Some (repr_encode (PyDict (state_dict st))) ->
  read_state literal_eval (coin (env st)) false s
  = if flush_count st <? utxo_flush_count st then Raise DBError
    else Ok (mkAttrs (PyInt (db_height st)) (PyInt (db_tx_count st))
               (PyBytes (db_tip st)) (PyInt (db_version st))
               (PyInt (flush_count st)) (PyInt (utxo_flush_count st))
               (PyInt (wall_time st)) (PyBool (first_sync st))).
Proof.
  intros Hlit Hne Hver Hget. unfold read_state. rewrite Hget.
  destruct (repr_encode (PyDict (state_dict st))) as [|b bs] eqn:Hrepr;
    [congruence|].
  rewrite Hlit. cbn [mbind result_bind].
  assert (Hv : db_version st = 3).
  { destruct Hver as [<-|[]]. reflexivity. }
  change (getitem (state_dict st) "db_version")
    with (Ok (A := pyval) (PyInt (db_version st))).
  cbn [mbind result_bind]. rewrite Hv.
  change (py_in (PyInt 3) DB_VERSIONS) with true. cbn [negb].
  change (getitem (state_dict st) "genesis")
    with (Ok (A := pyval) (GENESIS_HASH (coin (env st)))).
  cbn [mbind result_bind]. rewrite py_eq_refl. cbn [negb].
  change (getitem (state_dict st) "height")
    with (Ok (A := pyval) (PyInt (db_height st))).
  change (getitem (state_dict st) "tx_count")
    with (Ok (A := pyval) (PyInt (db_tx_count st))).
  change (getitem (state_dict st) "tip")
    with (Ok (A := pyval) (PyBytes (db_tip st))).
  change (getitem (state_dict st) "flush_count")
    with (Ok (A := pyval) (PyInt (flush_count st))).
  change (getitem (state_dict st) "utxo_flush_count")
    with (Ok (A := pyval) (PyInt (utxo_flush_count st))).
  change (getitem (state_dict st) "wall_time")
    with (Ok (A := pyval) (PyInt (wall_time st))).
  change (getitem (state_dict st) "first_sync")
    with (Ok (A := pyval) (PyBool (first_sync st))).
  cbn [mbind result_bind a_flush_count a_utxo_flush_count py_lt py_num].
  destruct (flush_count st <? utxo_flush_count st); reflexivity.
Qed.

(** X5. The state record round trip: provided the runtime reads back the
    record it printed, [read_state] on a store that [write_state] wrote
    for an object of a recognized version returns the eight attributes of
    that object, unless its [utxo_flush_count] exceeds its [flush_count],
    which is the corruption error. *)
Theorem write_read_state (literal_eval : bytes -> result pyobj)
    (repr_encode : pyobj -> bytes) (st : DB) (batch : store) :
  literal_eval (repr_encode (PyDict (state_dict st)))
  = Ok (PyDict (state_dict st)) ->
  repr_encode (PyDict (state_dict st)) <> [] ->
  In (db_version st) DB_VERSIONS ->
  read_state literal_eval (coin (env st)) false
    (write_state repr_encode st batch)
  = if flush_count st <? utxo_flush_count st then Raise DBError
    else Ok (mkAttrs (PyInt (db_height st)) (PyInt (db_tx_count st))
               (PyBytes (db_tip st)) (PyInt (db_version st))
               (PyInt (flush_count st)) (PyInt (utxo_flush_count st))
               (PyInt (wall_time st)) (PyBool (first_sync st))).
Proof.
  intros Hlit Hne Hver.
  apply (read_state_written literal_eval repr_encode st _ Hlit Hne Hver).
  unfold write_state. apply db_get_put_eq.
Qed.

Lemma write_read_state_witness :
  read_state (reads_as (PyDict (state_dict flushed_db)))
    (coin (env flushed_db)) false
    (write_state (fun _ => [x7b; x7d]) flushed_db [])
  = Ok (mkAttrs (PyInt 1) (PyInt 2) (PyBytes (repeat x00 32)) (PyInt 3)
          (PyInt 1) (PyInt 1) (PyInt 0) (PyBool true)).
Proof.
  apply (write_read_state (reads_as (PyDict (state_dict flushed_db)))
           (fun _ => [x7b; x7d]) flushed_db []).
  - reflexivity.
  - discriminate.
  - left. reflexivity.
Defined.

(** X6. Recovery leaves a state record that [read_state] accepts: when
    the object had [utxo_flush_count <= flush_count], as [read_state]
    checked on opening, the record read back after [clean_db] has both
    flush counts equal to [flush_count]. *)
Theorem clean_db_read_state (literal_eval : bytes -> result pyobj)
    (repr_encode : pyobj -> bytes) (st st' : DB) :
  clean_db repr_encode st = Ok st' ->
  literal_eval (repr_encode (PyDict (state_dict st')))
  = Ok (PyDict (state_dict st')) ->
  repr_encode (PyDict (state_dict st')) <> [] ->
  In (db_version st) DB_VERSIONS ->
  utxo_flush_count st <= flush_count st ->
  read_state literal_eval (coin (env st')) false (db st')
  = Ok (mkAttrs (PyInt (db_height st)) (PyInt (db_tx_count st))
          (PyBytes (db_tip st)) (PyInt (db_version st))
          (PyInt (flush_count st)) (PyInt (flush_count st))
          (PyInt (wall_time st)) (PyBool (first_sync st))).
Proof.
  intros Hr Hlit Hne Hver Hle.
  assert (Hst' : exists s,
            st' = set_db (recovered st)
                    (write_state repr_encode (recovered st) s)).
  { unfold clean_db, recovered, mbind, result_bind in *.
    destruct (flush_count st >? utxo_flush_count st).
    - destruct (excess_history_keys _) as [hks|e]; [|discriminate].
      destruct (stale_undo_keys _) as [uks|e]; [|discriminate].
      injection Hr as <-. eexists. reflexivity.
    - destruct (stale_undo_keys _) as [uks|e]; [|discriminate].
      injection Hr as <-. eexists. reflexivity. }
  destruct Hst' as [s Hst'].
  assert (Hfields :
    db_height st' = db_height st /\ db_tx_count st' = db_tx_count st /\
    db_tip st' = db_tip st /\ db_version st' = db_version st /\
    flush_count st' = flush_count st /\
    utxo_flush_count st' = flush_count st /\
    wall_time st' = wall_time st /\ first_sync st' = first_sync st).
  { rewrite Hst'. unfold recovered.
    destruct (Z.gtb_spec (flush_count st) (utxo_flush_count st));
      simpl; repeat split; lia. }
  destruct Hfields as [H1 [H2 [H3 [H4 [H5 [H6 [H7 H8]]]]]]].
  rewrite (read_state_written literal_eval repr_encode st' (db st')
             Hlit Hne).
  - rewrite H1, H2, H3, H4, H5, H6, H7, H8, Z.ltb_irrefl. reflexivity.
  - rewrite H4. exact Hver.
  - rewrite Hst' at 1. rewrite db_set_db. unfold write_state.
    rewrite db_get_put_eq, Hst', state_dict_set_db. reflexivity.
Qed.

Lemma clean_db_read_state_witness :
  exists st',
    clean_db (fun _ => [x7b; x7d]) flushed_db = Ok st' /\
    read_state (reads_as (PyDict (state_dict flushed_db)))
      (coin (env st')) false (db st')
    = Ok (mkAttrs (PyInt 1) (PyInt 2) (PyBytes (repeat x00 32)) (PyInt 3)
            (PyInt 1) (PyInt 1) (PyInt 0) (PyBool true)).
Proof.
  eexists. split; [reflexivity|].
  apply (clean_db_read_state (reads_as (PyDict (state_dict flushed_db)))
           (fun _ => [x7b; x7d]) flushed_db).
  - reflexivity.
  - reflexivity.
  - discriminate.
  - left. reflexivity.
  - simpl. lia.
Defined.

(** ** The flat files, again *)

(** A range on disk is read as the bytes of the file from [start]
    records on. *)
Lemma read_headers_ok (st : DB) (start count : Z) :
  0 <= HEADER_LEN (coin (env st)) ->
  0 <= start -> 0 <= count -> start + count <= db_height st + 1 ->
  read_headers st start count
  = Ok (firstn (Z.to_nat count * Z.to_nat (HEADER_LEN (coin (env st))))
          (skipn (Z.to_nat start * Z.to_nat (HEADER_LEN (coin (env st))))
             (headers_file st))).
Proof.
  intros Hpos Hs Hc Hr. unfold read_headers, file_seek, file_read.
  replace (Z.min count (db_height st + 1 - start)) with count by lia.
  replace (start <? 0) with false by (symmetry; apply Z.ltb_ge; lia).
  replace (count <? 0) with false by (symmetry; apply Z.ltb_ge; lia).
  rewrite Z.eqb_refl. cbn [orb negb].
  destruct (Z.eqb_spec count 0) as [->|Hne]; cbn [negb].
  - reflexivity.
  - replace (start * HEADER_LEN (coin (env st)) <? 0) with false
      by (symmetry; apply Z.ltb_ge; nia).
    cbn [mbind result_bind].
    replace (count * HEADER_LEN (coin (env st)) <? 0) with false
      by (symmetry; apply Z.ltb_ge; nia).
    rewrite !Z2Nat.inj_mul by lia. reflexivity.
Qed.

(** X7. Reading headers composes: a range on disk read in one call is
    the two halves read one after the other. *)
Theorem read_headers_split (st : DB) (start a b : Z) :
  0 <= HEADER_LEN (coin (env st)) ->
  0 <= start -> 0 <= a -> 0 <= b -> start + a + b <= db_height st + 1 ->
  exists x y,
    read_headers st start a = Ok x /\
    read_headers st (start + a) b = Ok y /\
    read_headers st start (a + b) = Ok (x ++ y).
Proof.
  intros Hpos Hs Ha Hb Hr.
  rewrite !read_headers_ok by lia.
  eexists. eexists. split; [reflexivity|]. split; [reflexivity|].
  f_equal. rewrite !Z2Nat.inj_add by lia.
  rewrite Nat.mul_add_distr_r, firstn_add, skipn_skipn.
  f_equal. f_equal. f_equal. lia.
Qed.

Lemma read_headers_split_witness :
  exists x y,
    read_headers flushed_db 0 1 = Ok x /\
    read_headers flushed_db (0 + 1) 1 = Ok y /\
    read_headers flushed_db 0 (1 + 1) = Ok (x ++ y).
Proof.
  apply (read_headers_split flushed_db 0 1 1); simpl; lia.
Defined.

Lemma file_write_below (f data : bytes) (pos i : nat) :
  (i < pos)%nat -> (i < length f)%nat ->
  file_write f pos data !! i = f !! i.
Proof.
  intros Hi Hf. unfold file_write. destruct data as [|b data];
    [reflexivity|].
  rewrite lookup_app_l by (rewrite length_firstn, length_app; lia).
  rewrite lookup_take_lt by exact Hi.
  apply lookup_app_l. exact Hf.
Qed.

(** X8. [fs_update] only appends: a byte of the headers file or of the
    tx counts file that lies below the offset of the height it is called
    with is the same after the call. *)
Theorem fs_update_appends (st st' : DB) (fs_height : Z)
    (new_headers : list bytes) (block_tx_hashes : list (list bytes)) :
  fs_update st fs_height new_headers block_tx_hashes = Ok st' ->
  (forall i : nat,
     Z.of_nat i < (fs_height + 1) * HEADER_LEN (coin (env st)) ->
     (i < length (headers_file st))%nat ->
     headers_file st' !! i = headers_file st !! i) /\
  (forall i : nat,
     Z.of_nat i < (fs_height + 1) * 4 ->
     (i < length (txcount_file st))%nat ->
     txcount_file st' !! i = txcount_file st !! i).
Proof.
  unfold fs_update, file_seek, mbind, result_bind.
  do 3 step_ok.
  destruct (Z.ltb_spec ((fs_height + 1) * HEADER_LEN (coin (env st))) 0);
    [discriminate|].
  destruct (Z.ltb_spec ((fs_height + 1) * 4) 0); [discriminate|].
  repeat step_ok.
  intros [= <-]. simpl. split; intros i Hi Hf;
    apply file_write_below; lia.
Qed.

Lemma fs_update_appends_witness :
  exists st',
    fs_update next_block_db 1 [header_2] [[tx_hash_a; tx_hash_b]]
    = Ok st' /\
    (forall i : nat,
       Z.of_nat i < (1 + 1) * 2 ->
       (i < length (headers_file next_block_db))%nat ->
       headers_file st' !! i = headers_file next_block_db !! i) /\
    (forall i : nat,
       Z.of_nat i < (1 + 1) * 4 ->
       (i < length (txcount_file next_block_db))%nat ->
       txcount_file st' !! i = txcount_file next_block_db !! i).
Proof.
  destruct (fs_update next_block_db 1 [header_2] [[tx_hash_a; tx_hash_b]])
    as [st'|e] eqn:E; [|vm_compute in E; discriminate].
  exists st'. split; [reflexivity|].
  exact (fs_update_appends next_block_db st' 1 [header_2]
           [[tx_hash_a; tx_hash_b]] E).
Defined.

(** ** Chunks and block hashes *)

(** The number of chunks: the length over the size, rounded up. *)
Lemma chunk_count_bounds (l n : Z) :
  0 <= l -> 0 < n ->
  let q := (l + n - 1) / n in
  0 <= q /\ l <= q * n /\ (0 < l -> (q - 1) * n < l) /\ (l = 0 -> q = 0).
Proof.
  intros Hl Hn q.
  pose proof (Z.div_mod (l + n - 1) n ltac:(lia)) as Hd.
  pose proof (Z.mod_pos_bound (l + n - 1) n Hn) as Hm.
  fold q in Hd.
  assert (0 <= q) by (apply Z.div_pos; lia).
  repeat split; try nia.
Qed.

Lemma chunks_records {A} (items : list A) (size : Z) :
  0 < size ->
  chunks items size
  = Ok (map (fun k => firstn (Z.to_nat size)
                        (skipn (k * Z.to_nat size) items))
          (seq 0 (Z.to_nat ((len items + size - 1) / size)))).
Proof.
  intros Hs. unfold chunks, chunk_starts.
  replace (size =? 0) with false by (symmetry; apply Z.eqb_neq; lia).
  replace (size <? 0) with false by (symmetry; apply Z.ltb_ge; lia).
  f_equal. rewrite map_map. apply map_ext. intros k. unfold py_slice.
  f_equal; [|f_equal]; nia.
Qed.

(** X9. [chunks] cuts a sequence into pieces of [size] items, the last
    one shorter when the length is no multiple of [size]: put back
    together the pieces give the sequence, none is empty, and there are
    the length over [size] of them, rounded up. A [size] of zero is the
    [ValueError] of [range], a negative one gives no piece at all. *)
Theorem chunks_spec {A} (items : list A) (size : Z) :
  (size = 0 -> chunks items size = Raise ValueError) /\
  (size < 0 -> chunks items size = Ok []) /\
  (0 < size ->
   exists cs,
     chunks items size = Ok cs /\
     concat cs = items /\
     len cs = (len items + size - 1) / size /\
     forall (i : nat) c, cs !! i = Some c ->
       0 < len c <= size /\ ((S i < length cs)%nat -> len c = size)).
Proof.
  split; [intros ->; reflexivity|]. split.
  - intros Hs. unfold chunks.
    replace (size =? 0) with false by (symmetry; apply Z.eqb_neq; lia).
    replace (size <? 0) with true by (symmetry; apply Z.ltb_lt; lia).
    reflexivity.
  - intros Hs. rewrite (chunks_records items size Hs).
    destruct (chunk_count_bounds (len items) size ltac:(unfold len; lia) Hs)
      as [Hq [Hup [Hlow Hz]]].
    set (q := (len items + size - 1) / size) in *.
    set (n := Z.to_nat size).
    eexists. split; [reflexivity|]. split; [|split].
    + rewrite <- (read_records n (Z.to_nat q) 0 items).
      rewrite skipn_O. apply firstn_all2. unfold len in *. nia.
    + unfold len. rewrite length_map, length_seq. lia.
    + intros i c Hc. rewrite length_map, length_seq.
      apply list_lookup_fmap_Some in Hc.
      destruct Hc as [k [-> Hk]].
      apply lookup_seq in Hk. destruct Hk as [-> Hi]. simpl in *.
      unfold len in *. rewrite length_firstn, length_skipn.
      assert (0 < Z.of_nat (length items)) by nia.
      specialize (Hlow ltac:(lia)).
      split; [nia|]. intros Hlast. nia.
Qed.

Lemma chunks_spec_witness :
  exists cs,
    chunks [x01; x02; x03; x04; x05] 2 = Ok cs /\
    concat cs = [x01; x02; x03; x04; x05] /\
    len cs = (len [x01; x02; x03; x04; x05] + 2 - 1) / 2 /\
    forall (i : nat) c, cs !! i = Some c ->
      0 < len c <= 2 /\ ((S i < length cs)%nat -> len c = 2).
Proof.
  apply (chunks_spec [x01; x02; x03; x04; x05] 2). lia.
Defined.

Lemma read_headers_raises (st : DB) (start count : Z) :
  start < 0 \/ count < 0 \/ start + count > db_height st + 1 ->
  read_headers st start count = Raise DBError.
Proof.
  intros H. unfold read_headers.
  destruct (Z.ltb_spec start 0); [reflexivity|].
  destruct (Z.ltb_spec count 0); [reflexivity|].
  destruct (Z.eqb_spec (Z.min count (db_height st + 1 - start)) count);
    [lia | reflexivity].
Qed.

(** X10. [fs_block_hashes height count] raises the range error of
    [read_headers] on a range that is not on disk; on a range on disk it
    returns [count] hashes, the [i]-th being the coin's hash of the
    header record of the height [height + i], when the header length is
    positive; with a header length of zero it raises the [ValueError] of
    [chunks]. *)
Theorem fs_block_hashes_spec (header_hash : bytes -> bytes) (st : DB)
    (height count : Z) :
  (height < 0 \/ count < 0 \/ height + count > db_height st + 1 ->
   fs_block_hashes header_hash st height count = Raise DBError) /\
  (~ (height < 0 \/ count < 0 \/ height + count > db_height st + 1) ->
   (HEADER_LEN (coin (env st)) = 0 ->
    fs_block_hashes header_hash st height count = Raise ValueError) /\
   (0 < HEADER_LEN (coin (env st)) -> headers_on_disk st ->
    fs_block_hashes header_hash st height count
    = Ok (map (fun h => header_hash (header_at st h))
            (heights height count)) /\
    length (heights height count) = Z.to_nat count)).
Proof.
  unfold fs_block_hashes. split.
  - intros H. rewrite (read_headers_raises st height count H). reflexivity.
  - intros Hin. split.
    + intros H0. rewrite read_headers_ok by lia. rewrite H0.
      reflexivity.
    + intros Hpos Hdisk. split; [|apply heights_length].
      rewrite read_headers_ok by lia. cbn [mbind result_bind].
      unfold headers_on_disk in Hdisk.
      set (n := Z.to_nat (HEADER_LEN (coin (env st)))).
      set (c := Z.to_nat count). set (s := Z.to_nat height).
      set (hs := firstn (c * n) (skipn (s * n) (headers_file st))).
      assert (Hlen : length hs = (c * n)%nat).
      { unfold hs. rewrite length_firstn, length_skipn.
        unfold len in Hdisk. subst n c s. nia. }
      rewrite (chunks_records hs _ Hpos). cbn [mbind result_bind].
      f_equal. rewrite map_map.
      assert (Hq : Z.to_nat ((len hs + HEADER_LEN (coin (env st)) - 1)
                             / HEADER_LEN (coin (env st))) = c).
      { destruct (chunk_count_bounds (len hs) (HEADER_LEN (coin (env st)))
                    ltac:(unfold len; lia) Hpos) as [Hq [Hup [Hlow Hz]]].
        unfold len in *. rewrite Hlen in *.
        assert (Hn : Z.of_nat n = HEADER_LEN (coin (env st)))
          by (subst n; lia).
        rewrite Nat2Z.inj_mul, Hn in *.
        destruct (Nat.eq_dec c 0%nat) as [H0|H0].
        - rewrite Hz by lia. lia.
        - specialize (Hlow ltac:(nia)). nia. }
      rewrite Hq. unfold heights. rewrite map_map. fold c.
      apply map_ext_in. intros k Hk. apply in_seq in Hk.
      f_equal. unfold hs, header_at. fold n.
      rewrite skipn_firstn_comm, firstn_firstn, skipn_skipn.
      replace (Init.Nat.min n (c * n - k * n)) with n by nia.
      f_equal. f_equal. subst n s. nia.
Qed.

Lemma fs_block_hashes_spec_witness :
  fs_block_hashes (fun h => rev h) flushed_db 0 2
  = Ok [rev header_0; rev header_1].
Proof.
  destruct (fs_block_hashes_spec (fun h => rev h) flushed_db 0 2)
    as [_ Hin].
  destruct Hin as [_ Hpos]; [simpl; lia|].
  destruct Hpos as [Hr _]; [simpl; lia | exact flushed_db_on_disk |].
  exact Hr.
Defined.

(** ** The tx counts file *)

Lemma length_array_tobytes (a : list Z) :
  length (array_tobytes a) = (4 * length a)%nat.
Proof.
  unfold array_tobytes. induction a as [|x a IH]; [reflexivity|].
  cbn [map concat]. rewrite length_app, IH, length_le_encode.
  simpl. lia.
Qed.

Lemma array_tobytes_app (a b : list Z) :
  array_tobytes (a ++ b) = array_tobytes a ++ array_tobytes b.
Proof. unfold array_tobytes. rewrite map_app, concat_app. reflexivity. Qed.

(** The items of an array of unsigned 32-bit numbers are read back from
    its bytes. *)
Lemma array_frombytes_tobytes (a : list Z) :
  List.Forall (fun x => 0 <= x < 2 ^ 32) a ->
  array_frombytes (array_tobytes a) = Ok a.
Proof.
  induction 1 as [|x a Hx _ IH]; [reflexivity|].
  unfold array_tobytes in *. cbn [map concat].
  change (le_encode 4 x)
    with [byte_of_Z x; byte_of_Z (x / 256); byte_of_Z (x / 256 / 256);
          byte_of_Z (x / 256 / 256 / 256)].
  cbn [app array_frombytes]. rewrite IH. cbn [mbind result_bind].
  f_equal. f_equal.
  change [byte_of_Z x; byte_of_Z (x / 256); byte_of_Z (x / 256 / 256);
          byte_of_Z (x / 256 / 256 / 256)] with (le_encode 4 x).
  rewrite le_decode_encode. apply Z.mod_small. simpl. lia.
Qed.

Lemma fs_update_txcount_file (st st' : DB) (fs_height : Z)
    (new_headers : list bytes) (block_tx_hashes : list (list bytes)) :
  fs_update st fs_height new_headers block_tx_hashes = Ok st' ->
  -1 <= fs_height < len (tx_counts st) /\
  txcount_file st'
  = file_write (txcount_file st) (Z.to_nat ((fs_height + 1) * 4))
      (array_tobytes (skipn (Z.to_nat (fs_height + 1)) (tx_counts st))).
Proof.
  unfold fs_update, file_seek, mbind, result_bind, py_assert.
  step_ok.
  destruct (Z.eqb_spec (len (tx_hashes st)) (len (headers st)));
    [|discriminate].
  destruct (Z.eqb_spec (len (tx_counts st))
              (fs_height + len (headers st) + 1)) as [Hc|]; [|discriminate].
  destruct (Z.ltb_spec ((fs_height + 1) * HEADER_LEN (coin (env st))) 0);
    [discriminate|].
  destruct (Z.ltb_spec ((fs_height + 1) * 4) 0); [discriminate|].
  repeat step_ok.
  intros [= <-]. simpl. unfold py_slice_from.
  replace (0 <=? fs_height + 1) with true by (symmetry; apply Z.leb_le; lia).
  split; [unfold len in *; lia | reflexivity].
Qed.

(** X11. The tx counts round trip: after an [fs_update] on a file that
    held the counts up to the height it is called with, an object opened
    on the file at the new height and tx count loads, in [__init__], the
    very [tx_counts] the writer had. The counts are unsigned 32-bit
    numbers. *)
Theorem fs_update_load_tx_counts (st st' : DB) (fs_height : Z)
    (new_headers : list bytes) (block_tx_hashes : list (list bytes)) :
  fs_update st fs_height new_headers block_tx_hashes = Ok st' ->
  List.Forall (fun x => 0 <= x < 2 ^ 32) (tx_counts st) ->
  firstn (Z.to_nat ((fs_height + 1) * 4)) (txcount_file st)
  = array_tobytes (firstn (Z.to_nat (fs_height + 1)) (tx_counts st)) ->
  forall opened,
    txcount_file opened = txcount_file st' ->
    db_height opened = len (tx_counts st) - 1 ->
    db_tx_count opened = List.last (tx_counts st) 0 ->
    load_tx_counts opened = Some (set_tx_counts opened (tx_counts st)).
Proof.
  intros Hup Hu32 Hfile opened Hf Hh Hc.
  apply fs_update_txcount_file in Hup. destruct Hup as [Hfs Hw].
  set (k := Z.to_nat (fs_height + 1)) in *.
  assert (Hk : (k <= length (tx_counts st))%nat)
    by (unfold len in Hfs; lia).
  assert (Hpos : Z.to_nat ((fs_height + 1) * 4) = (4 * k)%nat) by lia.
  rewrite Hpos in *.
  assert (Hlong : (4 * k <= length (txcount_file st))%nat).
  { apply (f_equal (@length byte)) in Hfile.
    rewrite length_firstn, length_array_tobytes, length_firstn in Hfile.
    lia. }
  assert (Hnew : exists rest,
            txcount_file st' = array_tobytes (tx_counts st) ++ rest).
  { eexists. rewrite Hw. rewrite file_write_within by lia.
    rewrite Hfile.
    rewrite app_assoc, <- array_tobytes_app, firstn_skipn. reflexivity. }
  destruct Hnew as [rest Hnew].
  unfold load_tx_counts, array_fromfile, file_read.
  rewrite Hf, Hh, Hnew.
  replace (len (tx_counts st) - 1 + 1 <? 0) with false
    by (symmetry; apply Z.ltb_ge; unfold len; lia).
  replace ((len (tx_counts st) - 1 + 1) * 4 <? 0) with false
    by (symmetry; apply Z.ltb_ge; unfold len; lia).
  rewrite skipn_O.
  replace (Z.to_nat ((len (tx_counts st) - 1 + 1) * 4))
    with (length (array_tobytes (tx_counts st)))
    by (rewrite length_array_tobytes; unfold len; lia).
  rewrite firstn_app, Nat.sub_diag, firstn_O, app_nil_r, firstn_all.
  rewrite (array_frombytes_tobytes _ Hu32).
  replace (len (array_tobytes (tx_counts st))
           =? (len (tx_counts st) - 1 + 1) * 4) with true
    by (symmetry; apply Z.eqb_eq; unfold len;
        rewrite length_array_tobytes; lia).
  rewrite Hc, Z.eqb_refl. reflexivity.
Qed.

Lemma fs_update_load_tx_counts_witness :
  exists st',
    fs_update next_block_db 1 [header_2] [[tx_hash_a; tx_hash_b]]
    = Ok st' /\
    forall opened,
      txcount_file opened = txcount_file st' ->
      db_height opened = len (tx_counts next_block_db) - 1 ->
      db_tx_count opened = List.last (tx_counts next_block_db) 0 ->
      load_tx_counts opened
      = Some (set_tx_counts opened (tx_counts next_block_db)).
Proof.
  destruct (fs_update next_block_db 1 [header_2] [[tx_hash_a; tx_hash_b]])
    as [st'|e] eqn:E; [|vm_compute in E; discriminate].
  exists st'. split; [reflexivity|].
  apply (fs_update_load_tx_counts next_block_db st' 1 [header_2]
           [[tx_hash_a; tx_hash_b]] E).
  - repeat constructor; simpl; lia.
  - reflexivity.
Defined.

(** ** Heights of transactions *)

Lemma fs_tx_hash_height_is_bisect (st : DB) (tx_num : Z)
    (r : option bytes * Z) :
  fs_tx_hash st tx_num = Ok r ->
  snd r = bisect_right (tx_counts st) tx_num.
Proof.
  unfold fs_tx_hash, mbind, result_bind.
  destruct (_ >? _); [intros [= <-]; reflexivity|].
  destruct (open_file _ _ _) as [[f fs]|e]; [|discriminate].
  destruct (file_seek _); [|discriminate].
  intros [= <-]. reflexivity.
Qed.

Lemma bisect_right_mono (a : list Z) (x y : Z) :
  nondecreasing a -> x <= y -> bisect_right a x <= bisect_right a y.
Proof.
  intros Ha Hxy.
  destruct (bisect_right_spec a x Ha) as [Hrx [Hlox Hhix]].
  destruct (bisect_right_spec a y Ha) as [Hry [Hloy Hhiy]].
  destruct (Z_le_gt_dec (bisect_right a x) (bisect_right a y))
    as [Hle|Hgt]; [exact Hle|].
  specialize (Hlox (bisect_right a y) ltac:(lia)).
  specialize (Hhiy (bisect_right a y) ltac:(lia)). lia.
Qed.

(** X12. The heights [fs_tx_hash] returns follow the tx numbers: with
    non-decreasing [tx_counts], a lower tx number never gets a higher
    height, and every height lies between 0 and the number of counts. *)
Theorem fs_tx_hash_heights_ordered (st : DB) (n n' : Z)
    (r r' : option bytes * Z) :
  nondecreasing (tx_counts st) -> n <= n' ->
  fs_tx_hash st n = Ok r -> fs_tx_hash st n' = Ok r' ->
  0 <= snd r <= snd r' /\ snd r' <= len (tx_counts st).
Proof.
  intros Ha Hn Hr Hr'.
  rewrite (fs_tx_hash_height_is_bisect st n r Hr).
  rewrite (fs_tx_hash_height_is_bisect st n' r' Hr').
  pose proof (bisect_right_mono (tx_counts st) n n' Ha Hn).
  destruct (bisect_right_spec (tx_counts st) n Ha) as [? _].
  destruct (bisect_right_spec (tx_counts st) n' Ha) as [? _].
  lia.
Qed.

Lemma fs_tx_hash_heights_ordered_witness :
  0 <= snd (Some tx_hash_0, 0) <= snd (Some tx_hash_1, 1) /\
  snd (Some tx_hash_1, 1) <= len (tx_counts flushed_db).
Proof.
  apply (fs_tx_hash_heights_ordered flushed_db 0 1).
  - exact flushed_db_nondecreasing.
  - lia.
  - vm_compute. reflexivity.
  - vm_compute. reflexivity.
Defined.

(** ** The hashes files *)

Lemma parse_decimal_zeros (k : nat) (s : string) :
  parse_decimal (zeros k s) = parse_decimal s.
Proof.
  induction k as [|k IH]; [reflexivity|].
  unfold parse_decimal in *. cbn [zeros NilEmpty.uint_of_string].
  destruct (NilEmpty.uint_of_string (zeros k s)) as [d|];
    destruct (NilEmpty.uint_of_string s) as [d'|];
    try discriminate; try reflexivity.
  simpl in *. injection IH as <-. reflexivity.
Qed.

Lemma parse_decimal_decimal (n : Z) :
  0 <= n -> parse_decimal (decimal n) = Some (Z.to_N n).
Proof.
  intros _. unfold parse_decimal, decimal.
  pose proof (DecimalN.Unsigned.of_to (Z.to_N n)) as Hof.
  destruct (N.to_uint (Z.to_N n)) as [|d|d|d|d|d|d|d|d|d|d] eqn:E;
    try (cbn [NilZero.string_of_uint]; rewrite NilEmpty.usu;
         simpl; f_equal; exact Hof).
  simpl in *. f_equal. exact Hof.
Qed.

Lemma format_04d_inj (a b : Z) :
  0 <= a -> 0 <= b -> format_04d a = format_04d b -> a = b.
Proof.
  intros Ha Hb H. unfold format_04d in H.
  replace (a <? 0) with false in H by (symmetry; apply Z.ltb_ge; lia).
  replace (b <? 0) with false in H by (symmetry; apply Z.ltb_ge; lia).
  apply (f_equal parse_decimal) in H. unfold zfill in H.
  rewrite !parse_decimal_zeros in H.
  rewrite !Z.abs_eq in H by lia.
  change (NilZero.string_of_uint (N.to_uint (Z.to_N ?x)))
    with (decimal x) in H.
  fold (decimal a) in H. fold (decimal b) in H.
  rewrite !parse_decimal_decimal in H by lia.
  injection H as H. lia.
Qed.

(** Distinct numbers of files give distinct file names. *)
Lemma hashes_filename_inj (a b : Z) :
  0 <= a -> 0 <= b -> hashes_filename a = hashes_filename b -> a = b.
Proof.
  intros Ha Hb H. unfold hashes_filename in H. simpl in H.
  injection H as H. exact (format_04d_inj a b Ha Hb H).
Qed.

Lemma file_write_at (f data : bytes) (pos j : nat) :
  (j < length data)%nat ->
  file_write f pos data !! (pos + j)%nat = data !! j.
Proof.
  intros Hj. unfold file_write.
  destruct data as [|b data'] eqn:Ed; [simpl in Hj; lia|].
  rewrite <- Ed in *. clear Ed b data'.
  assert (Hl : length (firstn pos (f ++ repeat x00 (pos - length f))) = pos).
  { rewrite length_firstn, length_app, repeat_length. lia. }
  rewrite lookup_app_r by lia. rewrite Hl.
  replace (pos + j - pos)%nat with j by lia.
  apply lookup_app_l. exact Hj.
Qed.

Lemma py_slice_lookup {A} (a : list A) (i size : Z) (j : nat) :
  0 <= i -> Z.of_nat j < size ->
  py_slice a i (i + size) !! j = a !! (Z.to_nat i + j)%nat.
Proof.
  intros Hi Hj. unfold py_slice.
  rewrite lookup_take_lt by lia. apply lookup_drop.
Qed.

Lemma length_py_slice {A} (a : list A) (i size : Z) :
  0 <= i -> 0 <= size -> i + size <= len a ->
  length (py_slice a i (i + size)) = Z.to_nat size.
Proof.
  intros Hi Hs Hl. unfold py_slice, len in *.
  rewrite length_firstn, length_skipn. lia.
Qed.

Lemma file_read_lookup (f l : bytes) (pos n : nat) :
  length l = n ->
  (forall j, (j < n)%nat -> f !! (pos + j)%nat = l !! j) ->
  file_read f pos (Z.of_nat n) = l.
Proof.
  intros Hl H. unfold file_read.
  replace (Z.of_nat n <? 0) with false by (symmetry; apply Z.ltb_ge; lia).
  rewrite Nat2Z.id. apply list_eq. intros j.
  destruct (lt_dec j n) as [Hj|Hj].
  - rewrite lookup_take_lt by exact Hj. rewrite lookup_drop. apply H, Hj.
  - rewrite lookup_take_ge by lia. symmetry. apply lookup_ge_None. lia.
Qed.


(** One round of the loop over the hashes. *)
Lemma write_hashes_step (files : gmap string bytes) (hashes : bytes)
    (cursor file_pos : Z) :
  cursor < len hashes ->
  write_hashes files hashes cursor file_pos
  = let file_num := file_pos / tx_hash_file_size in
    let offset := file_pos mod tx_hash_file_size in
    let size := Z.min (len hashes - cursor) (tx_hash_file_size - offset) in
    let filename := hashes_filename file_num in
    write_hashes
      (<[filename :=
           file_write (default [] (files !! filename)) (Z.to_nat offset)
             (py_slice hashes cursor (cursor + size))]> files)
      hashes (cursor + size) (file_pos + size).
Proof.
  intros Hc. rewrite write_hashes_equation_1.
  destruct (Z_lt_dec cursor (len hashes)) as [l|n]; [|lia].
  rewrite write_hashes_clause_1_equation_1. cbv zeta.
  unfold open_file, file_seek.
  pose proof (Z.mod_pos_bound file_pos tx_hash_file_size
                ltac:(reflexivity)) as Hm.
  replace (file_pos mod tx_hash_file_size <? 0) with false
    by (symmetry; apply Z.ltb_ge; lia).
  destruct (files !! _) as [f|]; [reflexivity|].
  rewrite insert_insert_eq. reflexivity.
Qed.

Lemma write_hashes_done (files : gmap string bytes) (hashes : bytes)
    (cursor file_pos : Z) :
  len hashes <= cursor ->
  write_hashes files hashes cursor file_pos = Ok files.
Proof.
  intros Hc. rewrite write_hashes_equation_1.
  destruct (Z_lt_dec cursor (len hashes)) as [l|n]; [lia|].
  apply write_hashes_clause_1_equation_2.
Qed.

(** What the loop leaves in the files: the bytes of [hashes] from
    [cursor] on lie at the positions from [file_pos] on, and a byte that
    was there below [file_pos] is kept. *)
Lemma write_hashes_bytes (n : nat) :
  forall (files : gmap string bytes) (hashes : bytes) (cursor file_pos : Z)
         (files' : gmap string bytes),
    (Z.to_nat (len hashes - cursor) <= n)%nat ->
    0 <= cursor -> 0 <= file_pos ->
    write_hashes files hashes cursor file_pos = Ok files' ->
    (forall q, file_pos <= q < file_pos + (len hashes - cursor) ->
       hash_byte files' q = hashes !! Z.to_nat (cursor + (q - file_pos))) /\
    (forall q b, 0 <= q < file_pos -> hash_byte files q = Some b ->
       hash_byte files' q = Some b).
Proof.
  induction n as [|n IH]; intros files hashes cursor file_pos files'
    Hn Hc Hp Hw.
  - rewrite write_hashes_done in Hw by lia. injection Hw as <-.
    split; [intros q Hq; lia | intros q b _ Hb; exact Hb].
  - destruct (Z_lt_dec cursor (len hashes)) as [Hlt|Hge].
    2:{ rewrite write_hashes_done in Hw by lia. injection Hw as <-.
        split; [intros q Hq; lia | intros q b _ Hb; exact Hb]. }
    rewrite write_hashes_step in Hw by exact Hlt. cbv zeta in Hw.
    pose proof (Z.mod_pos_bound file_pos tx_hash_file_size
                  ltac:(reflexivity)) as Hm.
    pose proof (Z.div_mod file_pos tx_hash_file_size
                  ltac:(discriminate)) as Hdm.
    assert (Hfn : 0 <= file_pos / tx_hash_file_size)
      by (apply Z.div_pos; [exact Hp | reflexivity]).
    set (fn := file_pos / tx_hash_file_size) in *.
    set (off := file_pos mod tx_hash_file_size) in *.
    set (size := Z.min (len hashes - cursor) (tx_hash_file_size - off)) in *.
    set (data := py_slice hashes cursor (cursor + size)) in *.
    set (f' := file_write (default [] (files !! hashes_filename fn))
                 (Z.to_nat off) data) in *.
    set (files1 := <[hashes_filename fn := f']> files) in *.
    assert (Hsize : 0 < size <= len hashes - cursor /\
                    size <= tx_hash_file_size - off) by (subst size; lia).
    assert (Hdata : length data = Z.to_nat size)
      by (apply length_py_slice; lia).
    destruct (IH files1 hashes (cursor + size) (file_pos + size) files'
                ltac:(lia) ltac:(lia) ltac:(lia) Hw) as [Q1 Q2].
    assert (A1 : forall j, 0 <= j < size ->
              hash_byte files1 (file_pos + j)
              = hashes !! Z.to_nat (cursor + j)).
    { intros j Hj. unfold hash_byte.
      assert (Hq : (file_pos + j) / tx_hash_file_size = fn)
        by (symmetry; apply (Z.div_unique _ _ _ (off + j)); lia).
      assert (Hr : (file_pos + j) mod tx_hash_file_size = off + j)
        by (symmetry; apply (Z.mod_unique _ _ fn); lia).
      rewrite Hq, Hr. unfold files1. rewrite lookup_insert_eq.
      replace (Z.to_nat (off + j)) with (Z.to_nat off + Z.to_nat j)%nat
        by lia.
      unfold f'. rewrite file_write_at by lia.
      unfold data. rewrite py_slice_lookup by lia.
      f_equal. lia. }
    assert (A2 : forall q b, 0 <= q < file_pos ->
              hash_byte files q = Some b -> hash_byte files1 q = Some b).
    { intros q b Hq Hb. unfold hash_byte in *.
      pose proof (Z.mod_pos_bound q tx_hash_file_size
                    ltac:(reflexivity)) as Hqm.
      pose proof (Z.div_mod q tx_hash_file_size
                    ltac:(discriminate)) as Hqd.
      destruct (Z.eq_dec (q / tx_hash_file_size) fn) as [E|E].
      - rewrite E in *. unfold files1. rewrite lookup_insert_eq.
        destruct (files !! hashes_filename fn) as [f0|] eqn:Ef;
          [|discriminate].
        unfold f'. cbn [default].
        rewrite file_write_below; [exact Hb | lia |].
        apply lookup_lt_Some in Hb. exact Hb.
      - unfold files1. rewrite lookup_insert_ne; [exact Hb|].
        intros Heq. apply hashes_filename_inj in Heq;
          [congruence | exact Hfn |].
        apply Z.div_pos; [lia | reflexivity]. }
    split.
    + intros q Hq.
      destruct (Z_lt_dec q (file_pos + size)) as [Hin|Hout].
      * specialize (A1 (q - file_pos) ltac:(lia)).
        replace (file_pos + (q - file_pos)) with q in A1 by lia.
        destruct (hashes !! Z.to_nat (cursor + (q - file_pos)))
          as [b|] eqn:Eb.
        -- apply Q2; [lia | exact A1].
        -- apply lookup_ge_None in Eb. unfold len in *. lia.
      * rewrite Q1 by lia. f_equal. lia.
    + intros q b Hq Hb. apply Q2; [lia|]. apply A2; assumption.
Qed.

(** A hash never lies across two files: the file holds a whole number
    of hashes. *)
Lemma hash_record_offsets (tx_num j : Z) :
  0 <= j < 32 ->
  (tx_num * 32 + j) / tx_hash_file_size = tx_num * 32 / tx_hash_file_size /\
  (tx_num * 32 + j) mod tx_hash_file_size
  = tx_num * 32 mod tx_hash_file_size + j.
Proof.
  intros Hj. change tx_hash_file_size with 16777216.
  pose proof (Z.div_mod (tx_num * 32) 16777216 ltac:(discriminate)) as Hd.
  pose proof (Z.mod_pos_bound (tx_num * 32) 16777216 ltac:(reflexivity))
    as Hm.
  assert (Hmul : tx_num * 32 mod 16777216 = 32 * (tx_num mod 524288)).
  { replace (tx_num * 32) with (32 * tx_num) by lia.
    change 16777216 with (32 * 524288).
    apply Z.mul_mod_distr_l; discriminate. }
  pose proof (Z.mod_pos_bound tx_num 524288 ltac:(reflexivity)) as Hm'.
  split.
  - symmetry.
    apply (Z.div_unique _ _ _ (tx_num * 32 mod 16777216 + j)); lia.
  - symmetry.
    apply (Z.mod_unique _ _ (tx_num * 32 / 16777216)); lia.
Qed.

(** [fs_tx_hash] returns the 32 bytes at the position of the
    transaction. *)
Lemma fs_tx_hash_of_bytes (st : DB) (tx_num : Z) (h : bytes) :
  bisect_right (tx_counts st) tx_num <= db_height st ->
  length h = 32%nat ->
  (forall j : nat, (j < 32)%nat ->
     hash_byte (hash_files st) (tx_num * 32 + Z.of_nat j) = h !! j) ->
  fs_tx_hash st tx_num
  = Ok (Some h, bisect_right (tx_counts st) tx_num).
Proof.
  intros Hh Hl Hb.
  pose proof (Z.mod_pos_bound (tx_num * 32) tx_hash_file_size
                ltac:(reflexivity)) as Hm.
  assert (Hf : exists f, hash_files st !! shard_of tx_num = Some f /\
             forall j : nat, (j < 32)%nat ->
               f !! (Z.to_nat (tx_num * 32 mod tx_hash_file_size) + j)%nat
               = h !! j).
  { pose proof (Hb 0%nat ltac:(lia)) as H0. unfold hash_byte in H0.
    destruct (hash_record_offsets tx_num (Z.of_nat 0) ltac:(lia))
      as [Hq0 _].
    rewrite Hq0 in H0. fold (shard_of tx_num) in H0.
    destruct (hash_files st !! shard_of tx_num) as [f|] eqn:Ef.
    - exists f. split; [reflexivity|]. intros j Hj.
      specialize (Hb j Hj). unfold hash_byte in Hb.
      destruct (hash_record_offsets tx_num (Z.of_nat j) ltac:(lia))
        as [Hq Hr].
      rewrite Hq, Hr in Hb. fold (shard_of tx_num) in Hb.
      rewrite Ef in Hb. rewrite <- Hb. f_equal. lia.
    - destruct h as [|b h]; [discriminate Hl | discriminate H0]. }
  destruct Hf as [f [Ef Hf]].
  rewrite (fs_tx_hash_on_disk st tx_num f Hh Ef).
  f_equal. f_equal. f_equal.
  change 32 with (Z.of_nat 32). apply file_read_lookup; assumption.
Qed.

Lemma fs_tx_hash_bytes (st : DB) (tx_num : Z) (h : bytes) (ht : Z) :
  fs_tx_hash st tx_num = Ok (Some h, ht) ->
  length h = 32%nat ->
  ht = bisect_right (tx_counts st) tx_num /\
  bisect_right (tx_counts st) tx_num <= db_height st /\
  forall j : nat, (j < 32)%nat ->
    hash_byte (hash_files st) (tx_num * 32 + Z.of_nat j) = h !! j.
Proof.
  unfold fs_tx_hash, open_file, file_seek, mbind, result_bind.
  destruct (Z.gtb_spec (bisect_right (tx_counts st) tx_num) (db_height st));
    [discriminate|].
  destruct (hash_files st !! _) as [f|] eqn:Ef; [|discriminate].
  pose proof (Z.mod_pos_bound (tx_num * 32) tx_hash_file_size
                ltac:(reflexivity)) as Hm.
  replace (tx_num * 32 mod tx_hash_file_size <? 0) with false
    by (symmetry; apply Z.ltb_ge; lia).
  intros [= <- <-] Hl. split; [reflexivity|]. split; [lia|].
  intros j Hj. unfold hash_byte.
  destruct (hash_record_offsets tx_num (Z.of_nat j) ltac:(lia)) as [Hq Hr].
  rewrite Hq, Hr, Ef. unfold file_read. cbn [Z.ltb Z.compare].
  rewrite lookup_take_lt by (change (Z.to_nat 32) with 32%nat; lia).
  rewrite lookup_drop. f_equal. lia.
Qed.

(** What a successful [fs_update] did to the hashes files. *)
Lemma fs_update_hash_files (st st' : DB) (fs_height : Z)
    (new_headers : list bytes) (block_tx_hashes : list (list bytes)) :
  fs_update st fs_height new_headers block_tx_hashes = Ok st' ->
  -1 <= fs_height < len (tx_counts st) /\
  len (concat (concat block_tx_hashes)) mod 32 = 0 /\
  len (concat (concat block_tx_hashes)) / 32
  = List.last (tx_counts st) 0 - tx_count_at st fs_height /\
  write_hashes (hash_files st) (concat (concat block_tx_hashes)) 0
    (tx_count_at st fs_height * 32) = Ok (hash_files st') /\
  tx_counts st' = tx_counts st /\ db_height st' = db_height st.
Proof.
  intros Hup.
  destruct (fs_update_txcount_file _ _ _ _ _ Hup) as [Hfs _].
  revert Hup.
  unfold fs_update, file_seek, mbind, result_bind, py_assert.
  assert (Hprior :
    (if 0 <=? fs_height then py_index (tx_counts st) fs_height else Ok 0)
    = Ok (tx_count_at st fs_height)).
  { unfold py_index, tx_count_at.
    destruct (Z.leb_spec 0 fs_height), (Z.ltb_spec fs_height 0);
      try lia; [|reflexivity].
    rewrite (nth_error_nth' (tx_counts st) 0)
      by (unfold len in Hfs; lia).
    reflexivity. }
  rewrite Hprior.
  do 2 step_ok.
  destruct (_ <? 0); [discriminate|].
  destruct (_ <? 0); [discriminate|].
  destruct (Z.eqb_spec (len (concat (concat block_tx_hashes)) mod 32) 0)
    as [Hmod|]; [|discriminate].
  destruct (Z.eqb_spec (len (concat (concat block_tx_hashes)) / 32)
              (List.last (tx_counts st) 0 - tx_count_at st fs_height))
    as [Hdiv|]; [|discriminate].
  step_ok. intros [= <-]. simpl. repeat split; try assumption; lia.
Qed.

(** X13. The hashes round trip: after an [fs_update] with hashes of 32
    bytes, on non-decreasing counts, an object on the files written whose
    [db_height] is the height of the last count reads with [fs_tx_hash],
    for the [i]-th hash passed, that very hash at the tx number
    [tx_counts[fs_height] + i], with a height above [fs_height]. *)
Theorem fs_update_fs_tx_hash (st st' : DB) (fs_height : Z)
    (new_headers : list bytes) (block_tx_hashes : list (list bytes)) :
  fs_update st fs_height new_headers block_tx_hashes = Ok st' ->
  nondecreasing (tx_counts st) ->
  0 <= tx_count_at st fs_height ->
  List.Forall (fun h => length h = 32%nat) (concat block_tx_hashes) ->
  forall (opened : DB) (i : nat) (h : bytes),
    hash_files opened = hash_files st' ->
    tx_counts opened = tx_counts st ->
    db_height opened = len (tx_counts st) - 1 ->
    concat block_tx_hashes !! i = Some h ->
    exists ht,
      fs_tx_hash opened (tx_count_at st fs_height + Z.of_nat i)
      = Ok (Some h, ht) /\
      fs_height < ht <= db_height opened.
Proof.
  intros Hup Hnd Hprior H32 opened i h Hfiles Hcounts Hheight Hi.
  destruct (fs_update_hash_files _ _ _ _ _ Hup)
    as [Hfs [Hmod [Hdiv [Hw _]]]].
  set (prior := tx_count_at st fs_height) in *.
  set (hashes := concat (concat block_tx_hashes)) in *.
  assert (Hlen : length hashes = (length (concat block_tx_hashes) * 32)%nat)
    by (apply length_concat_uniform; exact H32).
  assert (Hi' : (i < length (concat block_tx_hashes))%nat)
    by (apply lookup_lt_Some in Hi; exact Hi).
  assert (Hh : length h = 32%nat).
  { rewrite List.Forall_forall in H32. apply H32.
    apply list_elem_of_In. eapply list_elem_of_lookup_2. exact Hi. }
  assert (Hcount : len hashes / 32 = len (concat block_tx_hashes)).
  { unfold len. rewrite Hlen, Nat2Z.inj_mul. apply Z.div_mul. discriminate. }
  destruct (write_hashes_bytes _ (hash_files st) hashes 0 (prior * 32)
              (hash_files st') (Nat.le_refl _) ltac:(lia) ltac:(lia) Hw)
    as [Hbytes _].
  destruct (bisect_right_spec (tx_counts st) (prior + Z.of_nat i) Hnd)
    as [Hr [Hlo Hhi]].
  set (ht := bisect_right (tx_counts st) (prior + Z.of_nat i)) in *.
  assert (Hlast : prior + Z.of_nat i < List.last (tx_counts st) 0)
    by (unfold len in *; lia).
  assert (Hne : 0 < len (tx_counts st)).
  { destruct (tx_counts st); [simpl in Hlast; lia | unfold len; simpl; lia]. }
  assert (Hht : fs_height < ht <= len (tx_counts st) - 1).
  { split.
    - destruct (Z_lt_dec fs_height ht) as [|Hge]; [assumption|].
      specialize (Hhi fs_height ltac:(lia)).
      unfold prior, tx_count_at in Hhi.
      destruct (Z.ltb_spec fs_height 0); lia.
    - destruct (Z_lt_dec ht (len (tx_counts st))) as [|Hge]; [lia|].
      specialize (Hlo (len (tx_counts st) - 1) ltac:(lia)).
      rewrite last_nth in Hlast.
      replace (Z.to_nat (len (tx_counts st) - 1))
        with (length (tx_counts st) - 1)%nat in Hlo by (unfold len; lia).
      lia. }
  exists ht. split; [|lia].
  unfold ht. rewrite <- Hcounts.
  apply fs_tx_hash_of_bytes.
  - rewrite Hcounts. fold ht. lia.
  - exact Hh.
  - intros j Hj. rewrite Hfiles.
    rewrite Hbytes by (unfold len in *; lia).
    pose proof (record_of_concat 32 (concat block_tx_hashes) i H32 Hi')
      as Hrec.
    rewrite (nth_lookup_Some _ _ _ _ Hi) in Hrec.
    rewrite <- Hrec. fold hashes.
    rewrite lookup_take_lt by exact Hj. rewrite lookup_drop.
    f_equal. lia.
Qed.

(** X14. [fs_update] leaves the hashes already on disk alone: a whole
    hash that [fs_tx_hash] returned for a tx number below
    [tx_counts[fs_height]] is returned again after the call, with the
    same height. *)
Theorem fs_update_keeps_hashes (st st' : DB) (fs_height : Z)
    (new_headers : list bytes) (block_tx_hashes : list (list bytes))
    (tx_num : Z) (h : bytes) (ht : Z) :
  fs_update st fs_height new_headers block_tx_hashes = Ok st' ->
  0 <= tx_num < tx_count_at st fs_height ->
  fs_tx_hash st tx_num = Ok (Some h, ht) ->
  length h = 32%nat ->
  fs_tx_hash st' tx_num = Ok (Some h, ht).
Proof.
  intros Hup Hn Hr Hl.
  destruct (fs_update_hash_files _ _ _ _ _ Hup)
    as [Hfs [Hmod [Hdiv [Hw [Hc Hd]]]]].
  destruct (fs_tx_hash_bytes st tx_num h ht Hr Hl) as [-> [Hh Hb]].
  destruct (write_hashes_bytes _ (hash_files st)
              (concat (concat block_tx_hashes)) 0
              (tx_count_at st fs_height * 32) (hash_files st')
              (Nat.le_refl _) ltac:(lia) ltac:(lia) Hw) as [_ Hkeep].
  rewrite <- Hc. apply fs_tx_hash_of_bytes.
  - rewrite Hc, Hd. exact Hh.
  - exact Hl.
  - intros j Hj. specialize (Hb j Hj).
    destruct (h !! j) as [b|] eqn:Ej.
    + apply Hkeep; [lia | exact Hb].
    + apply lookup_ge_None in Ej. lia.
Qed.

Lemma fs_update_fs_tx_hash_witness :
  exists ht,
    fs_tx_hash third_block_db (tx_count_at next_block_db 1 + Z.of_nat 1)
    = Ok (Some tx_hash_b, ht) /\
    1 < ht <= db_height third_block_db.
Proof.
  assert (E : fs_update next_block_db 1 [header_2] [[tx_hash_a; tx_hash_b]]
              = Ok third_block_written) by (vm_compute; reflexivity).
  apply (fs_update_fs_tx_hash next_block_db third_block_written 1
           [header_2] [[tx_hash_a; tx_hash_b]] E).
  - intros i Hi. simpl in Hi. destruct i as [|[|i]]; simpl; lia.
  - vm_compute. discriminate.
  - repeat constructor.
  - reflexivity.
  - reflexivity.
  - reflexivity.
  - reflexivity.
Defined.

Lemma fs_update_keeps_hashes_witness :
  fs_tx_hash third_block_written 1 = Ok (Some tx_hash_1, 1).
Proof.
  assert (E : fs_update next_block_db 1 [header_2] [[tx_hash_a; tx_hash_b]]
              = Ok third_block_written) by (vm_compute; reflexivity).
  apply (fs_update_keeps_hashes next_block_db third_block_written 1
           [header_2] [[tx_hash_a; tx_hash_b]] 1 tx_hash_1 1 E).
  - vm_compute. split; [discriminate | reflexivity].
  - vm_compute. reflexivity.
  - reflexivity.
Defined.

(** ** The limit of the generators *)

Lemma utxos_loop_limit (st : DB) (items : list (bytes * bytes)) :
  forall l m, 0 <= l -> m < 0 ->
    fst (utxos_loop st items l)
    = firstn (Z.to_nat l) (fst (utxos_loop st items m)) /\
    ((Z.of_nat (length (fst (utxos_loop st items m))) < l ->
      utxos_loop st items l = utxos_loop st items m) /\
     (l <= Z.of_nat (length (fst (utxos_loop st items m))) ->
      snd (utxos_loop st items l) = GenDone)).
Proof.
  induction items as [|[k v] rest IH]; intros l m Hl Hm.
  - simpl. rewrite firstn_nil. repeat split; reflexivity.
  - cbn [utxos_loop].
    destruct (Z.eqb_spec l 0) as [->|Hl0].
    + destruct (Z.eqb_spec m 0) as [->|_]; [lia|].
      split; [reflexivity|]. split; [intros H; lia | reflexivity].
    + destruct (Z.eqb_spec m 0) as [->|_]; [lia|].
      destruct (unpack_HI _) as [[tx_pos tx_num]|e];
        [|simpl; rewrite firstn_nil; repeat split; try reflexivity;
          intros; lia].
      destruct (unpack_le _ _) as [value|e];
        [|simpl; rewrite firstn_nil; repeat split; try reflexivity;
          intros; lia].
      destruct (fs_tx_hash _ _) as [[tx_hash height]|e];
        [|simpl; rewrite firstn_nil; repeat split; try reflexivity;
          intros; lia].
      destruct (IH (l - 1) (m - 1) ltac:(lia) ltac:(lia)) as [H1 [H2 H3]].
      destruct (utxos_loop st rest (l - 1)) as [ul el].
      destruct (utxos_loop st rest (m - 1)) as [um em].
      cbn [fst snd length] in *.
      replace (Z.to_nat l) with (S (Z.to_nat (l - 1))) by lia.
      cbn [firstn]. rewrite H1. split; [reflexivity|]. split.
      * intros H. rewrite <- H1. specialize (H2 ltac:(lia)).
        injection H2 as -> ->. reflexivity.
      * intros H. apply H3. lia.
Qed.

(** X15. The limit of [get_utxos]: with a limit [l >= 0] the generator
    yields the first [l] of the UTXOs it yields without a limit; it runs
    as without a limit when those are fewer than [l], and ends normally
    otherwise. A negative limit is refused by the assertion before
    anything is yielded. *)
Theorem get_utxos_limit (st : DB) (hash168 : bytes) (l : Z) :
  (l < 0 -> get_utxos st hash168 (Some l) = ([], GenRaise AssertionError)) /\
  (0 <= l ->
   fst (get_utxos st hash168 (Some l))
   = firstn (Z.to_nat l) (fst (get_utxos st hash168 None)) /\
   (len (fst (get_utxos st hash168 None)) < l ->
    get_utxos st hash168 (Some l) = get_utxos st hash168 None) /\
   (l <= len (fst (get_utxos st hash168 None)) ->
    snd (get_utxos st hash168 (Some l)) = GenDone)).
Proof.
  unfold get_utxos, resolve_limit, py_assert, mbind, result_bind. split.
  - intros Hl.
    replace (0 <=? l) with false by (symmetry; apply Z.leb_gt; lia).
    reflexivity.
  - intros Hl.
    replace (0 <=? l) with true by (symmetry; apply Z.leb_le; lia).
    apply utxos_loop_limit; lia.
Qed.

Lemma history_txs_limit (st : DB) (tx_nums : list Z)
    (next : Z -> gen (option bytes * Z)) :
  (forall l m, 0 <= l -> m < 0 ->
     fst (next l) = firstn (Z.to_nat l) (fst (next m)) /\
     (Z.of_nat (length (fst (next m))) < l -> next l = next m)) ->
  forall l m, 0 <= l -> m < 0 ->
    fst (history_txs st tx_nums l next)
    = firstn (Z.to_nat l) (fst (history_txs st tx_nums m next)) /\
    (Z.of_nat (length (fst (history_txs st tx_nums m next))) < l ->
     history_txs st tx_nums l next = history_txs st tx_nums m next).
Proof.
  intros Hnext.
  induction tx_nums as [|tx_num rest IH]; intros l m Hl Hm.
  - simpl. apply Hnext; assumption.
  - cbn [history_txs].
    destruct (Z.eqb_spec l 0) as [->|Hl0].
    + destruct (Z.eqb_spec m 0) as [->|_]; [lia|].
      simpl. split; [reflexivity|]. intros H. lia.
    + destruct (Z.eqb_spec m 0) as [->|_]; [lia|].
      destruct (fs_tx_hash st tx_num) as [item|e];
        [|simpl; rewrite firstn_nil; split; reflexivity].
      destruct (IH (l - 1) (m - 1) ltac:(lia) ltac:(lia)) as [H1 H2].
      destruct (history_txs st rest (l - 1) next) as [il el].
      destruct (history_txs st rest (m - 1) next) as [im em].
      cbn [fst snd length] in *.
      replace (Z.to_nat l) with (S (Z.to_nat (l - 1))) by lia.
      cbn [firstn]. rewrite H1. split; [reflexivity|].
      intros H. rewrite <- H1. specialize (H2 ltac:(lia)).
      injection H2 as -> ->. reflexivity.
Qed.

Lemma history_loop_limit (st : DB) (entries : list (bytes * bytes)) :
  forall l m, 0 <= l -> m < 0 ->
    fst (history_loop st entries l)
    = firstn (Z.to_nat l) (fst (history_loop st entries m)) /\
    (Z.of_nat (length (fst (history_loop st entries m))) < l ->
     history_loop st entries l = history_loop st entries m).
Proof.
  induction entries as [|[k hist] rest IH]; intros l m Hl Hm.
  - simpl. rewrite firstn_nil. split; reflexivity.
  - cbn [history_loop].
    destruct (array_frombytes hist) as [a|e];
      [|simpl; rewrite firstn_nil; split; reflexivity].
    apply history_txs_limit; [exact IH | exact Hl | exact Hm].
Qed.

(** X16. The limit of [get_history]: with a limit [l >= 0] the generator
    yields the first [l] of the pairs it yields without a limit, and it
    runs as without a limit when those are fewer than [l]. A negative
    limit is refused by the assertion before anything is yielded. *)
Theorem get_history_limit (st : DB) (hash168 : bytes) (l : Z) :
  (l < 0 ->
   get_history st hash168 (Some l) = ([], GenRaise AssertionError)) /\
  (0 <= l ->
   fst (get_history st hash168 (Some l))
   = firstn (Z.to_nat l) (fst (get_history st hash168 None)) /\
   (len (fst (get_history st hash168 None)) < l ->
    get_history st hash168 (Some l) = get_history st hash168 None)).
Proof.
  unfold get_history, resolve_limit, py_assert, mbind, result_bind. split.
  - intros Hl.
    replace (0 <=? l) with false by (symmetry; apply Z.leb_gt; lia).
    reflexivity.
  - intros Hl.
    replace (0 <=? l) with true by (symmetry; apply Z.leb_le; lia).
    apply history_loop_limit; lia.
Qed.

(** ** The UTXOs of an address *)

Lemma lastn_app {A} (a b : list A) : lastn (length b) (a ++ b) = b.
Proof.
  unfold lastn. rewrite length_app.
  replace (length a + length b - length b)%nat with (length a) by lia.
  rewrite skipn_app, Nat.sub_diag, skipn_all. reflexivity.
Qed.

Lemma skipn_lastn {A} (n m : nat) (l : list A) :
  (n + m <= length l)%nat -> skipn n (lastn (n + m) l) = lastn m l.
Proof.
  intros H. unfold lastn. rewrite skipn_skipn. f_equal. lia.
Qed.

Lemma fold_add_nonneg (l : list Z) (a : Z) :
  List.Forall (fun x => 0 <= x) l -> a <= fold_left Z.add l a.
Proof.
  intros H. revert a. induction H as [|x l Hx _ IH]; intros a; simpl.
  - lia.
  - specialize (IH (a + x)). lia.
Qed.

Lemma utxos_loop_all (st : DB) (items : list (bytes * bytes)) (m : Z) :
  m < 0 ->
  (forall k v, In (k, v) items ->
     (6 <= length k)%nat /\ length v = 8%nat /\
     exists r, fs_tx_hash st (le_decode (lastn 4 k)) = Ok r) ->
  exists utxos,
    utxos_loop st items m = (utxos, GenDone) /\
    List.Forall2 (utxo_of st) utxos items.
Proof.
  revert m. induction items as [|[k v] rest IH]; intros m Hm Hwf.
  - exists []. split; [reflexivity | constructor].
  - destruct (Hwf k v ltac:(left; reflexivity)) as [Hk [Hv [[h ht] Hr]]].
    destruct (IH (m - 1) ltac:(lia)
                ltac:(intros k' v' H'; apply Hwf; right; exact H'))
      as [utxos [Hloop Hall]].
    cbn [utxos_loop].
    destruct (Z.eqb_spec m 0) as [->|_]; [lia|].
    unfold unpack_HI, unpack_le.
    rewrite length_lastn by lia. rewrite Hv. cbn [Nat.eqb].
    assert (Hs : skipn 2 (lastn 6 k) = lastn 4 k)
      by (apply (skipn_lastn 2 4); lia).
    rewrite Hs.
    rewrite Hr, Hloop.
    eexists. split; [reflexivity|].
    constructor; [|exact Hall].
    unfold utxo_of. cbn [utxo_tx_num utxo_tx_pos utxo_value utxo_tx_hash
                          utxo_height fst snd].
    repeat split. exact Hr.
Qed.

(** X17. The balance of an address whose entries are as the writer
    stores them (a key that ends in the output index and the tx number,
    a value of eight bytes) and whose tx numbers [fs_tx_hash] resolves:
    [get_utxos] without a limit yields one UTXO per entry, in key order,
    with the number, index and value of the entry and what [fs_tx_hash]
    gives for the number, and [get_balance] is the sum of the values,
    which is not negative. *)
Theorem get_balance_sum (st : DB) (hash168 : bytes) :
  (forall k v, In (k, v) (iterator (db st) (utxo_prefix ++ hash168)) ->
     (6 <= length k)%nat /\ length v = 8%nat /\
     exists r, fs_tx_hash st (le_decode (lastn 4 k)) = Ok r) ->
  exists utxos,
    get_utxos st hash168 None = (utxos, GenDone) /\
    List.Forall2 (utxo_of st) utxos
      (iterator (db st) (utxo_prefix ++ hash168)) /\
    get_balance st hash168
    = Ok (fold_left Z.add
            (map (fun kv => le_decode (snd kv))
               (iterator (db st) (utxo_prefix ++ hash168))) 0) /\
    0 <= fold_left Z.add
           (map (fun kv => le_decode (snd kv))
              (iterator (db st) (utxo_prefix ++ hash168))) 0.
Proof.
  intros Hwf.
  destruct (utxos_loop_all st _ (-1) ltac:(lia) Hwf) as [utxos [Hl Hall]].
  exists utxos.
  assert (Hg : get_utxos st hash168 None = (utxos, GenDone)) by exact Hl.
  split; [exact Hg|]. split; [exact Hall|]. split.
  - unfold get_balance. rewrite Hg. f_equal. f_equal.
    clear Hl Hg Hwf.
    induction Hall as [|u kv utxos items [_ [_ [Hv _]]] _ IH];
      [reflexivity|].
    cbn [map]. rewrite Hv, IH. reflexivity.
  - apply fold_add_nonneg. apply List.Forall_forall. intros x Hx.
    apply in_map_iff in Hx. destruct Hx as [kv [<- _]].
    apply le_decode_range.
Qed.

Lemma get_balance_sum_witness :
  exists utxos,
    get_utxos wallet_db addr_a None = (utxos, GenDone) /\
    List.Forall2 (utxo_of wallet_db) utxos
      (iterator (db wallet_db) (utxo_prefix ++ addr_a)) /\
    get_balance wallet_db addr_a
    = Ok (fold_left Z.add
            (map (fun kv => le_decode (snd kv))
               (iterator (db wallet_db) (utxo_prefix ++ addr_a))) 0) /\
    0 <= fold_left Z.add
           (map (fun kv => le_decode (snd kv))
              (iterator (db wallet_db) (utxo_prefix ++ addr_a))) 0.
Proof.
  apply (get_balance_sum wallet_db addr_a).
  intros k v Hin. vm_compute in Hin.
  destruct Hin as [[= <- <-]|[[= <- <-]|[]]];
    (split; [vm_compute; lia|]); (split; [reflexivity|]);
    eexists; vm_compute; reflexivity.
Defined.

Lemma utxos_loop_In (st : DB) (items : list (bytes * bytes)) (m : Z)
    (utxos : list UTXO) (k v : bytes) :
  m < 0 -> utxos_loop st items m = (utxos, GenDone) -> In (k, v) items ->
  exists tx_pos tx_num value tx_hash height,
    unpack_HI (lastn 6 k) = Ok (tx_pos, tx_num) /\
    unpack_le 8 v = Ok value /\
    fs_tx_hash st tx_num = Ok (tx_hash, height) /\
    In (mkUTXO tx_num tx_pos tx_hash height value) utxos.
Proof.
  revert m utxos. induction items as [|[k0 v0] rest IH];
    intros m utxos Hm Hloop Hin; [destruct Hin|].
  cbn [utxos_loop] in Hloop.
  destruct (Z.eqb_spec m 0) as [->|_]; [lia|].
  destruct (unpack_HI (lastn 6 k0)) as [[tx_pos tx_num]|e] eqn:E1;
    [|discriminate].
  destruct (unpack_le 8 v0) as [value|e] eqn:E2; [|discriminate].
  destruct (fs_tx_hash st tx_num) as [[tx_hash height]|e] eqn:E3;
    [|discriminate].
  destruct (utxos_loop st rest (m - 1)) as [us e] eqn:E4.
  injection Hloop as <- ->.
  destruct Hin as [[= <- <-]|Hin].
  - exists tx_pos, tx_num, value, tx_hash, height.
    repeat split; try assumption. left. reflexivity.
  - destruct (IH (m - 1) us ltac:(lia) E4 Hin)
      as [p [n [vl [h [ht [H1 [H2 [H3 H4]]]]]]]].
    exists p, n, vl, h, ht. repeat split; try assumption.
    right. exact H4.
Qed.

(** X18. The two tables agree: when [db_utxo_lookup] returns
    [(hash168, value)] for the output [tx_idx] of [tx_hash],
    [get_utxo_hash168] returns the same [hash168], and [get_utxos] on
    that [hash168], run to its end without a limit, lists a UTXO with
    that hash, index and value. *)
Theorem db_utxo_lookup_listed (st : DB) (tx_hash : bytes) (tx_idx : Z)
    (hash168 : bytes) (value : Z) (utxos : list UTXO) :
  db_utxo_lookup st tx_hash tx_idx = Ok (hash168, value) ->
  get_utxos st hash168 None = (utxos, GenDone) ->
  get_utxo_hash168 st tx_hash tx_idx = Ok (Some hash168) /\
  exists u,
    In u utxos /\ utxo_tx_hash u = Some tx_hash /\
    utxo_tx_pos u = tx_idx /\ utxo_value u = value.
Proof.
  intros Hlookup Hutxos.
  unfold db_utxo_lookup, mbind, result_bind in Hlookup.
  unfold pack_le in Hlookup.
  destruct (Z.leb_spec 0 tx_idx) as [Hlo|]; [|discriminate].
  destruct (Z.ltb_spec tx_idx (256 ^ Z.of_nat 2)) as [Hhi|]; [|discriminate].
  cbn [andb] in Hlookup. change (256 ^ Z.of_nat 2) with 65536 in Hhi.
  destruct (db_hash168 st tx_hash (le_encode 2 tx_idx))
    as [[[h n]|]|e] eqn:Eh; try discriminate.
  pose proof Eh as Eh'. unfold db_hash168 in Eh'.
  apply db_hash168_loop_sound in Eh'.
  destruct Eh' as [Hh [k [_ [Hn Hcand]]]].
  destruct h as [|b h']; [discriminate Hh|].
  set (h := b :: h') in *.
  set (key := utxo_prefix ++ h ++ le_encode 2 tx_idx ++ n) in *.
  destruct (db_get (db st) key) as [[|v0 vs]|] eqn:Eg; try discriminate.
  set (dbv := v0 :: vs) in *.
  unfold unpack_le in Hlookup.
  destruct (Nat.eqb_spec (length dbv) 8) as [Hlen|]; [|discriminate].
  injection Hlookup as <- <-.
  split.
  - unfold get_utxo_hash168, get_utxo_hash168_io.
    replace (0 <=? tx_idx) with true by (symmetry; apply Z.leb_le; lia).
    replace (tx_idx <=? 65535) with true by (symmetry; apply Z.leb_le; lia).
    cbn [andb]. rewrite pack_le_2 by lia. rewrite Eh. reflexivity.
  - unfold candidate_hash, unpack_le, mbind, result_bind in Hcand.
    rewrite <- Hn in Hcand.
    destruct (Nat.eqb_spec (length n) 4) as [Hn4|]; [|discriminate].
    destruct (fs_tx_hash st (le_decode n)) as [[hash height]|e] eqn:Ef;
      [|discriminate].
    injection Hcand as ->.
    assert (Hin : In (key, dbv) (iterator (db st) (utxo_prefix ++ h))).
    { apply iterator_In. split; [apply db_get_Some_In, Eg|].
      cbn [fst]. unfold key. rewrite app_assoc. apply starts_with_app. }
    unfold get_utxos in Hutxos. cbn [resolve_limit] in Hutxos.
    destruct (utxos_loop_In st _ (-1) utxos key dbv ltac:(lia) Hutxos Hin)
      as [p [tn [vl [th [ht [H1 [H2 [H3 H4]]]]]]]].
    assert (Hlast : lastn 6 key = le_encode 2 tx_idx ++ n).
    { unfold key. rewrite !app_assoc, <- app_assoc.
      replace 6%nat with (length (le_encode 2 tx_idx ++ n))
        by (rewrite length_app, length_le_encode, Hn4; reflexivity).
      apply lastn_app. }
    rewrite Hlast in H1. unfold unpack_HI in H1.
    rewrite length_app, length_le_encode, Hn4 in H1. cbn [Nat.eqb Nat.add] in H1.
    rewrite firstn_app, skipn_app, length_le_encode in H1.
    change (2 - 2)%nat with 0%nat in H1.
    rewrite firstn_O, skipn_O, app_nil_r in H1.
    rewrite (firstn_all2 (le_encode 2 tx_idx)) in H1
      by (rewrite length_le_encode; lia).
    rewrite (skipn_all2 (le_encode 2 tx_idx)) in H1
      by (rewrite length_le_encode; lia).
    rewrite le_decode_encode in H1. cbn [app] in H1.
    injection H1 as <- <-.
    unfold unpack_le in H2. rewrite Hlen in H2. cbn [Nat.eqb] in H2.
    injection H2 as <-.
    rewrite Ef in H3. injection H3 as <- <-.
    eexists. split; [exact H4|]. cbn.
    repeat split. apply Z.mod_small. simpl. lia.
Qed.

Lemma db_utxo_lookup_listed_witness :
  get_utxo_hash168 owner_db tx_hash_b 0 = Ok (Some addr_b) /\
  exists u,
    In u [mkUTXO 1 0 (Some tx_hash_b) 1 10000] /\
    utxo_tx_hash u = Some tx_hash_b /\
    utxo_tx_pos u = 0 /\ utxo_value u = 10000.
Proof.
  apply (db_utxo_lookup_listed owner_db tx_hash_b 0 addr_b 10000).
  - vm_compute. reflexivity.
  - vm_compute. reflexivity.
Defined.

Lemma get_utxos_limit_witness :
  fst (get_utxos wallet_db addr_a (Some 1))
  = firstn (Z.to_nat 1) (fst (get_utxos wallet_db addr_a None)) /\
  snd (get_utxos wallet_db addr_a (Some 1)) = GenDone.
Proof.
  destruct (get_utxos_limit wallet_db addr_a 1) as [_ H].
  destruct (H ltac:(lia)) as [H1 [_ H3]].
  split; [exact H1|]. apply H3. vm_compute. discriminate.
Defined.

Lemma get_history_limit_witness :
  fst (get_history ahead_db sample_addr (Some 2))
  = firstn (Z.to_nat 2) (fst (get_history ahead_db sample_addr None)).
Proof.
  destruct (get_history_limit ahead_db sample_addr 2) as [_ H].
  destruct (H ltac:(lia)) as [H1 _]. exact H1.
Defined.

(** ** [lib/util.py] *)

Lemma be_decode_insert (bs : bytes) (j : nat) (b c : byte) :
  bs !! j = Some b ->
  be_decode (<[j := c]> bs)
  = be_decode bs + (byte_Z c - byte_Z b) * 256 ^ Z.of_nat (length bs - 1 - j).
Proof.
  revert j. induction bs as [|x r IH]; intros j Hj; [discriminate|].
  destruct j as [|j].
  - injection Hj as ->. cbn [insert list_insert be_decode length].
    replace (S (length r) - 1 - 0)%nat with (length r) by lia. ring.
  - cbn [lookup list_lookup] in Hj.
    change (<[S j := c]> (x :: r)) with (x :: <[j := c]> r).
    cbn [be_decode length]. rewrite length_insert, (IH j Hj).
    replace (S (length r) - 1 - S j)%nat with (length r - 1 - j)%nat by lia.
    ring.
Qed.

Lemma increment_loop_spec (i : nat) :
  forall bs : bytes, (i <= length bs)%nat ->
    length (fst (increment_loop i bs)) = length bs /\
    be_decode (fst (increment_loop i bs))
    + (if snd (increment_loop i bs) then 0
       else 256 ^ Z.of_nat (length bs))
    = be_decode bs + 256 ^ Z.of_nat (length bs - i).
Proof.
  induction i as [|j IH]; intros bs Hi.
  - simpl. rewrite Nat.sub_0_r. split; reflexivity.
  - cbn [increment_loop].
    destruct (bs !! j) as [b|] eqn:Eb;
      [|apply lookup_ge_None in Eb; lia].
    pose proof (byte_Z_range b) as Hb.
    assert (Hpow : 256 ^ Z.of_nat (length bs - j)
                   = 256 * 256 ^ Z.of_nat (length bs - S j)).
    { replace (length bs - j)%nat with (S (length bs - S j)) by lia.
      rewrite Nat2Z.inj_succ, Z.pow_succ_r by lia. reflexivity. }
    replace (length bs - 1 - j)%nat with (length bs - S j)%nat
      in * by lia.
    destruct (Z.ltb_spec (byte_Z b) 255) as [Hlt|Hge].
    + cbn [fst snd]. rewrite length_insert. split; [reflexivity|].
      rewrite (be_decode_insert bs j b _ Eb), byte_Z_of_Z.
      rewrite Z.mod_small by lia.
      replace (length bs - 1 - j)%nat with (length bs - S j)%nat by lia.
      ring.
    + destruct (IH (<[j := x00]> bs)) as [Hl Hd];
        [rewrite length_insert; lia|].
      rewrite length_insert in Hl, Hd. split; [exact Hl|].
      rewrite Hd, (be_decode_insert bs j b _ Eb), Hpow.
      replace (length bs - 1 - j)%nat with (length bs - S j)%nat by lia.
      change (byte_Z x00) with 0.
      replace (byte_Z b) with 255 by lia. ring.
Qed.

(** X19. [increment_byte_string] adds one to the number the bytes stand
    for, big-endian. The result has the length of the argument, unless
    the number no longer fits it (the bytes were all 0xff), when it is
    one byte longer. *)
Theorem increment_byte_string_spec (bs : bytes) :
  bytes_to_int (increment_byte_string bs) = bytes_to_int bs + 1 /\
  length (increment_byte_string bs)
  = if bytes_to_int bs + 1 <? 256 ^ len bs then length bs
    else S (length bs).
Proof.
  unfold increment_byte_string, bytes_to_int, len.
  destruct (increment_loop_spec (length bs) bs (Nat.le_refl _)) as [Hl Hd].
  rewrite Nat.sub_diag in Hd. change (256 ^ Z.of_nat 0) with 1 in Hd.
  destruct (increment_loop (length bs) bs) as [bs' incremented].
  cbn [fst snd] in *.
  pose proof (be_decode_range bs') as Hr. rewrite Hl in Hr.
  destruct incremented.
  - split; [lia|].
    destruct (Z.ltb_spec (be_decode bs + 1)
                (256 ^ Z.of_nat (length bs))); lia.
  - cbn [be_decode length]. rewrite Hl.
    change (byte_Z x01) with 1. split; [lia|].
    destruct (Z.ltb_spec (be_decode bs + 1)
                (256 ^ Z.of_nat (length bs))); lia.
Qed.

Lemma pow256 (n : Z) : 0 <= n -> 256 ^ n = 2 ^ (8 * n).
Proof.
  intros H. change 256 with (2 ^ 8). rewrite <- Z.pow_mul_r by lia.
  reflexivity.
Qed.

(** X20. [int_to_bytes] and [bytes_to_int]: a number that is not
    negative is written in [(bit_length + 7) // 8] bytes which
    [bytes_to_int] reads back as the number, and no shorter byte string
    stands for it; a negative number is refused ([OverflowError]). *)
Theorem int_to_bytes_round_trip (value : Z) :
  (value < 0 -> int_to_bytes value = None) /\
  (0 <= value ->
   exists bs,
     int_to_bytes value = Some bs /\
     bytes_to_int bs = value /\
     len bs = (bit_length value + 7) / 8 /\
     forall bs', bytes_to_int bs' = value ->
       (length bs <= length bs')%nat).
Proof.
  unfold int_to_bytes, bytes_to_int. split.
  - intros H.
    replace (value <? 0) with true by (symmetry; apply Z.ltb_lt; lia).
    reflexivity.
  - intros H.
    replace (value <? 0) with false by (symmetry; apply Z.ltb_ge; lia).
    set (n := (bit_length value + 7) / 8).
    assert (Hbits : 0 <= bit_length value /\
                    value < 2 ^ bit_length value /\
                    (0 < value -> 2 ^ (bit_length value - 1) <= value)).
    { unfold bit_length. destruct (Z.eqb_spec value 0) as [->|Hne].
      - simpl. lia.
      - rewrite Z.abs_eq by lia.
        pose proof (Z.log2_nonneg value).
        destruct (Z.log2_spec value ltac:(lia)) as [Hlo Hhi].
        replace (Z.log2 value + 1 - 1) with (Z.log2 value) by lia.
        replace (Z.log2 value + 1) with (Z.succ (Z.log2 value)) by lia.
        lia. }
    destruct Hbits as [Hb0 [Hup Hlow]].
    assert (Hn : 0 <= n /\ bit_length value <= 8 * n /\
                 8 * n <= bit_length value + 7).
    { unfold n.
      pose proof (Z.div_mod (bit_length value + 7) 8 ltac:(lia)).
      pose proof (Z.mod_pos_bound (bit_length value + 7) 8 ltac:(lia)).
      lia. }
    destruct Hn as [Hn0 [Hn1 Hn2]].
    eexists. split; [reflexivity|].
    unfold be_encode, len. rewrite be_decode_rev, le_decode_encode.
    rewrite length_rev, length_le_encode, Z2Nat.id by lia.
    split; [|split; [reflexivity|]].
    + apply Z.mod_small. split; [lia|]. rewrite pow256 by lia.
      apply (Z.lt_le_trans _ (2 ^ bit_length value)); [exact Hup|].
      apply Z.pow_le_mono_r; lia.
    + intros bs' Hbs'.
      destruct (le_lt_dec (Z.to_nat n) (length bs')) as [|Hshort];
        [assumption|exfalso].
      pose proof (be_decode_range bs') as Hr. rewrite Hbs' in Hr.
      rewrite pow256 in Hr by lia.
      assert (0 < value).
      { destruct (Z.eq_dec value 0) as [->|]; [|lia].
        change (bit_length 0) with 0 in *. lia. }
      specialize (Hlow ltac:(lia)).
      assert (2 ^ (8 * Z.of_nat (length bs')) <= 2 ^ (bit_length value - 1))
        by (apply Z.pow_le_mono_r; lia).
      lia.
Qed.

Lemma int_to_bytes_round_trip_witness :
  exists bs,
    int_to_bytes 65536 = Some bs /\
    bytes_to_int bs = 65536 /\
    len bs = (bit_length 65536 + 7) / 8 /\
    forall bs', bytes_to_int bs' = 65536 -> (length bs <= length bs')%nat.
Proof.
  destruct (int_to_bytes_round_trip 65536) as [_ H]. apply H. lia.
Defined.

Lemma format_02d_length (x : Z) :
  0 <= x < 100 -> String.length (format_02d x) = 2%nat.
Proof.
  intros H.
  assert (Hall : forallb
            (fun k => Nat.eqb (String.length (format_02d (Z.of_nat k))) 2)
            (seq 0 100) = true) by (vm_compute; reflexivity).
  rewrite List.forallb_forall in Hall.
  specialize (Hall (Z.to_nat x)). rewrite Z2Nat.id in Hall by lia.
  apply Nat.eqb_eq, Hall, in_seq. lia.
Qed.

(** X21. [formatted_time] prints days, hours, minutes and seconds that
    add up to the seconds given: the hours are below 24, the minutes and
    seconds below 60, each of the three printed with two digits; for a
    negative time the days are negative and the rest still in range. *)
Theorem formatted_time_fields (t : Z) :
  exists d h m s,
    formatted_time t
    = String.append (format_d d)
        (String.append "d "
           (String.append (format_02d h)
              (String.append "h "
                 (String.append (format_02d m)
                    (String.append "m "
                       (String.append (format_02d s) "s")))))) /\
    0 <= h < 24 /\ 0 <= m < 60 /\ 0 <= s < 60 /\
    ((d * 24 + h) * 60 + m) * 60 + s = t /\
    (t < 0 <-> d < 0) /\
    String.length (format_02d h) = 2%nat /\
    String.length (format_02d m) = 2%nat /\
    String.length (format_02d s) = 2%nat.
Proof.
  exists (t / 86400), (t mod 86400 / 3600), (t mod 3600 / 60), (t mod 60).
  split; [reflexivity|].
  pose proof (Z.div_mod t 86400 ltac:(lia)) as H1.
  pose proof (Z.mod_pos_bound t 86400 ltac:(lia)) as B1.
  pose proof (Z.div_mod (t mod 86400) 3600 ltac:(lia)) as H2.
  pose proof (Z.mod_pos_bound (t mod 86400) 3600 ltac:(lia)) as B2.
  pose proof (Z.div_mod t 3600 ltac:(lia)) as H3.
  pose proof (Z.mod_pos_bound t 3600 ltac:(lia)) as B3.
  pose proof (Z.div_mod (t mod 3600) 60 ltac:(lia)) as H4.
  pose proof (Z.mod_pos_bound (t mod 3600) 60 ltac:(lia)) as B4.
  pose proof (Z.div_mod t 60 ltac:(lia)) as H5.
  pose proof (Z.mod_pos_bound t 60 ltac:(lia)) as B5.
  assert (Hh : 0 <= t mod 86400 / 3600 < 24) by lia.
  assert (Hm : 0 <= t mod 3600 / 60 < 60) by lia.
  repeat split; try lia; apply format_02d_length; lia.
Qed.

(** ** When [fs_update] returns *)

(** X22. [fs_update] returns normally exactly when the height passed is
    between -1 and the last height of [tx_counts], the pending hashes and
    headers are as many, the counts reach the new height, and the hashes
    passed are whole hashes, as many as the counts say were added. A
    height past the counts is an [IndexError]. *)
Theorem fs_update_returns (st : DB) (fs_height : Z)
    (new_headers : list bytes) (block_tx_hashes : list (list bytes)) :
  0 <= HEADER_LEN (coin (env st)) ->
  ((exists st',
      fs_update st fs_height new_headers block_tx_hashes = Ok st') <->
   -1 <= fs_height < len (tx_counts st) /\
   len (tx_hashes st) = len (headers st) /\
   len (tx_counts st) = fs_height + len (headers st) + 1 /\
   len (concat (concat block_tx_hashes)) mod 32 = 0 /\
   len (concat (concat block_tx_hashes)) / 32
   = List.last (tx_counts st) 0 - tx_count_at st fs_height) /\
  (len (tx_counts st) <= fs_height ->
   fs_update st fs_height new_headers block_tx_hashes = Raise IndexError).
Proof.
  intros Hlen. split; [split|].
  - intros [st' Hup].
    destruct (fs_update_hash_files _ _ _ _ _ Hup)
      as [Hfs [Hmod [Hdiv _]]].
    split; [exact Hfs|].
    revert Hup. unfold fs_update, mbind, result_bind, py_assert.
    step_ok.
    destruct (Z.eqb_spec (len (tx_hashes st)) (len (headers st)));
      [|discriminate].
    destruct (Z.eqb_spec (len (tx_counts st))
                (fs_height + len (headers st) + 1)); [|discriminate].
    intros _. repeat split; assumption.
  - intros [Hfs [Hth [Htc [Hmod Hdiv]]]].
    apply fs_update_ok; assumption.
  - intros Hge. unfold fs_update, py_index.
    replace (0 <=? fs_height) with true
      by (symmetry; apply Z.leb_le; unfold len in Hge; lia).
    replace (nth_error (tx_counts st) (Z.to_nat fs_height)) with (@None Z)
      by (symmetry; apply nth_error_None; unfold len in Hge; lia).
    reflexivity.
Qed.

Lemma fs_update_returns_witness :
  (exists st',
     fs_update next_block_db 1 [header_2] [[tx_hash_a; tx_hash_b]]
     = Ok st') /\
  fs_update next_block_db 3 [header_2] [[tx_hash_a; tx_hash_b]]
  = Raise IndexError.
Proof.
  destruct (fs_update_returns next_block_db 1 [header_2]
              [[tx_hash_a; tx_hash_b]] ltac:(simpl; lia)) as [Hiff _].
  destruct (fs_update_returns next_block_db 3 [header_2]
              [[tx_hash_a; tx_hash_b]] ltac:(simpl; lia)) as [_ Hidx].
  split.
  - apply Hiff. vm_compute. repeat split; discriminate.
  - apply Hidx. vm_compute. discriminate.
Defined.

(** ** Loading the tx counts *)

Lemma le_encode_decode (bs : bytes) :
  le_encode (length bs) (le_decode bs) = bs.
Proof.
  induction bs as [|b r IH]; [reflexivity|].
  cbn [length le_decode le_encode].
  pose proof (byte_Z_range b) as Hb.
  f_equal.
  - apply byte_Z_inj. rewrite byte_Z_of_Z.
    replace (byte_Z b + 256 * le_decode r)
      with (byte_Z b + le_decode r * 256) by lia.
    rewrite Z.mod_add by lia. apply Z.mod_small. lia.
  - replace (byte_Z b + 256 * le_decode r)
      with (byte_Z b + le_decode r * 256) by lia.
    rewrite Z.div_add by lia. rewrite Z.div_small by lia. exact IH.
Qed.

Lemma array_frombytes_inv (n : nat) :
  forall (b : bytes) (a : list Z),
    (length b <= n)%nat -> array_frombytes b = Ok a ->
    array_tobytes a = b /\ List.Forall (fun x => 0 <= x < 2 ^ 32) a.
Proof.
  induction n as [|n IH]; intros b a Hn Hb.
  - destruct b; [|simpl in Hn; lia]. injection Hb as <-.
    split; [reflexivity | constructor].
  - destruct b as [|b0 [|b1 [|b2 [|b3 rest]]]]; try discriminate.
    + injection Hb as <-. split; [reflexivity | constructor].
    + cbn [array_frombytes] in Hb. unfold mbind, result_bind in Hb.
      destruct (array_frombytes rest) as [a'|e] eqn:Er; [|discriminate].
      injection Hb as <-.
      destruct (IH rest a' ltac:(simpl in Hn; lia) Er) as [Ht Hf].
      split.
      * unfold array_tobytes in *. cbn [map concat]. rewrite Ht.
        change 4%nat with (length [b0; b1; b2; b3]).
        rewrite le_encode_decode. reflexivity.
      * constructor; [|exact Hf].
        apply (le_decode_range [b0; b1; b2; b3]).
Qed.

(** X23. What [__init__] has loaded when it gets past its assertion:
    [tx_counts] has one count for each height up to [db_height], all
    unsigned 32-bit numbers, the last one [db_tx_count] (or no count and
    a [db_tx_count] of 0); they are the first bytes of the [txcount]
    file, and nothing else of the object has changed. A file shorter
    than [db_height + 1] counts ends the constructor ([EOFError]), and
    so does a negative number of counts. *)
Theorem load_tx_counts_spec (st : DB) :
  (forall st', load_tx_counts st = Some st' ->
     st' = set_tx_counts st (tx_counts st') /\
     len (tx_counts st') = db_height st + 1 /\
     List.last (tx_counts st') 0 = db_tx_count st /\
     List.Forall (fun x => 0 <= x < 2 ^ 32) (tx_counts st') /\
     array_tobytes (tx_counts st')
     = firstn (Z.to_nat ((db_height st + 1) * 4)) (txcount_file st)) /\
  (len (txcount_file st) < (db_height st + 1) * 4 \/ db_height st < -1 ->
   load_tx_counts st = None).
Proof.
  unfold load_tx_counts, array_fromfile, file_read. split.
  - intros st'.
    destruct (Z.ltb_spec (db_height st + 1) 0) as [|Hn]; [discriminate|].
    replace ((db_height st + 1) * 4 <? 0) with false
      by (symmetry; apply Z.ltb_ge; lia).
    rewrite skipn_O.
    set (b := firstn (Z.to_nat ((db_height st + 1) * 4)) (txcount_file st)).
    destruct (array_frombytes b) as [a|e] eqn:Ea; [|discriminate].
    destruct (Z.eqb_spec (len b) ((db_height st + 1) * 4)) as [Hb|];
      [|discriminate].
    destruct (Z.eqb_spec (db_tx_count st) (List.last a 0)) as [Hc|];
      [|discriminate].
    intros [= <-]. cbn [tx_counts set_tx_counts].
    destruct (array_frombytes_inv (length b) b a (Nat.le_refl _) Ea)
      as [Ht Hf].
    split; [reflexivity|]. split; [|split; [|split]]; try assumption.
    + apply (f_equal (@length byte)) in Ht.
      rewrite length_array_tobytes in Ht. unfold len in *. lia.
    + symmetry. exact Hc.
  - intros [Hshort|Hneg].
    + destruct (Z.ltb_spec (db_height st + 1) 0) as [|Hn]; [reflexivity|].
      replace ((db_height st + 1) * 4 <? 0) with false
        by (symmetry; apply Z.ltb_ge; lia).
      rewrite skipn_O.
      set (b := firstn (Z.to_nat ((db_height st + 1) * 4))
                  (txcount_file st)).
      destruct (array_frombytes b) as [a|e]; [|reflexivity].
      destruct (Z.eqb_spec (len b) ((db_height st + 1) * 4)) as [Hb|];
        [|reflexivity].
      exfalso. unfold b, len in *. rewrite length_firstn in Hb. lia.
    + replace (db_height st + 1 <? 0) with true
        by (symmetry; apply Z.ltb_lt; lia).
      reflexivity.
Qed.

Lemma load_tx_counts_spec_witness :
  len (tx_counts (set_tx_counts flushed_db [1; 2]))
  = db_height flushed_db + 1 /\
  load_tx_counts (set_db_height flushed_db 2) = None.
Proof.
  destruct (load_tx_counts_spec flushed_db) as [Hok _].
  destruct (load_tx_counts_spec (set_db_height flushed_db 2)) as [_ Hshort].
  split.
  - destruct (Hok (set_tx_counts flushed_db [1; 2]) eq_refl) as [_ [H _]].
    exact H.
  - apply Hshort. left. vm_compute. reflexivity.
Defined.

(** ** The keys of excess history *)

Lemma excess_history_loop_filter (ufc : Z) (items : list (bytes * bytes)) :
  (forall k, In k (map fst items) -> (2 <= length k)%nat) ->
  forall acc,
    excess_history_loop ufc items acc
    = Ok (acc ++ List.filter (fun k => flush_id k >? ufc) (map fst items)).
Proof.
  induction items as [|[k0 v0] items IH]; intros Hwf acc.
  - simpl. rewrite app_nil_r. reflexivity.
  - cbn [excess_history_loop]. unfold unpack_be.
    rewrite length_lastn by (apply Hwf; left; reflexivity).
    cbn [Nat.eqb mbind result_bind map fst List.filter].
    fold (flush_id k0).
    rewrite IH by (intros k Hk; apply Hwf; right; exact Hk).
    destruct (flush_id k0 >? ufc); [|reflexivity].
    rewrite <- app_assoc. reflexivity.
Qed.

(** X24. [excess_history_keys] on its own is right: on a store whose
    history keys have their 24 bytes it returns, in key order, exactly
    the history keys whose flush id exceeds the [utxo_flush_count] of the
    object it is called on. A first history key of fewer than two bytes
    is a [struct.error]. *)
Theorem excess_history_keys_spec (st : DB) :
  (key_layout (db st) ->
   excess_history_keys st
   = Ok (List.filter (fun k => flush_id k >? utxo_flush_count st)
           (map fst (iterator (db st) history_prefix)))) /\
  (forall k v rest,
     iterator (db st) history_prefix = (k, v) :: rest ->
     (length k < 2)%nat ->
     excess_history_keys st = Raise StructError).
Proof.
  unfold excess_history_keys. split.
  - intros Hl.
    rewrite excess_history_loop_filter; [reflexivity|].
    intros k Hk. apply iterator_keys_incl in Hk. destruct Hk as [Hk Hp].
    rewrite (proj2 (Hl k Hk) Hp). lia.
  - intros k v rest -> Hk. cbn [excess_history_loop]. unfold unpack_be.
    unfold lastn. replace (length k - 2)%nat with 0%nat by lia.
    rewrite skipn_O.
    destruct (Nat.eqb_spec (length k) 2); [lia | reflexivity].
Qed.

Lemma excess_history_keys_spec_witness :
  excess_history_keys unclean_db
  = Ok (List.filter (fun k => flush_id k >? utxo_flush_count unclean_db)
          (map fst (iterator (db unclean_db) history_prefix))).
Proof.
  destruct (excess_history_keys_spec unclean_db) as [H _].
  apply H. exact unclean_db_layout.
Defined.

(** ** [increment_byte_string] as the end of a range of keys *)

Lemma bytes_lt_app_l (a b r : bytes) :
  length a = length b -> bytes_lt a b -> bytes_lt (a ++ r) b.
Proof.
  unfold bytes_lt. revert b.
  induction a as [|x a IH]; intros [|y b] Hlen H; simpl in *;
    try discriminate.
  injection Hlen as Hlen.
  destruct (byte_Z x ?= byte_Z y); [apply IH; assumption | exact H | exact H].
Qed.

(** X25. [increment_byte_string bs] is the end of the range of the
    strings that start with [bs], unless [bs] is all 0xff: when the
    incremented number still fits the length of [bs], every string that
    starts with [bs] is below the result in byte order. When it does not
    fit ([bs] not empty), the result, [0x01] and zeros, is below every
    string that starts with [bs], and so ends no such range. *)
Theorem increment_byte_string_bound (bs k : bytes) :
  starts_with bs k = true ->
  (bytes_to_int bs + 1 < 256 ^ len bs ->
   bytes_lt k (increment_byte_string bs)) /\
  (bs <> [] -> 256 ^ len bs <= bytes_to_int bs + 1 ->
   bytes_lt (increment_byte_string bs) k).
Proof.
  intros Hk. apply starts_with_split in Hk. destruct Hk as [r ->].
  unfold increment_byte_string, bytes_to_int, len.
  destruct (increment_loop_spec (length bs) bs (Nat.le_refl _)) as [Hl Hd].
  rewrite Nat.sub_diag in Hd. change (256 ^ Z.of_nat 0) with 1 in Hd.
  destruct (increment_loop (length bs) bs) as [bs' incremented].
  cbn [fst snd] in *.
  pose proof (be_decode_range bs') as Hr'. rewrite Hl in Hr'.
  pose proof (be_decode_range bs) as Hr.
  split.
  - intros Hfit. destruct incremented; [|lia].
    apply bytes_lt_app_l; [symmetry; exact Hl|].
    apply bytes_lt_of_be_decode; [symmetry; exact Hl | lia].
  - intros Hne Hover. destruct incremented; [lia|].
    destruct bs as [|b0 bs0]; [congruence|].
    unfold bytes_lt. cbn [app bytes_compare].
    change (byte_Z x01) with 1.
    assert (Hb0 : byte_Z b0 = 255).
    { pose proof (byte_Z_range b0) as Hb.
      pose proof (be_decode_range bs0) as Hr0.
      cbn [be_decode length] in Hover.
      rewrite Nat2Z.inj_succ, Z.pow_succ_r in Hover by lia.
      nia. }
    rewrite Hb0. reflexivity.
Qed.

Lemma increment_byte_string_bound_witness :
  bytes_lt [x61; xff; x00; x07] (increment_byte_string [x61; xff]) /\
  bytes_lt (increment_byte_string [xff; xff]) [xff; xff; x00].
Proof.
  destruct (increment_byte_string_bound [x61; xff] [x61; xff; x00; x07]
              eq_refl) as [Hup _].
  destruct (increment_byte_string_bound [xff; xff] [xff; xff; x00]
              eq_refl) as [_ Hlow].
  split.
  - apply Hup. vm_compute. reflexivity.
  - apply Hlow; [discriminate | vm_compute; discriminate].
Defined.

(** ** Headers joined and cut again *)

Lemma concat_skipn_uniform {A} (n : nat) (hs : list (list A)) (k : nat) :
  List.Forall (fun h => length h = n) hs ->
  skipn (k * n) (concat hs) = concat (skipn k hs).
Proof.
  intros Hall. revert k.
  induction Hall as [|h hs Hh _ IH]; intros k.
  - rewrite !skipn_nil. reflexivity.
  - destruct k as [|k]; [reflexivity|].
    cbn [concat skipn Nat.mul]. rewrite skipn_app, Hh.
    replace (n + k * n - n)%nat with (k * n)%nat by lia.
    rewrite (skipn_all2 h) by lia. apply IH.
Qed.

Lemma concat_firstn_uniform {A} (n : nat) (hs : list (list A)) (c : nat) :
  List.Forall (fun h => length h = n) hs ->
  firstn (c * n) (concat hs) = concat (firstn c hs).
Proof.
  intros Hall. revert c.
  induction Hall as [|h hs Hh _ IH]; intros c.
  - rewrite !firstn_nil. reflexivity.
  - destruct c as [|c]; [reflexivity|].
    cbn [concat firstn Nat.mul]. rewrite firstn_app, Hh.
    replace (n + c * n - n)%nat with (c * n)%nat by lia.
    rewrite (firstn_all2 h) by lia. rewrite IH. reflexivity.
Qed.

(** Pieces of [size] items each, joined, are cut into the pieces. *)
Lemma chunks_of_concat {A} (hs : list (list A)) (size : Z) :
  0 < size -> List.Forall (fun h => len h = size) hs ->
  chunks (concat hs) size = Ok hs.
Proof.
  intros Hs Hall. rewrite (chunks_records _ size Hs). f_equal.
  set (n := Z.to_nat size).
  assert (Hn : List.Forall (fun h => length h = n) hs).
  { eapply List.Forall_impl; [|exact Hall].
    intros h Hh. unfold len in Hh. unfold n. lia. }
  assert (Hlen : length (concat hs) = (length hs * n)%nat)
    by (apply length_concat_uniform; exact Hn).
  assert (Hq : Z.to_nat ((len (concat hs) + size - 1) / size) = length hs).
  { destruct (chunk_count_bounds (len (concat hs)) size
                ltac:(unfold len; lia) Hs) as [Hq [Hup [Hlow Hz]]].
    unfold len in *. rewrite Hlen in *.
    assert (Hsz : Z.of_nat n = size) by (unfold n; lia).
    rewrite Nat2Z.inj_mul, Hsz in *.
    destruct (Nat.eq_dec (length hs) 0%nat) as [H0|H0].
    - rewrite Hz by lia. lia.
    - specialize (Hlow ltac:(nia)). nia. }
  rewrite Hq.
  apply (nth_ext _ _ [] []); [rewrite length_map, length_seq; reflexivity|].
  intros i Hi. rewrite length_map, length_seq in Hi.
  rewrite (nth_indep _ [] (firstn n (skipn (0 * n) (concat hs))))
    by (rewrite length_map, length_seq; exact Hi).
  rewrite (map_nth (fun k => firstn n (skipn (k * n) (concat hs)))).
  rewrite seq_nth by exact Hi. cbn [Nat.add].
  apply record_of_concat; assumption.
Qed.

(** X26. [chunks] undoes the join: pieces of [size > 0] items each,
    joined into one sequence, are what [chunks] cuts that sequence
    into. *)
Theorem chunks_concat {A} (hs : list (list A)) (size : Z) :
  0 < size -> List.Forall (fun h => len h = size) hs ->
  chunks (concat hs) size = Ok hs.
Proof. exact (chunks_of_concat hs size). Qed.

Lemma chunks_concat_witness :
  chunks (concat [[x01; x02]; [x03; x04]; [x05; x06]]) 2
  = Ok [[x01; x02]; [x03; x04]; [x05; x06]].
Proof.
  apply chunks_concat; [lia | repeat constructor].
Defined.

(** X27. The block hashes served are those of the headers written:
    after runs of [fs_update] that appended the headers [hs], each of
    [HEADER_LEN > 0] bytes, to an empty headers file, on an object whose
    [db_height] is the height of the last of them, [fs_block_hashes] on
    a range of heights within them returns the coin's hash of each
    header appended for these heights, in order. *)
Theorem fs_block_hashes_appended (header_hash : bytes -> bytes) (st : DB)
    (hs : list bytes) (height count : Z) :
  appended st hs ->
  List.Forall (fun h => len h = HEADER_LEN (coin (env st))) hs ->
  0 < HEADER_LEN (coin (env st)) ->
  db_height st = len hs - 1 ->
  0 <= height -> 0 <= count -> height + count <= len hs ->
  fs_block_hashes header_hash st height count
  = Ok (map header_hash
          (firstn (Z.to_nat count) (skipn (Z.to_nat height) hs))).
Proof.
  intros Happ Hall Hpos Hdb Hh Hc Hr.
  pose proof (appended_headers_file st hs Happ Hall) as Hfile.
  unfold fs_block_hashes.
  rewrite read_headers_ok by lia. cbn [mbind result_bind].
  set (n := Z.to_nat (HEADER_LEN (coin (env st)))).
  assert (Hn : List.Forall (fun h => length h = n) hs).
  { eapply List.Forall_impl; [|exact Hall].
    intros h Hl. unfold len in Hl. unfold n. lia. }
  rewrite Hfile, (concat_skipn_uniform n hs _ Hn).
  assert (Hn' : List.Forall (fun h => length h = n)
                  (skipn (Z.to_nat height) hs)).
  { apply List.Forall_forall. intros h Hin.
    rewrite List.Forall_forall in Hn. apply Hn.
    rewrite <- (firstn_skipn (Z.to_nat height) hs).
    apply in_or_app. right. exact Hin. }
  rewrite (concat_firstn_uniform n _ _ Hn').
  rewrite chunks_of_concat; [reflexivity | exact Hpos |].
  apply List.Forall_forall. intros h Hin.
  rewrite List.Forall_forall in Hall. apply Hall.
  rewrite <- (firstn_skipn (Z.to_nat height) hs).
  apply in_or_app. right.
  rewrite <- (firstn_skipn (Z.to_nat count) (skipn (Z.to_nat height) hs)).
  apply in_or_app. left. exact Hin.
Qed.

Lemma fs_block_hashes_appended_witness :
  fs_block_hashes (fun h => rev h) (set_db_height written_db 1) 0 2
  = Ok (map (fun h => rev h)
          (firstn (Z.to_nat 2) (skipn (Z.to_nat 0) [header_0; header_1]))).
Proof.
  apply (fs_block_hashes_appended (fun h => rev h)
           (set_db_height written_db 1) [header_0; header_1] 0 2
           written_db_appended).
  - repeat constructor.
  - simpl. lia.
  - reflexivity.
  - lia.
  - lia.
  - vm_compute. discriminate.
Defined.
